(** * justsecuritybackend: route handlers of the anti-malware API, embedded in Rocq

    Each route handler of the repository is a short sequence of calls on three
    collaborators: the relational store (through the ORM), Redis (rate limits
    and the cache of hash verdicts) and the vendors (push provider, Apple,
    Safe Browsing).  The embedding keeps that shape: a handler is a function
    of the request, of the state of the store and of Redis, and of the answers
    of the vendors it awaits; it returns the new state and the response.

    - a thrown JavaScript exception is a value of [Exn]; an [await]ed call is
      a computation in the monad [M], which passes the state and either
      returns or throws; a [catch] block is a function of the exception;
    - the body of a request is JSON or a text that is not, with the message
      of the error that the parser throws for it;
    - a table of the store is the list of its rows, oldest first; a row
      carries the columns the routes read or write;
    - a JSON object used as a dictionary is a [gmap string _];
    - millisecond timestamps and counters are in [Z];
    - what a library or a vendor computes (JWT verification, bcrypt, format
      checks of zod, date parsing, the push provider) is a [Variable] of the
      section of the handler that calls it;
    - the store answers every call, and refuses what its tables, as the
      migration of the repository defines them, cannot hold: a repeated
      primary key or unique column, a row that is not there, a value that is
      not one of the column's enumeration, a column the table does not
      have.  The id the store gives to a row it creates, and the time
      [Date.now()], are arguments of the handler; where a theorem depends
      on the clock moving between two readings, each reading is an
      argument. *)

From Stdlib Require Import ZArith QArith Lia Bool Ascii String List.
From stdpp Require Import base option list gmap strings.
Import ListNotations.

Local Open Scope string_scope.
Local Open Scope Z_scope.

(** ** Exceptions and responses *)

(** [error instanceof z.ZodError] holds of [ZodError] only;
    [error instanceof Error] holds of both. *)
Inductive Exn : Type :=
  | ZodError (message : string)
  | Error (message : string).

Definition message (e : Exn) : string :=
  match e with ZodError m => m | Error m => m end.

Definition isZodError (e : Exn) : bool :=
  match e with ZodError _ => true | Error _ => false end.

Inductive Result (A : Type) : Type :=
  | Ok (a : A)
  | Throw (e : Exn).
Arguments Ok {A} a.
Arguments Throw {A} e.

Definition rbind {A B : Type} (m : Result A) (k : A -> Result B) : Result B :=
  match m with Ok a => k a | Throw e => Throw e end.

(** The envelope [{success, data?, error?}] with its HTTP status ([details] is
    the extra key one route adds to its validation error);
    [NextResponse.json(body)] without a status is a 200. *)
Record Response (D : Type) : Type := mkResponse {
  status : Z;
  success : bool;
  error : option string;
  data : option D;
  details : option string
}.
Arguments mkResponse {D} _ _ _ _ _.
Arguments status {D} _.
Arguments success {D} _.
Arguments error {D} _.
Arguments data {D} _.
Arguments details {D} _.

Definition json_error {D : Type} (code : Z) (msg : string) : Response D :=
  mkResponse code false (Some msg) None None.

Definition json_ok {D : Type} (d : D) : Response D :=
  mkResponse 200 true None (Some d) None.

(** [s.includes(sub)] *)
Fixpoint prefixb (p s : string) : bool :=
  match p, s with
  | EmptyString, _ => true
  | String a p', String b s' => if Ascii.eqb a b then prefixb p' s' else false
  | String _ _, EmptyString => false
  end.

Fixpoint includes (s sub : string) : bool :=
  prefixb sub s ||
  match s with
  | EmptyString => false
  | String _ s' => includes s' sub
  end.

(** A JavaScript string is truthy when it is not empty. *)
Definition truthy (s : string) : bool :=
  match s with EmptyString => false | String _ _ => true end.

(** ** lib/auth.ts *)

Record AuthUser : Type := mkAuthUser {
  userId : string;
  email : string
}.

Module Auth.

(** The request as [verifyAuth] sees it: the [authorization] header. *)
Section VerifyAuth.
(** [verify(token, JWT_SECRET)] of the jsonwebtoken package: the decoded
    payload, or nothing when it throws. *)
Variable verify : string -> option AuthUser.

Definition substring7 (s : string) : string :=
  String.substring 7 (String.length s - 7) s.

Definition verifyAuth (authHeader : option string) : Result AuthUser :=
  match authHeader with
  | None => Throw (Error "Missing or invalid authorization header")
  | Some h =>
      if negb (truthy h) || negb (prefixb "Bearer " h)
      then Throw (Error "Missing or invalid authorization header")
      else
        match verify (substring7 h) with
        | Some decoded => Ok decoded
        | None => Throw (Error "Invalid or expired token")
        end
  end.
End VerifyAuth.

End Auth.

(** ** lib/rate-limit.ts *)

Module RateLimit.

(** What Redis holds for one rate-limited identifier: the sorted set under
    [key] with the time at which it expires, and the integer under
    [key:counter].  A member [now .. ':' .. n] of the sorted set is kept as
    the pair [(now, n)].  The expiry is read on the clock that gives [now].

    This is the script as one identifier sees it, with its two keys to
    itself and holding values of their kinds.  The keys of two identifiers
    can meet ([key:counter] of [u] is [key] of [u:counter]), and a key can
    hold a value of another kind: [Redis], further down, runs the script on
    the keys themselves. *)
Record KeyState : Type := mkKeyState {
  zset : list ((Z * Z) * Z);
  expireAt : option Z;
  counter : Z
}.

Definition fresh : KeyState := mkKeyState [] None 0.

Definition member_eqb (a b : Z * Z) : bool :=
  (fst a =? fst b) && (snd a =? snd b).

(** The key is gone once its time to live has run out. *)
Definition expire (now : Z) (st : KeyState) : KeyState :=
  match expireAt st with
  | Some e => if e <=? now then mkKeyState [] None (counter st) else st
  | None => st
  end.

(** [ZREMRANGEBYSCORE key lo hi] removes the members with [lo <= score <= hi]. *)
Definition zremrangebyscore (lo hi : Z) (zs : list ((Z * Z) * Z)) :
  list ((Z * Z) * Z) :=
  List.filter (fun e => negb ((lo <=? snd e) && (snd e <=? hi))) zs.

Definition zcard (zs : list ((Z * Z) * Z)) : Z := Z.of_nat (List.length zs).

(** [ZADD key score member]: a member already in the set gets the new score. *)
Definition zadd (score : Z) (m : Z * Z) (zs : list ((Z * Z) * Z)) :
  list ((Z * Z) * Z) :=
  if List.existsb (fun e => member_eqb (fst e) m) zs
  then List.map (fun e => if member_eqb (fst e) m then (m, score) else e) zs
  else (zs ++ [(m, score)])%list.

(** [rateLimitScript], with KEYS[1] the key of [st] and
    ARGV = [now, window, limit]; the result is the pair the script returns. *)
Definition rateLimitScript (st : KeyState) (now window limit : Z) :
  KeyState * (Z * Z) :=
  let st := expire now st in
  let windowStart := now - window * 1000 in
  let zs := zremrangebyscore 0 windowStart (zset st) in
  let currentCount := zcard zs in
  if limit <=? currentCount
  then (mkKeyState zs (expireAt st) (counter st), (0, 0))
  else
    let n := counter st + 1 in
    (mkKeyState (zadd now (now, n) zs) (Some (now + window * 1000)) n,
     (1, limit - currentCount - 1)).

Record RateLimitResult : Type := mkRateLimitResult {
  rl_success : bool;
  remaining : Z
}.

Definition key_of (identifier : string) : string :=
  "rate_limit:" ++ identifier.

(** [rateLimit(identifier, limit, window)] at time [now = Date.now()]. *)
Definition rateLimit (redis : gmap string KeyState)
    (identifier : string) (limit window now : Z) :
    gmap string KeyState * RateLimitResult :=
  let key := key_of identifier in
  let st := default fresh (redis !! key) in
  let '(st', result) := rateLimitScript st now window limit in
  (<[key := st']> redis,
   mkRateLimitResult (fst result =? 1) (snd result)).

(** The outcomes of the calls [rateLimit(identifier, limit, window)] made at
    the times [ts], one after the other. *)
Fixpoint requests (redis : gmap string KeyState)
    (identifier : string) (limit window : Z) (ts : list Z) :
    gmap string KeyState * list bool :=
  match ts with
  | [] => (redis, [])
  | t :: ts' =>
      let '(redis', r) := rateLimit redis identifier limit window t in
      let '(redis'', rs) := requests redis' identifier limit window ts' in
      (redis'', rl_success r :: rs)
  end.

(** A state of a key in which no entry leaves the window of [window]
    seconds that ends at [T], no member was numbered beyond the counter, and
    the key outlives [T] but not [B]. *)
Definition live (window T B : Z) (st : KeyState) : Prop :=
  (forall e, In e (zset st) ->
     T - window * 1000 < snd e /\ snd (fst e) <= counter st) /\
  (forall x, expireAt st = Some x -> T < x <= B) /\
  (expireAt st = None -> zset st = []).

End RateLimit.

(** ** The relational store *)

(** JSON values, for the JSONB columns and the request bodies.  A number is
    the rational its decimal notation denotes. *)
#[warnings="-register-all"] Inductive Json : Type :=
  | JNull
  | JBool (b : bool)
  | JNum (q : Q)
  | JStr (s : string)
  | JArr (items : list Json)
  | JObj (fields : list (string * Json)).

(** [obj[key]] on a JSON object written as a list of fields: the last field
    of that name wins, as in [JSON.parse]. *)
Fixpoint field (key : string) (fields : list (string * Json)) : option Json :=
  match fields with
  | [] => None
  | (k, v) :: rest =>
      match field key rest with
      | Some v' => Some v'
      | None => if String.eqb k key then Some v else None
      end
  end.

Inductive CommandType : Type := LOCATE | RING | LOCK | WIPE.
Inductive CommandStatus : Type := PENDING | SENT | EXECUTED | FAILED.

Record Device : Type := mkDevice {
  dev_id : string;
  dev_userId : string;
  dev_deviceId : string;
  dev_deviceName : string;
  dev_platform : string;
  dev_osVersion : string;
  dev_appVersion : string;
  dev_lastSeen : Z;
  dev_isActive : bool
}.

Record PushToken : Type := mkPushToken {
  pt_id : string;
  pt_deviceId : string;
  pt_token : string;
  pt_platform : string;
  pt_isActive : bool
}.

Record AntiTheftCommand : Type := mkCommand {
  cmd_id : string;
  cmd_deviceId : string;
  cmd_commandType : CommandType;
  cmd_status : CommandStatus;
  cmd_issuedBy : string;
  cmd_executedAt : option Z;
  cmd_metadata : gmap string Json
}.

Record TelemetryLog : Type := mkTelemetryLog {
  tl_userId : string;
  tl_eventType : string;
  tl_eventData : gmap string Json
}.

Record ThreatSignature : Type := mkThreatSignature {
  ts_type : string;
  ts_signature : string;
  ts_threatName : option string;
  ts_severity : option string;
  ts_category : option string;
  ts_isActive : bool
}.

Record ScanLog : Type := mkScanLog {
  sl_id : string;
  sl_deviceId : string;
  sl_scanType : string;
  sl_status : string;
  sl_filesScanned : Z;
  sl_threatsFound : Z;
  sl_startedAt : Z;
  sl_completedAt : option Z;
  sl_duration : option Z;
  sl_metadata : option Json
}.

Record Quarantine : Type := mkQuarantine {
  q_deviceId : string;
  q_fileName : string;
  q_filePath : string;
  q_fileSize : Z;
  q_fileHash : string;
  q_threatName : string;
  q_threatSignatureId : string;
  q_severity : string;
  q_status : string
}.

Record User : Type := mkUser {
  u_id : string;
  u_email : string;
  u_name : option string;
  u_passwordHash : option string;
  u_updatedAt : Z
}.

Record Subscription : Type := mkSubscription {
  sub_userId : string;
  sub_tier : string;
  sub_status : string;
  sub_platform : string;
  sub_trialEndsAt : option Z;
  sub_currentPeriodStart : option Z;
  sub_currentPeriodEnd : option Z
}.

(** The verdict of a hash lookup, as sent to the client and as cached. *)
Record ThreatResult : Type := mkThreatResult {
  tr_hash : string;
  isThreat : bool;
  tr_threatName : option string;
  tr_severity : option string;
  tr_category : option string
}.

(** The state the handlers act on: the tables of the store and the two uses of
    Redis: the rate-limit keys, and the [threat:<hash>] entries, each the
    verdict written under the key with the time at which it expires. *)
Record World : Type := mkWorld {
  devices : list Device;
  pushTokens : list PushToken;
  commands : list AntiTheftCommand;
  telemetry : list TelemetryLog;
  signatures : list ThreatSignature;
  scanLogs : list ScanLog;
  quarantines : list Quarantine;
  users : list User;
  subscriptions : list Subscription;
  rateKeys : gmap string RateLimit.KeyState;
  threatCache : gmap string (Z * ThreatResult)
}.

Definition set_devices (f : list Device -> list Device) (w : World) : World :=
  mkWorld (f (devices w)) (pushTokens w) (commands w) (telemetry w)
    (signatures w) (scanLogs w) (quarantines w) (users w) (subscriptions w)
    (rateKeys w) (threatCache w).

Definition set_pushTokens (f : list PushToken -> list PushToken) (w : World) : World :=
  mkWorld (devices w) (f (pushTokens w)) (commands w) (telemetry w)
    (signatures w) (scanLogs w) (quarantines w) (users w) (subscriptions w)
    (rateKeys w) (threatCache w).

Definition set_commands (f : list AntiTheftCommand -> list AntiTheftCommand)
    (w : World) : World :=
  mkWorld (devices w) (pushTokens w) (f (commands w)) (telemetry w)
    (signatures w) (scanLogs w) (quarantines w) (users w) (subscriptions w)
    (rateKeys w) (threatCache w).

Definition set_telemetry (f : list TelemetryLog -> list TelemetryLog)
    (w : World) : World :=
  mkWorld (devices w) (pushTokens w) (commands w) (f (telemetry w))
    (signatures w) (scanLogs w) (quarantines w) (users w) (subscriptions w)
    (rateKeys w) (threatCache w).

Definition set_signatures (f : list ThreatSignature -> list ThreatSignature)
    (w : World) : World :=
  mkWorld (devices w) (pushTokens w) (commands w) (telemetry w)
    (f (signatures w)) (scanLogs w) (quarantines w) (users w) (subscriptions w)
    (rateKeys w) (threatCache w).

Definition set_scanLogs (f : list ScanLog -> list ScanLog) (w : World) : World :=
  mkWorld (devices w) (pushTokens w) (commands w) (telemetry w)
    (signatures w) (f (scanLogs w)) (quarantines w) (users w) (subscriptions w)
    (rateKeys w) (threatCache w).

Definition set_quarantines (f : list Quarantine -> list Quarantine)
    (w : World) : World :=
  mkWorld (devices w) (pushTokens w) (commands w) (telemetry w)
    (signatures w) (scanLogs w) (f (quarantines w)) (users w) (subscriptions w)
    (rateKeys w) (threatCache w).

Definition set_users (f : list User -> list User) (w : World) : World :=
  mkWorld (devices w) (pushTokens w) (commands w) (telemetry w)
    (signatures w) (scanLogs w) (quarantines w) (f (users w)) (subscriptions w)
    (rateKeys w) (threatCache w).

Definition set_subscriptions (f : list Subscription -> list Subscription)
    (w : World) : World :=
  mkWorld (devices w) (pushTokens w) (commands w) (telemetry w)
    (signatures w) (scanLogs w) (quarantines w) (users w) (f (subscriptions w))
    (rateKeys w) (threatCache w).

Definition set_rateKeys
    (f : gmap string RateLimit.KeyState -> gmap string RateLimit.KeyState)
    (w : World) : World :=
  mkWorld (devices w) (pushTokens w) (commands w) (telemetry w)
    (signatures w) (scanLogs w) (quarantines w) (users w) (subscriptions w)
    (f (rateKeys w)) (threatCache w).

Definition set_threatCache
    (f : gmap string (Z * ThreatResult) -> gmap string (Z * ThreatResult))
    (w : World) : World :=
  mkWorld (devices w) (pushTokens w) (commands w) (telemetry w)
    (signatures w) (scanLogs w) (quarantines w) (users w) (subscriptions w)
    (rateKeys w) (f (threatCache w)).

(** ** Awaited computations: state passing with exceptions

    An [await]ed call reads and writes the world and either returns or throws;
    what it wrote before it threw stays written. *)
Definition M (A : Type) : Type := World -> World * Result A.

Definition ret {A : Type} (a : A) : M A := fun w => (w, Ok a).
Definition throw {A : Type} (e : Exn) : M A := fun w => (w, Throw e).
Definition lift {A : Type} (r : Result A) : M A := fun w => (w, r).

Definition bind {A B : Type} (m : M A) (k : A -> M B) : M B :=
  fun w =>
    match m w with
    | (w', Ok a) => k a w'
    | (w', Throw e) => (w', Throw e)
    end.

Notation "x <- m ;; k" := (bind m (fun x => k))
  (at level 100, m at next level, right associativity).
Notation "m ;;; k" := (bind m (fun _ => k))
  (at level 100, right associativity).

Definition get {A : Type} (f : World -> A) : M A := fun w => (w, Ok (f w)).
Definition modify (f : World -> World) : M unit := fun w => (f w, Ok tt).

(** [try { body } catch (error) { handler }], for a handler that awaits. *)
Definition try_catchM {A : Type} (body : M A) (handler : Exn -> M A) : M A :=
  fun w =>
    match body w with
    | (w', Ok a) => (w', Ok a)
    | (w', Throw e) => handler e w'
    end.

(** The outermost [try ... catch] of a route handler, whose [catch] block
    only builds a value. *)
Definition try_catch {A : Type} (body : M A) (handler : Exn -> A) :
    World -> World * A :=
  fun w =>
    match body w with
    | (w', Ok a) => (w', a)
    | (w', Throw e) => (w', handler e)
    end.

(** [prisma.$transaction(async (tx) => body)]: the writes of a body that
    throws are rolled back. *)
Definition transaction {A : Type} (body : M A) : M A :=
  fun w =>
    match body w with
    | (w', Ok a) => (w', Ok a)
    | (_, Throw e) => (w, Throw e)
    end.

(** The body of a request as [await request.json()] finds it: JSON, or a
    text that is not JSON, for which it throws a [SyntaxError] whose message
    quotes the text. *)
Inductive Body : Type :=
  | Parsed (j : Json)
  | Malformed (message : string).

(** A request with a JSON body, or with no body at all: of an empty text
    the parser says [Unexpected end of JSON input].  Where a handler is
    given an [option Json], this is the body meant. *)
Definition body_of (o : option Json) : Body :=
  match o with
  | Some j => Parsed j
  | None => Malformed "Unexpected end of JSON input"
  end.
#[warnings="-uniform-inheritance"] Coercion body_of : option >-> Body.

(** [await request.json()] *)
Definition request_json (body : Body) : M Json :=
  match body with
  | Parsed j => ret j
  | Malformed message => throw (Error message)
  end.

(** [await rateLimit(identifier, limit, window)] inside a handler; the call
    throws when Redis cannot be reached ([up = false]). *)
Definition rateLimitM (up : bool) (identifier : string) (limit window now : Z) :
    M bool :=
  fun w =>
    if up then
      let '(keys, r) :=
        RateLimit.rateLimit (rateKeys w) identifier limit window now in
      (set_rateKeys (fun _ => keys) w, Ok (RateLimit.rl_success r))
    else (w, Throw (Error "fetch failed")).

(** Parts of the zod schemas shared by the routes. *)
Definition z_object (j : Json) : Result (list (string * Json)) :=
  match j with
  | JObj fields => Ok fields
  | _ => Throw (ZodError "Expected object")
  end.

Definition z_string (j : option Json) : Result string :=
  match j with
  | Some (JStr s) => Ok s
  | Some _ => Throw (ZodError "Expected string")
  | None => Throw (ZodError "Required")
  end.

Definition z_string_optional (j : option Json) : Result (option string) :=
  match j with
  | None => Ok None
  | Some (JStr s) => Ok (Some s)
  | Some _ => Throw (ZodError "Expected string")
  end.

Definition z_number (j : option Json) : Result Q :=
  match j with
  | Some (JNum q) => Ok q
  | Some _ => Throw (ZodError "Expected number")
  | None => Throw (ZodError "Required")
  end.

(** [z.number().int().min(0)] *)
Definition z_int_min0 (j : option Json) : Result Z :=
  rbind (z_number j) (fun q =>
    if negb (Z.rem (Qnum q) (Zpos (Qden q)) =? 0)
    then Throw (ZodError "Expected integer, received float")
    else
      let n := Z.quot (Qnum q) (Zpos (Qden q)) in
      if 0 <=? n then Ok n
      else Throw (ZodError "Number must be greater than or equal to 0")).

Definition JInt (n : Z) : Json := JNum (inject_Z n).

(** [prisma.device.findFirst({ where: { id, userId } })] *)
Definition device_findFirst (p : Device -> bool) : M (option Device) :=
  get (fun w => List.find p (devices w)).

(** [prisma.telemetryLog.create({ data })] *)
Definition telemetryLog_create (row : TelemetryLog) : M unit :=
  modify (set_telemetry (fun t => (t ++ [row])%list)).

(** [prisma.antiTheftCommand.create]: the id is the primary key. *)
Definition antiTheftCommand_create (row : AntiTheftCommand) : M AntiTheftCommand :=
  fun w =>
    if List.existsb (fun c => String.eqb (cmd_id c) (cmd_id row)) (commands w)
    then (w, Throw (Error "Unique constraint failed on the fields: (`id`)"))
    else (set_commands (fun cs => (cs ++ [row])%list) w, Ok row).

(** [prisma.antiTheftCommand.update({ where: { id }, data })] *)
Definition antiTheftCommand_update (id : string)
    (f : AntiTheftCommand -> AntiTheftCommand) : M unit :=
  fun w =>
    if List.existsb (fun c => String.eqb (cmd_id c) id) (commands w)
    then (set_commands
            (List.map (fun c => if String.eqb (cmd_id c) id then f c else c)) w,
          Ok tt)
    else (w, Throw (Error "Record to update not found.")).

(** [prisma.pushToken.update({ where: { id }, data })] *)
Definition pushToken_update (id : string) (f : PushToken -> PushToken) : M unit :=
  fun w =>
    if List.existsb (fun t => String.eqb (pt_id t) id) (pushTokens w)
    then (set_pushTokens
            (List.map (fun t => if String.eqb (pt_id t) id then f t else t)) w,
          Ok tt)
    else (w, Throw (Error "Record to update not found.")).

Definition deactivate (t : PushToken) : PushToken :=
  mkPushToken (pt_id t) (pt_deviceId t) (pt_token t) (pt_platform t) false.

(** [data: { status }] *)
Definition set_status (s : CommandStatus) (c : AntiTheftCommand) : AntiTheftCommand :=
  mkCommand (cmd_id c) (cmd_deviceId c) (cmd_commandType c) s
    (cmd_issuedBy c) (cmd_executedAt c) (cmd_metadata c).

(** [prisma.antiTheftCommand.findFirst({ where })] *)
Definition antiTheftCommand_findFirst (p : AntiTheftCommand -> bool) :
    M (option AntiTheftCommand) :=
  get (fun w => List.find p (commands w)).

(** The values of the enumeration [Platform] of the store. *)
Definition Platform_value (s : string) : bool :=
  String.eqb s "ANDROID" || String.eqb s "IOS".

(** [prisma.device.upsert({ where: { deviceId }, update, create })]: the row
    with that [deviceId] is updated, or the [create] row is inserted.  The
    arguments are checked against the table before anything is written: a
    [create.platform] that is not a value of [Platform] is refused, whether
    or not the row exists. *)
Definition device_upsert (deviceId : string) (update : Device -> Device)
    (create : Device) : M Device :=
  fun w =>
    if negb (Platform_value (dev_platform create))
    then (w, Throw (Error "Invalid value for argument `platform`. Expected Platform."))
    else
    match List.find (fun d => String.eqb (dev_deviceId d) deviceId) (devices w) with
    | Some d =>
        (set_devices
           (List.map (fun d' =>
              if String.eqb (dev_deviceId d') deviceId then update d' else d')) w,
         Ok (update d))
    | None =>
        if List.existsb (fun d => String.eqb (dev_id d) (dev_id create)) (devices w)
        then (w, Throw (Error "Unique constraint failed on the fields: (`id`)"))
        else (set_devices (fun ds => (ds ++ [create])%list) w, Ok create)
    end.

(** ** app/api/device/command/route.ts *)

Module DeviceCommand.

Inductive CommandName : Type := locate | ring | lock | wipe.

Definition commandName_text (c : CommandName) : string :=
  match c with
  | locate => "locate"
  | ring => "ring"
  | lock => "lock"
  | wipe => "wipe"
  end.

Definition COMMAND_TYPE_MAP (c : CommandName) : CommandType :=
  match c with
  | locate => LOCATE
  | ring => RING
  | lock => LOCK
  | wipe => WIPE
  end.

Record Metadata : Type := mkMetadata {
  lockMessage : option string;
  phoneNumber : option string
}.

Record Validated : Type := mkValidated {
  v_deviceId : string;
  v_commandType : CommandName;
  v_metadata : option Metadata
}.

Definition z_commandType (j : option Json) : Result CommandName :=
  match j with
  | Some (JStr s) =>
      if String.eqb s "locate" then Ok locate
      else if String.eqb s "ring" then Ok ring
      else if String.eqb s "lock" then Ok lock
      else if String.eqb s "wipe" then Ok wipe
      else Throw (ZodError "Invalid enum value")
  | Some _ => Throw (ZodError "Invalid enum value")
  | None => Throw (ZodError "Required")
  end.

Definition z_metadata (j : option Json) : Result (option Metadata) :=
  match j with
  | None => Ok None
  | Some (JObj fields) =>
      rbind (z_string_optional (field "lockMessage" fields)) (fun lm =>
      rbind (z_string_optional (field "phoneNumber" fields)) (fun pn =>
      Ok (Some (mkMetadata lm pn))))
  | Some _ => Throw (ZodError "Expected object")
  end.

(** [DeviceCommandSchema.parse(body)] *)
Definition DeviceCommandSchema (body : Json) : Result Validated :=
  rbind (z_object body) (fun fields =>
  rbind (z_string (field "deviceId" fields)) (fun deviceId =>
  rbind (z_commandType (field "commandType" fields)) (fun commandType =>
  rbind (z_metadata (field "metadata" fields)) (fun metadata =>
  Ok (mkValidated deviceId commandType metadata))))).

(** [validated.metadata || {}] as the JSON object written to the row. *)
Definition metadata_json (m : option Metadata) : gmap string Json :=
  match m with
  | None => ∅
  | Some m =>
      let o1 : gmap string Json :=
        match lockMessage m with
        | Some s => {[ "lockMessage" := JStr s ]}
        | None => ∅
        end in
      match phoneNumber m with
      | Some s => <[ "phoneNumber" := JStr s ]> o1
      | None => o1
      end
  end.

(** The message handed to [admin.messaging().send]. *)
Record Message : Type := mkMessage {
  msg_token : string;
  msg_commandId : string;
  msg_commandType : CommandName;
  msg_metadata : option Metadata;
  msg_apns : bool
}.

(** What [send] does: it resolves to a message id, or throws an error that
    carries a [code]. *)
Inductive SendOutcome : Type :=
  | Delivered (messageId : string)
  | Rejected (code : string).

(** An entry of the array [Promise.allSettled] resolves to. *)
Inductive Settled : Type := fulfilled | rejected.

Definition is_fulfilled (r : Settled) : bool :=
  match r with fulfilled => true | rejected => false end.

Definition delivered (o : SendOutcome) : bool :=
  match o with Delivered _ => true | Rejected _ => false end.

Record CommandData : Type := mkCommandData {
  commandId : string;
  cd_status : string;
  pushesSent : Z
}.

Definition status_error (e : Exn) : Response CommandData :=
  if isZodError e then json_error 400 "Invalid request data"
  else if includes (message e) "Unauthorized" then json_error 401 "Unauthorized"
  else json_error 500 "Failed to send command".

Section Handler.
Variable verify : string -> option AuthUser.
Variable send : Message -> SendOutcome.

Definition message_of (command : AntiTheftCommand) (validated : Validated)
    (pushToken : PushToken) : Message :=
  mkMessage (pt_token pushToken) (cmd_id command) (v_commandType validated)
    (v_metadata validated) (String.eqb (pt_platform pushToken) "apns").

(** One of the promises under [Promise.allSettled]: whatever is thrown in
    it, also by the update of the token, settles it as rejected. *)
Definition push (command : AntiTheftCommand) (validated : Validated)
    (pushToken : PushToken) : M Settled :=
  match send (message_of command validated pushToken) with
  | Delivered _ => ret fulfilled
  | Rejected code =>
      if String.eqb code "messaging/invalid-registration-token"
         || String.eqb code "messaging/registration-token-not-registered"
      then fun w =>
             (fst (pushToken_update (pt_id pushToken) deactivate w), Ok rejected)
      else ret rejected
  end.

Fixpoint allSettled (ps : list (M Settled)) : M (list Settled) :=
  match ps with
  | [] => ret []
  | p :: ps' => r <- p ;; rs <- allSettled ps' ;; ret (r :: rs)
  end.

Definition POST_body (redisUp : bool) (newId : string) (now : Z)
    (authHeader : option string) (body : Body) :
    M (Response CommandData) :=
  user <- lift (Auth.verifyAuth verify authHeader) ;;
  ok <- rateLimitM redisUp ("device_command:" ++ userId user) 10 3600 now ;;
  if negb ok
  then ret (json_error 429 "Too many commands. Please try again later.")
  else
    body <- request_json body ;;
    validated <- lift (DeviceCommandSchema body) ;;
    device <- device_findFirst (fun d =>
                String.eqb (dev_id d) (v_deviceId validated)
                && String.eqb (dev_userId d) (userId user)
                && dev_isActive d) ;;
    match device with
    | None => ret (json_error 404 "Device not found or inactive")
    | Some device =>
        tokens <- get (fun w =>
                    List.filter (fun t =>
                      String.eqb (pt_deviceId t) (dev_id device)
                      && pt_isActive t) (pushTokens w)) ;;
        if (List.length tokens =? 0)%nat
        then ret (json_error 400 "Device has no active push tokens")
        else
          command <- antiTheftCommand_create
                       (mkCommand newId (dev_id device)
                          (COMMAND_TYPE_MAP (v_commandType validated))
                          PENDING (userId user) None
                          (metadata_json (v_metadata validated))) ;;
          pushResults <- allSettled
                           (List.map (push command validated) tokens) ;;
          let successfulPushes :=
            Z.of_nat (List.length (List.filter is_fulfilled pushResults)) in
          (if 0 <? successfulPushes
           then antiTheftCommand_update (cmd_id command) (set_status SENT)
           else antiTheftCommand_update (cmd_id command) (set_status FAILED)) ;;;
          telemetryLog_create
            (mkTelemetryLog (userId user) "anti_theft_command_issued"
               (<[ "commandType" :=
                     JStr (commandName_text (v_commandType validated)) ]>
                (<[ "deviceId" := JStr (dev_id device) ]>
                 {[ "success" := JBool (0 <? successfulPushes) ]}))) ;;;
          ret (json_ok
                 (mkCommandData (cmd_id command)
                    (if 0 <? successfulPushes then "sent" else "failed")
                    successfulPushes))
    end.

Definition POST (redisUp : bool) (newId : string) (now : Z)
    (authHeader : option string) (body : Body) :
    World -> World * Response CommandData :=
  try_catch (POST_body redisUp newId now authHeader body) status_error.

End Handler.

End DeviceCommand.

(** ** app/api/device/location/route.ts *)

Module DeviceLocation.

Record Validated : Type := mkValidated {
  v_deviceId : string;
  v_commandId : string;
  latitude : Q;
  longitude : Q;
  accuracy : Q;
  timestamp : string
}.

Record LocationData : Type := mkLocationData {
  commandId : string;
  ld_status : string
}.

(** [z.number().min(lo).max(hi)] *)
Definition z_number_range (lo hi : Q) (j : option Json) : Result Q :=
  rbind (z_number j) (fun q =>
    if negb (Qle_bool lo q)
    then Throw (ZodError "Number must be greater than or equal to the minimum")
    else if negb (Qle_bool q hi)
    then Throw (ZodError "Number must be less than or equal to the maximum")
    else Ok q).

(** [z.number().positive()] *)
Definition z_number_positive (j : option Json) : Result Q :=
  rbind (z_number j) (fun q =>
    if Qle_bool q (inject_Z 0)
    then Throw (ZodError "Number must be greater than 0")
    else Ok q).

Section Handler.
Variable verify : string -> option AuthUser.
(** The format check of zod's [z.string().datetime()]. *)
Variable isDatetime : string -> bool.

Definition z_datetime (j : option Json) : Result string :=
  rbind (z_string j) (fun s =>
    if isDatetime s then Ok s else Throw (ZodError "Invalid datetime")).

(** [LocationSchema.parse(body)] *)
Definition LocationSchema (body : Json) : Result Validated :=
  rbind (z_object body) (fun fields =>
  rbind (z_string (field "deviceId" fields)) (fun deviceId =>
  rbind (z_string (field "commandId" fields)) (fun commandId =>
  rbind (z_number_range (inject_Z (-90)) (inject_Z 90)
           (field "latitude" fields)) (fun latitude =>
  rbind (z_number_range (inject_Z (-180)) (inject_Z 180)
           (field "longitude" fields)) (fun longitude =>
  rbind (z_number_positive (field "accuracy" fields)) (fun accuracy =>
  rbind (z_datetime (field "timestamp" fields)) (fun timestamp =>
  Ok (mkValidated deviceId commandId latitude longitude accuracy
        timestamp)))))))).

Definition location_json (validated : Validated) : Json :=
  JObj [("latitude", JNum (latitude validated));
        ("longitude", JNum (longitude validated));
        ("accuracy", JNum (accuracy validated));
        ("timestamp", JStr (timestamp validated))].

(** The [data] of the update: the status, the execution time, and the
    metadata of the command found, spread under the [location] key. *)
Definition execute (now : Z) (command : AntiTheftCommand)
    (validated : Validated) (c : AntiTheftCommand) : AntiTheftCommand :=
  mkCommand (cmd_id c) (cmd_deviceId c) (cmd_commandType c) EXECUTED
    (cmd_issuedBy c) (Some now)
    (<[ "location" := location_json validated ]> (cmd_metadata command)).

Definition status_error (e : Exn) : Response LocationData :=
  if isZodError e then json_error 400 "Invalid request data"
  else json_error 500 "Location update failed".

Definition POST_body (now : Z) (authHeader : option string)
    (body : Body) : M (Response LocationData) :=
  user <- lift (Auth.verifyAuth verify authHeader) ;;
  body <- request_json body ;;
  validated <- lift (LocationSchema body) ;;
  device <- device_findFirst (fun d =>
              String.eqb (dev_id d) (v_deviceId validated)
              && String.eqb (dev_userId d) (userId user)) ;;
  match device with
  | None => ret (json_error 404 "Device not found")
  | Some device =>
      command <- antiTheftCommand_findFirst (fun c =>
                   String.eqb (cmd_id c) (v_commandId validated)
                   && String.eqb (cmd_deviceId c) (dev_id device)
                   && match cmd_commandType c with
                      | LOCATE => true
                      | _ => false
                      end) ;;
      match command with
      | None => ret (json_error 404 "Command not found")
      | Some command =>
          antiTheftCommand_update (cmd_id command)
            (execute now command validated) ;;;
          ret (json_ok (mkLocationData (cmd_id command) "EXECUTED"))
      end
  end.

Definition POST (now : Z) (authHeader : option string) (body : Body) :
    World -> World * Response LocationData :=
  try_catch (POST_body now authHeader body) status_error.

End Handler.

End DeviceLocation.

(** ** app/api/device/register/route.ts *)

Module DeviceRegister.

Inductive PlatformName : Type := ios | android.

Definition platform_text (p : PlatformName) : string :=
  match p with ios => "ios" | android => "android" end.

Record Validated : Type := mkValidated {
  v_deviceId : string;
  v_deviceName : string;
  v_platform : PlatformName;
  v_osVersion : string;
  v_appVersion : string;
  v_pushToken : option string
}.

Record RegisterData : Type := mkRegisterData { deviceId : string }.

(** [z.string().min(1)] *)
Definition z_string_min1 (j : option Json) : Result string :=
  rbind (z_string j) (fun s =>
    if truthy s then Ok s
    else Throw (ZodError "String must contain at least 1 character(s)")).

Definition z_platform (j : option Json) : Result PlatformName :=
  match j with
  | Some (JStr s) =>
      if String.eqb s "ios" then Ok ios
      else if String.eqb s "android" then Ok android
      else Throw (ZodError "Invalid enum value")
  | Some _ => Throw (ZodError "Invalid enum value")
  | None => Throw (ZodError "Required")
  end.

(** [RegisterDeviceSchema.parse(body)] *)
Definition RegisterDeviceSchema (body : Json) : Result Validated :=
  rbind (z_object body) (fun fields =>
  rbind (z_string_min1 (field "deviceId" fields)) (fun deviceId =>
  rbind (z_string_min1 (field "deviceName" fields)) (fun deviceName =>
  rbind (z_platform (field "platform" fields)) (fun platform =>
  rbind (z_string (field "osVersion" fields)) (fun osVersion =>
  rbind (z_string (field "appVersion" fields)) (fun appVersion =>
  rbind (z_string_optional (field "pushToken" fields)) (fun pushToken =>
  Ok (mkValidated deviceId deviceName platform osVersion appVersion
        pushToken)))))))).

(** [tx.pushToken.findUnique({ where: { token }, include: { device: true } })] *)
Definition pushToken_findUnique (token : string) :
    M (option (PushToken * option Device)) :=
  get (fun w =>
    match List.find (fun t => String.eqb (pt_token t) token) (pushTokens w) with
    | Some t =>
        Some (t, List.find (fun d => String.eqb (dev_id d) (pt_deviceId t))
                   (devices w))
    | None => None
    end).

(** [tx.pushToken.upsert({ where: { token }, update, create })] *)
Definition pushToken_upsert (token : string) (update : PushToken -> PushToken)
    (create : PushToken) : M unit :=
  fun w =>
    if List.existsb (fun t => String.eqb (pt_token t) token) (pushTokens w)
    then (set_pushTokens
            (List.map (fun t =>
               if String.eqb (pt_token t) token then update t else t)) w,
          Ok tt)
    else if List.existsb (fun t => String.eqb (pt_id t) (pt_id create))
              (pushTokens w)
    then (w, Throw (Error "Unique constraint failed on the fields: (`id`)"))
    else (set_pushTokens (fun ts => (ts ++ [create])%list) w, Ok tt).

(** What binds a device row: its id, its hardware id and its owner. *)
Definition binding (d : Device) : string * string * string :=
  (dev_id d, dev_deviceId d, dev_userId d).

Definition status_error (e : Exn) : Response RegisterData :=
  if isZodError e then json_error 400 "Invalid request data"
  else if String.eqb (message e) "Push token belongs to another user"
          || String.eqb (message e) "Device belongs to another user"
  then json_error 403 (message e)
  else json_error 500 "Device registration failed".

Section Handler.
Variable verify : string -> option AuthUser.

(** [newId] and [newTokenId] are the ids the store gives to a device row
    and to a push-token row it creates. *)
Definition POST_body (redisUp : bool) (newId newTokenId : string) (now : Z)
    (authHeader : option string) (body : Body) :
    M (Response RegisterData) :=
  user <- lift (Auth.verifyAuth verify authHeader) ;;
  ok <- rateLimitM redisUp ("device_register:" ++ userId user) 10 60 now ;;
  if negb ok
  then ret (json_error 429 "Too many requests")
  else
    body <- request_json body ;;
    validated <- lift (RegisterDeviceSchema body) ;;
    device <- device_upsert (v_deviceId validated)
                (fun d =>
                   mkDevice (dev_id d) (dev_userId d) (dev_deviceId d)
                     (v_deviceName validated) (dev_platform d)
                     (v_osVersion validated) (v_appVersion validated)
                     now true)
                (mkDevice newId (userId user) (v_deviceId validated)
                   (v_deviceName validated)
                   (platform_text (v_platform validated))
                   (v_osVersion validated) (v_appVersion validated)
                   now true) ;;
    if negb (String.eqb (dev_userId device) (userId user))
    then throw (Error "Device belongs to another user")
    else
      (match v_pushToken validated with
       | Some pushToken =>
           if truthy pushToken then
             transaction (
               existingToken <- pushToken_findUnique pushToken ;;
               match existingToken with
               | Some (_, Some owner) =>
                   if negb (String.eqb (dev_userId owner) (userId user))
                   then throw (Error "Push token belongs to another user")
                   else ret tt
               | _ => ret tt
               end ;;;
               let platform :=
                 match v_platform validated with
                 | ios => "apns"
                 | android => "fcm"
                 end in
               pushToken_upsert pushToken
                 (fun t =>
                    mkPushToken (pt_id t) (dev_id device) (pt_token t)
                      platform true)
                 (mkPushToken newTokenId (dev_id device) pushToken
                    platform true))
           else ret tt
       | None => ret tt
       end) ;;;
      ret (json_ok (mkRegisterData (dev_id device))).

Definition POST (redisUp : bool) (newId newTokenId : string) (now : Z)
    (authHeader : option string) (body : Body) :
    World -> World * Response RegisterData :=
  try_catch (POST_body redisUp newId newTokenId now authHeader body)
    status_error.

End Handler.

End DeviceRegister.

(** ** app/api/auth/email-login/route.ts *)

Module EmailLogin.

Record DeviceInfo : Type := mkDeviceInfo {
  di_deviceId : string;
  di_deviceName : string;
  di_platform : DeviceRegister.PlatformName;
  di_osVersion : string;
  di_appVersion : string
}.

Record Validated : Type := mkValidated {
  v_email : string;
  v_password : string;
  v_deviceInfo : DeviceInfo
}.

Record LoginData : Type := mkLoginData {
  token : string;
  user_id : string;
  user_email : string;
  user_name : option string;
  device_id : string;
  subscription_tier : string;
  subscription_status : string;
  subscription_trialEndsAt : option Z
}.

(** The proxy headers the route reads. *)
Record Headers : Type := mkHeaders {
  x_forwarded_for : option string;
  x_real_ip : option string;
  x_client_ip : option string
}.

(** [a || b] on header values: [null] and the empty string are falsy. *)
Definition or_else (a : option string) (b : string) : string :=
  match a with
  | Some s => if truthy s then s else b
  | None => b
  end.

(** [s.split(',')[0]] *)
Fixpoint before_comma (s : string) : string :=
  match s with
  | EmptyString => EmptyString
  | String c s' =>
      if Ascii.eqb c ","%char then EmptyString else String c (before_comma s')
  end.

Definition is_space (c : ascii) : bool :=
  Ascii.eqb c " "%char || Ascii.eqb c "009"%char || Ascii.eqb c "010"%char
  || Ascii.eqb c "011"%char || Ascii.eqb c "012"%char
  || Ascii.eqb c "013"%char.

Fixpoint trim_left (s : string) : string :=
  match s with
  | String c s' => if is_space c then trim_left s' else s
  | EmptyString => EmptyString
  end.

Fixpoint trim_right (s : string) : string :=
  match s with
  | EmptyString => EmptyString
  | String c s' =>
      match trim_right s' with
      | EmptyString => if is_space c then EmptyString else String c EmptyString
      | r => String c r
      end
  end.

Definition trim (s : string) : string := trim_right (trim_left s).

Definition identifier_of (h : Headers) : string :=
  let forwarded :=
    or_else (x_forwarded_for h)
      (or_else (x_real_ip h) (or_else (x_client_ip h) "anonymous")) in
  trim (before_comma forwarded).

Section Handler.
(** [ratelimit.limit(identifier)] of the Upstash sliding-window limiter
    (5 attempts per 15 minutes): whether the attempt is let through. *)
Variable limit : string -> bool.
(** The format check of zod's [z.string().email()]. *)
Variable isEmail : string -> bool.
(** [bcrypt.compare(password, hash)] *)
Variable compare : string -> string -> bool.
(** [sign({ userId, email }, JWT_SECRET, { expiresIn: '7d' })] *)
Variable sign : string -> string -> string.
(** [new Date(ms).toISOString()] *)
Variable toISOString : Z -> string.

Definition z_email (j : option Json) : Result string :=
  rbind (z_string j) (fun s =>
    if isEmail s then Ok s else Throw (ZodError "Invalid email address")).

Definition z_password (j : option Json) : Result string :=
  rbind (z_string j) (fun s =>
    if truthy s then Ok s else Throw (ZodError "Password required")).

Definition z_deviceInfo (j : option Json) : Result DeviceInfo :=
  match j with
  | Some (JObj fields) =>
      rbind (z_string (field "deviceId" fields)) (fun deviceId =>
      rbind (z_string (field "deviceName" fields)) (fun deviceName =>
      rbind (DeviceRegister.z_platform (field "platform" fields)) (fun platform =>
      rbind (z_string (field "osVersion" fields)) (fun osVersion =>
      rbind (z_string (field "appVersion" fields)) (fun appVersion =>
      Ok (mkDeviceInfo deviceId deviceName platform osVersion appVersion))))))
  | Some _ => Throw (ZodError "Expected object")
  | None => Throw (ZodError "Required")
  end.

(** [EmailLoginSchema.parse(body)] *)
Definition EmailLoginSchema (body : Json) : Result Validated :=
  rbind (z_object body) (fun fields =>
  rbind (z_email (field "email" fields)) (fun email =>
  rbind (z_password (field "password" fields)) (fun password =>
  rbind (z_deviceInfo (field "deviceInfo" fields)) (fun deviceInfo =>
  Ok (mkValidated email password deviceInfo))))).

Definition invalid_credentials : Response LoginData :=
  json_error 401 "Invalid email or password".

Definition status_error (e : Exn) : Response LoginData :=
  match e with
  | ZodError issues =>
      mkResponse 400 false (Some "Invalid request data") None (Some issues)
  | Error _ => json_error 500 "Login failed"
  end.

Definition week : Z := 7 * 24 * 60 * 60 * 1000.

(** [newId] is the id the store gives to a device row it creates. *)
Definition POST_body (newId : string) (now : Z) (body : Body) :
    M (Response LoginData) :=
  body <- request_json body ;;
  validated <- lift (EmailLoginSchema body) ;;
  user <- get (fun w =>
            List.find (fun u => String.eqb (u_email u) (v_email validated))
              (users w)) ;;
  match user with
  | None => ret invalid_credentials
  | Some user =>
      match u_passwordHash user with
      | None => ret invalid_credentials
      | Some passwordHash =>
          if negb (truthy passwordHash) then ret invalid_credentials
          else if negb (compare (v_password validated) passwordHash)
          then ret invalid_credentials
          else
            let info := v_deviceInfo validated in
            modify (set_users (List.map (fun u =>
              if String.eqb (u_id u) (u_id user)
              then mkUser (u_id u) (u_email u) (u_name u)
                     (u_passwordHash u) now
              else u))) ;;;
            device <- device_upsert (di_deviceId info)
                        (fun d =>
                           mkDevice (dev_id d) (dev_userId d)
                             (dev_deviceId d) (dev_deviceName d)
                             (dev_platform d) (di_osVersion info)
                             (di_appVersion info) now (dev_isActive d))
                        (mkDevice newId (u_id user) (di_deviceId info)
                           (di_deviceName info)
                           (DeviceRegister.platform_text (di_platform info))
                           (di_osVersion info) (di_appVersion info)
                           now true) ;;
            found <- get (fun w =>
                       List.find (fun s =>
                         String.eqb (sub_userId s) (u_id user)
                         && (String.eqb (sub_status s) "active"
                             || String.eqb (sub_status s) "trial"))
                         (subscriptions w)) ;;
            subscription <-
              match found with
              | Some s => ret s
              | None =>
                  let s :=
                    mkSubscription (u_id user) "free" "trial"
                      (DeviceRegister.platform_text (di_platform info))
                      (Some (now + week)) (Some now) (Some (now + week)) in
                  modify (set_subscriptions (fun l => (l ++ [s])%list)) ;;;
                  ret s
              end ;;
            telemetryLog_create
              (mkTelemetryLog (u_id user) "email_login"
                 (<[ "deviceId" := JStr (dev_id device) ]>
                  (<[ "platform" :=
                        JStr (DeviceRegister.platform_text (di_platform info)) ]>
                   {[ "timestamp" := JStr (toISOString now) ]}))) ;;;
            ret (json_ok
                   (mkLoginData (sign (u_id user) (u_email user))
                      (u_id user) (u_email user) (u_name user)
                      (dev_id device) (sub_tier subscription)
                      (sub_status subscription)
                      (sub_trialEndsAt subscription)))
      end
  end.

Definition POST (newId : string) (now : Z) (headers : Headers)
    (body : Body) : World -> World * Response LoginData :=
  fun w =>
    if negb (limit (identifier_of headers))
    then (w, json_error 429 "Too many login attempts")
    else try_catch (POST_body newId now body) status_error w.

End Handler.

End EmailLogin.

(** ** app/api/url/classify/route.ts *)

Module UrlClassify.

Record Classification : Type := mkClassification {
  isSafe : bool;
  category : option Json;
  reason : option string
}.

(** What [fetch] and [response.json()] give: the call fails (network error,
    timeout), or a response arrives with its [ok] flag, its status and its
    body, which is JSON or not. *)
Inductive FetchOutcome : Type :=
  | FetchFailed
  | Fetched (ok : bool) (code : Z) (body : option Json).

Section Handler.
Variable verify : string -> option AuthUser.
(** The format check of zod's [z.string().url()]. *)
Variable isUrl : string -> bool.
(** The text a template literal gives for a value. *)
Variable template : option Json -> string.
(** [x > 0] for a string or an array [x], which JavaScript converts to a
    number before it compares. *)
Variable coerced_gt_zero : Json -> bool.
(** [process.env.GOOGLE_SAFE_BROWSING_KEY] *)
Variable apiKey : option string.
(** The Safe Browsing lookup of a URL. *)
Variable fetch : string -> FetchOutcome.

(** [ClassifyUrlSchema.parse(body)] *)
Definition ClassifyUrlSchema (body : Json) : Result string :=
  rbind (z_object body) (fun fields =>
  rbind (z_string (field "url" fields)) (fun url =>
  if isUrl url then Ok url else Throw (ZodError "Invalid url"))).

(** [x > 0] for a value [x] of the parsed answer.  A number is compared
    as the double it was rounded to: what does not exceed 2^-1075 was
    rounded to 0.  [true] counts as 1, [null] as 0, an object is no number;
    a string or an array is first converted to a number. *)
Definition gt_zero (x : Json) : bool :=
  match x with
  | JNum q => negb (Qle_bool q (1 # Pos.pow 2 1075))
  | JBool b => b
  | JNull => false
  | JObj _ => false
  | JStr _ => coerced_gt_zero x
  | JArr _ => coerced_gt_zero x
  end.

Definition safe : Classification := mkClassification true None None.

(** The object returned for [data.matches[0]]: reading [threatType] off
    [undefined] or [null] throws; a value that is no object has none. *)
Definition flagged (entry : option Json) : Result Classification :=
  match entry with
  | None => Throw (Error "Cannot read properties of undefined")
  | Some JNull => Throw (Error "Cannot read properties of null")
  | Some (JObj m) =>
      Ok (mkClassification false (field "threatType" m)
            (Some ("This URL is flagged as "
                   ++ template (field "threatType" m))))
  | Some _ =>
      Ok (mkClassification false None
            (Some ("This URL is flagged as " ++ template None)))
  end.

(** [data.matches && data.matches.length > 0], then [data.matches[0]]: an
    array has its length and its first element, a string its length and
    its first character, an object the entries [length] and [0] if it has
    them, any other value no [length]. *)
Definition matched (matches : option Json) : option (option Json) :=
  match matches with
  | Some (JArr (first :: _)) => Some (Some first)
  | Some (JStr (String c _)) => Some (Some (JStr (String c EmptyString)))
  | Some (JObj entries) =>
      match field "length" entries with
      | Some n => if gt_zero n then Some (field "0" entries) else None
      | None => None
      end
  | _ => None
  end.

(** The [try] block of [classifyUrlWithThreatIntel]. *)
Definition lookup (url : string) : Result Classification :=
  match fetch url with
  | FetchFailed => Throw (Error "fetch failed")
  | Fetched ok code body =>
      match body with
      | None => Throw (Error "Unexpected token in JSON")
      | Some data =>
          if negb ok then Throw (Error "Safe Browsing API error")
          else
            match data with
            | JObj fields =>
                match matched (field "matches" fields) with
                | Some entry => flagged entry
                | None => Ok safe
                end
            | JNull => Throw (Error "Cannot read properties of null")
            | _ => Ok safe
            end
      end
  end.

Definition classifyUrlWithThreatIntel (url : string) : Result Classification :=
  match apiKey with
  | None => Throw (Error "GOOGLE_SAFE_BROWSING_KEY is not configured")
  | Some k =>
      if negb (truthy k)
      then Throw (Error "GOOGLE_SAFE_BROWSING_KEY is not configured")
      else
        match lookup url with
        | Ok c => Ok c
        | Throw _ => Ok safe
        end
  end.

Definition POST_body (authHeader : option string) (body : Body) :
    M (option (Response Classification)) :=
  _ <- lift (Auth.verifyAuth verify authHeader) ;;
  body <- request_json body ;;
  validated <- lift (ClassifyUrlSchema body) ;;
  classification <- lift (classifyUrlWithThreatIntel validated) ;;
  ret (Some (json_ok classification)).

(** The [catch] block: its [if] has no [else] and nothing follows it, so
    the function returns no value for any other error. *)
Definition on_error (e : Exn) : option (Response Classification) :=
  if includes (message e) "Unauthorized"
  then Some (json_error 401 "Unauthorized")
  else None.

Definition POST (authHeader : option string) (body : Body) :
    World -> World * option (Response Classification) :=
  try_catch (POST_body authHeader body) on_error.

End Handler.

End UrlClassify.

(** ** app/api/scan/report/route.ts *)

Module ScanReport.

Inductive ScanType : Type := quick | full | custom.
Inductive ScanStatus : Type := completed | failed | cancelled.
Inductive Severity : Type := low | medium | high | critical.

Definition scanType_text (t : ScanType) : string :=
  match t with quick => "quick" | full => "full" | custom => "custom" end.

Definition status_text (s : ScanStatus) : string :=
  match s with
  | completed => "completed"
  | failed => "failed"
  | cancelled => "cancelled"
  end.

Definition severity_text (s : Severity) : string :=
  match s with
  | low => "low" | medium => "medium" | high => "high" | critical => "critical"
  end.

(** [threat.severity.toUpperCase()] *)
Definition severity_upper (s : Severity) : string :=
  match s with
  | low => "LOW" | medium => "MEDIUM" | high => "HIGH" | critical => "CRITICAL"
  end.

Record Threat : Type := mkThreat {
  fileName : string;
  filePath : string;
  fileHash : string;
  threatName : string;
  severity : Severity
}.

Record Validated : Type := mkValidated {
  v_deviceId : string;
  v_scanType : ScanType;
  v_status : ScanStatus;
  v_filesScanned : Z;
  v_threatsFound : Z;
  v_startedAt : string;
  v_completedAt : option string;
  v_threats : option (list Threat)
}.

Record ReportData : Type := mkReportData { scanLogId : string }.

Definition z_scanType (j : option Json) : Result ScanType :=
  match j with
  | Some (JStr s) =>
      if String.eqb s "quick" then Ok quick
      else if String.eqb s "full" then Ok full
      else if String.eqb s "custom" then Ok custom
      else Throw (ZodError "Invalid enum value")
  | Some _ => Throw (ZodError "Invalid enum value")
  | None => Throw (ZodError "Required")
  end.

Definition z_status (j : option Json) : Result ScanStatus :=
  match j with
  | Some (JStr s) =>
      if String.eqb s "completed" then Ok completed
      else if String.eqb s "failed" then Ok failed
      else if String.eqb s "cancelled" then Ok cancelled
      else Throw (ZodError "Invalid enum value")
  | Some _ => Throw (ZodError "Invalid enum value")
  | None => Throw (ZodError "Required")
  end.

Definition z_severity (j : option Json) : Result Severity :=
  match j with
  | Some (JStr s) =>
      if String.eqb s "low" then Ok low
      else if String.eqb s "medium" then Ok medium
      else if String.eqb s "high" then Ok high
      else if String.eqb s "critical" then Ok critical
      else Throw (ZodError "Invalid enum value")
  | Some _ => Throw (ZodError "Invalid enum value")
  | None => Throw (ZodError "Required")
  end.

Definition z_threat (j : Json) : Result Threat :=
  rbind (z_object j) (fun fields =>
  rbind (z_string (field "fileName" fields)) (fun fileName =>
  rbind (z_string (field "filePath" fields)) (fun filePath =>
  rbind (z_string (field "fileHash" fields)) (fun fileHash =>
  rbind (z_string (field "threatName" fields)) (fun threatName =>
  rbind (z_severity (field "severity" fields)) (fun severity =>
  Ok (mkThreat fileName filePath fileHash threatName severity))))))).

Fixpoint z_array {A : Type} (item : Json -> Result A) (items : list Json) :
    Result (list A) :=
  match items with
  | [] => Ok []
  | j :: rest =>
      rbind (item j) (fun a =>
      rbind (z_array item rest) (fun l => Ok (a :: l)))
  end.

Definition z_threats (j : option Json) : Result (option (list Threat)) :=
  match j with
  | None => Ok None
  | Some (JArr items) => rbind (z_array z_threat items) (fun l => Ok (Some l))
  | Some _ => Throw (ZodError "Expected array")
  end.

Definition threat_json (t : Threat) : Json :=
  JObj [("fileName", JStr (fileName t)); ("filePath", JStr (filePath t));
        ("fileHash", JStr (fileHash t)); ("threatName", JStr (threatName t));
        ("severity", JStr (severity_text (severity t)))].

(** The row [createMany] gets for a reported threat. *)
Definition quarantine_row (device : Device) (uuid : string) (threat : Threat) :
    Quarantine :=
  mkQuarantine (dev_id device) (fileName threat) (filePath threat) 0
    (fileHash threat) (threatName threat) uuid
    (severity_upper (severity threat)) "QUARANTINED".

(** [threats.map(f)] where [f] calls [randomUUID()] once per entry; [n] is
    the number of calls made before. *)
Fixpoint quarantine_rows (randomUUID : nat -> string) (device : Device)
    (n : nat) (threats : list Threat) : list Quarantine :=
  match threats with
  | [] => []
  | t :: rest =>
      quarantine_row device (randomUUID n) t
      :: quarantine_rows randomUUID device (S n) rest
  end.

(** [prisma.scanLog.create]: the id is the primary key. *)
Definition scanLog_create (row : ScanLog) : M ScanLog :=
  fun w =>
    if List.existsb (fun l => String.eqb (sl_id l) (sl_id row)) (scanLogs w)
    then (w, Throw (Error "Unique constraint failed on the fields: (`id`)"))
    else (set_scanLogs (fun ls => (ls ++ [row])%list) w, Ok row).

(** [tx.quarantine.createMany({ data })].  The rows the route builds carry a
    [threatName], a column the quarantine table does not have, and as
    [threatSignatureId] a fresh [randomUUID()], where the table wants the
    id of a signature: the store refuses them. *)
Definition quarantine_createMany (rows : list Quarantine) : M unit :=
  match rows with
  | [] => ret tt
  | _ :: _ => throw (Error "Unknown argument `threatName`.")
  end.

Definition status_error (e : Exn) : Response ReportData :=
  if isZodError e then json_error 400 "Invalid request data"
  else json_error 500 "Scan report failed".

Section Handler.
Variable verify : string -> option AuthUser.
(** The format check of zod's [z.string().datetime()]. *)
Variable isDatetime : string -> bool.
(** [new Date(text).getTime()] *)
Variable Date_parse : string -> Z.
(** The successive values of [randomUUID()]. *)
Variable randomUUID : nat -> string.

Definition z_datetime (j : option Json) : Result string :=
  rbind (z_string j) (fun s =>
    if isDatetime s then Ok s else Throw (ZodError "Invalid datetime")).

Definition z_datetime_optional (j : option Json) : Result (option string) :=
  match j with
  | None => Ok None
  | Some _ => rbind (z_datetime j) (fun s => Ok (Some s))
  end.

(** [ScanReportSchema.parse(body)] *)
Definition ScanReportSchema (body : Json) : Result Validated :=
  rbind (z_object body) (fun fields =>
  rbind (z_string (field "deviceId" fields)) (fun deviceId =>
  rbind (z_scanType (field "scanType" fields)) (fun scanType =>
  rbind (z_status (field "status" fields)) (fun status =>
  rbind (z_int_min0 (field "filesScanned" fields)) (fun filesScanned =>
  rbind (z_int_min0 (field "threatsFound" fields)) (fun threatsFound =>
  rbind (z_datetime (field "startedAt" fields)) (fun startedAt =>
  rbind (z_datetime_optional (field "completedAt" fields)) (fun completedAt =>
  rbind (z_threats (field "threats" fields)) (fun threats =>
  Ok (mkValidated deviceId scanType status filesScanned threatsFound
        startedAt completedAt threats)))))))))).

(** The telemetry row of a scan: it carries the user and the figures of
    the scan. *)
Definition scan_telemetry (user : AuthUser) (validated : Validated)
    (duration : Z) : TelemetryLog :=
  mkTelemetryLog (userId user) "scan_completed"
    (<[ "scanType" := JStr (scanType_text (v_scanType validated)) ]>
     (<[ "filesScanned" := JInt (v_filesScanned validated) ]>
      (<[ "threatsFound" := JInt (v_threatsFound validated) ]>
       {[ "duration" := JInt duration ]}))).

(** [validated.completedAt ? new Date(validated.completedAt) : new Date()] *)
Definition completedAt_of (now : Z) (validated : Validated) : Z :=
  match v_completedAt validated with
  | Some s => if truthy s then Date_parse s else now
  | None => now
  end.

(** [newId] is the id the store gives to the scan log.  [verifyAuth]
    returns the decoded payload or throws, so the [!user] test that
    follows it in the source never fires. *)
Definition POST_body (newId : string) (now : Z) (authHeader : option string)
    (body : Body) : M (Response ReportData) :=
  user <- lift (Auth.verifyAuth verify authHeader) ;;
  body <- request_json body ;;
  validated <- lift (ScanReportSchema body) ;;
  device <- device_findFirst (fun d =>
              String.eqb (dev_id d) (v_deviceId validated)
              && String.eqb (dev_userId d) (userId user)) ;;
  match device with
  | None => ret (json_error 404 "Device not found")
  | Some device =>
      let startedAt := Date_parse (v_startedAt validated) in
      let completedAt := completedAt_of now validated in
      if completedAt <? startedAt
      then ret (json_error 400
             "Invalid timestamps: startedAt must be before or equal to completedAt")
      else
        let duration := completedAt - startedAt in
        let is_completed :=
          match v_status validated with completed => true | _ => false end in
        scanLog <- transaction (
          scanLog <- scanLog_create
            (mkScanLog newId (dev_id device)
               (scanType_text (v_scanType validated))
               (status_text (v_status validated))
               (v_filesScanned validated) (v_threatsFound validated)
               startedAt
               (if is_completed then Some completedAt else None)
               (if is_completed then Some duration else None)
               (match v_threats validated with
                | Some ts =>
                    Some (JObj [("threats", JArr (List.map threat_json ts))])
                | None => None
                end)) ;;
          match v_threats validated with
          | Some (t :: ts) =>
              quarantine_createMany
                (quarantine_rows randomUUID device 0 (t :: ts))
          | _ => ret tt
          end ;;;
          telemetryLog_create (scan_telemetry user validated duration) ;;;
          ret scanLog) ;;
        ret (json_ok (mkReportData (sl_id scanLog)))
  end.

Definition POST (newId : string) (now : Z) (authHeader : option string)
    (body : Body) : World -> World * Response ReportData :=
  try_catch (POST_body newId now authHeader body) status_error.

End Handler.

End ScanReport.

(** ** app/api/payment/verify/route.ts: [verifyAppleReceipt] *)

Module PaymentVerify.

(** A JavaScript number that came out of [parseInt]. *)
Inductive Num : Type := NaN | Int (z : Z).

(** [a > b] on numbers: false as soon as one side is [NaN]. *)
Definition gt (a b : Num) : bool :=
  match a, b with
  | Int x, Int y => y <? x
  | _, _ => false
  end.

Definition digit (c : ascii) : option Z :=
  let n := Z.of_nat (nat_of_ascii c) in
  if (48 <=? n) && (n <=? 57) then Some (n - 48) else None.

(** The digits read from the front of [s], added to [acc]; nothing when [s]
    does not start with a digit. *)
Fixpoint digits (acc : option Z) (s : string) : option Z :=
  match s with
  | EmptyString => acc
  | String c s' =>
      match digit c with
      | Some d => digits (Some (default 0 acc * 10 + d)) s'
      | None => acc
      end
  end.

Definition is_space (c : ascii) : bool :=
  Ascii.eqb c " "%char || Ascii.eqb c "009"%char || Ascii.eqb c "010"%char
  || Ascii.eqb c "011"%char || Ascii.eqb c "012"%char
  || Ascii.eqb c "013"%char.

Fixpoint skip_spaces (s : string) : string :=
  match s with
  | String c s' => if is_space c then skip_spaces s' else s
  | EmptyString => EmptyString
  end.

(** [parseInt(s, 10)] *)
Definition parseInt (s : string) : Num :=
  match skip_spaces s with
  | String "-" s' =>
      match digits None s' with Some z => Int (- z) | None => NaN end
  | String "+" s' =>
      match digits None s' with Some z => Int z | None => NaN end
  | s' => match digits None s' with Some z => Int z | None => NaN end
  end.

(** An entry of [latest_receipt_info]. *)
Record ReceiptInfo : Type := mkReceiptInfo {
  expires_date_ms : option string
}.

(** The body of the vendor's answer, as far as the route reads it. *)
Record AppleData : Type := mkAppleData {
  ad_status : Z;
  original_transaction_id : option string;
  latest_receipt_info : option (list ReceiptInfo)
}.

(** [fetch] followed by [response.json()]: either of them may throw. *)
Inductive FetchOutcome : Type :=
  | FetchFailed
  | Fetched (data : AppleData).

Record VerificationResult : Type := mkVerificationResult {
  valid : bool;
  subscriptionId : string;
  expiryDate : option Num
}.

(** [x || '0'] for an optional string. *)
Definition or_zero (x : option string) : string :=
  match x with
  | Some s => if truthy s then s else "0"
  | None => "0"
  end.

(** [x || ''] *)
Definition or_empty (x : option string) : string :=
  match x with Some s => s | None => "" end.

(** [parseInt(entry.expires_date_ms || '0', 10)] *)
Definition expiry (e : ReceiptInfo) : Num :=
  parseInt (or_zero (expires_date_ms e)).

(** The callback of the [reduce]. *)
Definition later (latest current : ReceiptInfo) : ReceiptInfo :=
  let latestExpiry := parseInt (or_zero (expires_date_ms latest)) in
  let currentExpiry := parseInt (or_zero (expires_date_ms current)) in
  if gt currentExpiry latestExpiry then current else latest.

(** [array.reduce(callback)] with no initial value: it throws on an empty
    array. *)
Definition reduce {A : Type} (f : A -> A -> A) (l : list A) : Result A :=
  match l with
  | [] => Throw (Error "Reduce of empty array with no initial value")
  | x :: rest => Ok (List.fold_left f rest x)
  end.

(** [entry?.expires_date_ms ? parseInt(entry.expires_date_ms, 10) : undefined] *)
Definition expiry_of (entry : option ReceiptInfo) : option Num :=
  match entry with
  | Some e =>
      match expires_date_ms e with
      | Some s => if truthy s then Some (parseInt s) else None
      | None => None
      end
  | None => None
  end.

Definition productionUrl : string := "https://buy.itunes.apple.com/verifyReceipt".
Definition sandboxUrl : string := "https://sandbox.itunes.apple.com/verifyReceipt".

Section Verify.
(** [process.env.APPLE_SHARED_SECRET] *)
Variable sharedSecret : option string.
(** The vendor's answer to a receipt posted to a URL. *)
Variable fetch : string -> string -> FetchOutcome.

Definition fetch_json (url receiptData : string) : Result AppleData :=
  match fetch url receiptData with
  | Fetched data => Ok data
  | FetchFailed => Throw (Error "fetch failed")
  end.

(** The [try] block of [verifyAppleReceipt]. *)
Definition verify_body (receiptData : string) : Result VerificationResult :=
  if negb (truthy (or_empty sharedSecret))
  then Throw (Error "Missing Apple shared secret")
  else
    rbind (fetch_json productionUrl receiptData) (fun data =>
    if ad_status data =? 21007 then
      rbind (fetch_json sandboxUrl receiptData) (fun sandboxData =>
      rbind (match latest_receipt_info sandboxData with
             | Some entries =>
                 rbind (reduce later entries) (fun r => Ok (Some r))
             | None => Ok None
             end) (fun latestReceipt =>
      Ok (mkVerificationResult (ad_status sandboxData =? 0)
            (or_empty (original_transaction_id sandboxData))
            (expiry_of latestReceipt))))
    else
      Ok (mkVerificationResult (ad_status data =? 0)
            (or_empty (original_transaction_id data))
            (expiry_of
               (match latest_receipt_info data with
                | Some (e :: _) => Some e
                | _ => None
                end)))).

Definition verifyAppleReceipt (receiptData : string) : VerificationResult :=
  match verify_body receiptData with
  | Ok r => r
  | Throw _ => mkVerificationResult false "" None
  end.

End Verify.

End PaymentVerify.

(** ** app/api/scan/hash-check/route.ts

    In the source the block of [if (uncachedHashes.length > 0)] is not
    closed: one brace is missing between the loop over [uncachedHashes] and
    [catch].  [pipeline] is declared inside the block and used by
    [await pipeline.exec()], [threatsFound] is declared after it and used
    by the [return], so that the block ends either right after
    [await pipeline.exec()] or right before [catch].  [POST] is the route
    read the first way, [POST_late] the route read the second way; they
    differ only for a request that leaves no hash to resolve. *)

Module HashCheck.

Record Validated : Type := mkValidated {
  v_hashes : list string;
  v_deviceId : string
}.

Record CheckData : Type := mkCheckData {
  results : list ThreatResult;
  scanned : Z;
  threatsFound : Z
}.

(** Which of the three calls to Redis get through during a request. *)
Record RedisCalls : Type := mkRedisCalls {
  up_rateLimit : bool;
  up_mget : bool;
  up_exec : bool
}.

(** [z.string().length(64)] *)
Definition z_hash (j : Json) : Result string :=
  rbind (z_string (Some j)) (fun s =>
    if (String.length s =? 64)%nat then Ok s
    else Throw (ZodError "String must contain exactly 64 character(s)")).

(** [z.array(z.string().length(64)).min(1).max(100)] *)
Definition z_hashes (j : option Json) : Result (list string) :=
  match j with
  | Some (JArr items) =>
      rbind (ScanReport.z_array z_hash items) (fun l =>
        if (List.length l <? 1)%nat
        then Throw (ZodError "Array must contain at least 1 element(s)")
        else if (100 <? List.length l)%nat
        then Throw (ZodError "Array must contain at most 100 element(s)")
        else Ok l)
  | Some _ => Throw (ZodError "Expected array")
  | None => Throw (ZodError "Required")
  end.

(** [HashCheckSchema.parse(body)] *)
Definition HashCheckSchema (body : Json) : Result Validated :=
  rbind (z_object body) (fun fields =>
  rbind (z_hashes (field "hashes" fields)) (fun hashes =>
  rbind (z_string (field "deviceId" fields)) (fun deviceId =>
  Ok (mkValidated hashes deviceId)))).

Definition cacheKey (h : string) : string := "threat:" ++ h.

(** What [GET] gives for a key at time [now]: an entry is gone once it has
    expired. *)
Definition cache_get (now : Z) (cache : gmap string (Z * ThreatResult))
    (key : string) : option ThreatResult :=
  match cache !! key with
  | Some (expiresAt, r) => if now <? expiresAt then Some r else None
  | None => None
  end.

(** [await redis.mget(...cacheKeys)] *)
Definition mget (up : bool) (now : Z) (cacheKeys : list string) :
    M (list (option ThreatResult)) :=
  fun w =>
    if up then (w, Ok (List.map (cache_get now (threatCache w)) cacheKeys))
    else (w, Throw (Error "fetch failed")).

(** The [forEach] over the batch: a hash with a cached verdict contributes
    it to [results], any other hash goes to [uncachedHashes]. *)
Fixpoint split_cached (hashes : list string)
    (cachedResults : list (option ThreatResult)) :
    list ThreatResult * list string :=
  match hashes with
  | [] => ([], [])
  | h :: hs =>
      let '(rs, us) := split_cached hs (List.tl cachedResults) in
      match List.hd None cachedResults with
      | Some r => (r :: rs, us)
      | None => (rs, h :: us)
      end
  end.

(** [prisma.threatSignature.findMany({ where: { signature: { in }, type:
    'HASH', isActive: true } })] *)
Definition threatSignature_findMany (uncachedHashes : list string) :
    M (list ThreatSignature) :=
  get (fun w =>
    List.filter (fun t =>
      List.existsb (String.eqb (ts_signature t)) uncachedHashes
      && String.eqb (ts_type t) "HASH"
      && ts_isActive t) (signatures w)).

(** [new Map(threats.map((t) => [t.signature, t]))] *)
Definition threatMap (threats : list ThreatSignature) :
    gmap string ThreatSignature :=
  List.fold_left (fun m t => <[ ts_signature t := t ]> m) threats ∅.

(** The verdict for a hash that was not served from the cache. *)
Definition resolve (tm : gmap string ThreatSignature) (h : string) :
    ThreatResult :=
  match tm !! h with
  | Some threat =>
      mkThreatResult h true (ts_threatName threat) (ts_severity threat)
        (ts_category threat)
  | None => mkThreatResult h false None None None
  end.

(** [pipeline.setex(key, 3600, value)] for every verdict, sent by
    [await pipeline.exec()]. *)
Definition pipeline_exec (up : bool) (now : Z) (verdicts : list ThreatResult) :
    M unit :=
  fun w =>
    if up then
      (set_threatCache (fun c =>
         List.fold_left (fun c r =>
           <[ cacheKey (tr_hash r) := (now + 3600 * 1000, r) ]> c) verdicts c) w,
       Ok tt)
    else (w, Throw (Error "fetch failed")).

(** What the store answers for the hashes left to resolve: the verdicts
    the loop over [uncachedHashes] pushes. *)
Definition store_verdicts (w : World) (uncachedHashes : list string) :
    list ThreatResult :=
  List.map
    (resolve (threatMap
       (List.filter (fun t =>
          List.existsb (String.eqb (ts_signature t)) uncachedHashes
          && String.eqb (ts_type t) "HASH" && ts_isActive t) (signatures w))))
    uncachedHashes.

Definition status_error (e : Exn) : Response CheckData :=
  if isZodError e then json_error 400 "Invalid request data"
  else json_error 500 "Hash check failed".

Section Handler.
Variable verify : string -> option AuthUser.
(** [new Date(ms).toISOString()] *)
Variable toISOString : Z -> string.

(** The [try] around the cache lookup: the verdicts found in the cache and
    the hashes left to resolve; all of them when the lookup throws. *)
Definition lookup_cache (redis : RedisCalls) (now : Z) (hashes : list string) :
    M (list ThreatResult * list string) :=
  try_catchM
    (cachedResults <- mget (up_mget redis) now (List.map cacheKey hashes) ;;
     ret (split_cached hashes cachedResults))
    (fun _ => ret ([], hashes)).

(** The block under [if (uncachedHashes.length > 0)]. *)
Definition resolve_uncached (redis : RedisCalls) (now : Z)
    (uncachedHashes : list string) : M (list ThreatResult) :=
  match uncachedHashes with
  | [] => ret []
  | _ :: _ =>
      threats <- threatSignature_findMany uncachedHashes ;;
      let verdicts :=
        List.map (resolve (threatMap threats)) uncachedHashes in
      pipeline_exec (up_exec redis) now verdicts ;;;
      ret verdicts
  end.

Definition POST_body (redis : RedisCalls) (now : Z)
    (authHeader : option string) (body : Body) :
    M (Response CheckData) :=
  user <- lift (Auth.verifyAuth verify authHeader) ;;
  ok <- rateLimitM (up_rateLimit redis) ("hash_check:" ++ userId user)
          50 60 now ;;
  if negb ok
  then ret (json_error 429 "Too many requests")
  else
    body <- request_json body ;;
    validated <- lift (HashCheckSchema body) ;;
    device <- device_findFirst (fun d =>
                String.eqb (dev_id d) (v_deviceId validated)
                && String.eqb (dev_userId d) (userId user)) ;;
    match device with
    | None => ret (json_error 404 "Device not found")
    | Some device =>
        lookedUp <- lookup_cache redis now (v_hashes validated) ;;
        let cached := fst lookedUp in
        let uncachedHashes := snd lookedUp in
        resolved <- resolve_uncached redis now uncachedHashes ;;
        let results := (cached ++ resolved)%list in
        let threatsFound :=
          Z.of_nat (List.length (List.filter isThreat results)) in
        (if 0 <? threatsFound
         then telemetryLog_create
                (mkTelemetryLog (userId user) "threats_detected"
                   (<[ "deviceId" := JStr (dev_id device) ]>
                    (<[ "count" := JInt threatsFound ]>
                     {[ "timestamp" := JStr (toISOString now) ]})))
         else ret tt) ;;;
        ret (json_ok
               (mkCheckData results
                  (Z.of_nat (List.length (v_hashes validated)))
                  threatsFound))
    end.

Definition POST (redis : RedisCalls) (now : Z) (authHeader : option string)
    (body : Body) : World -> World * Response CheckData :=
  try_catch (POST_body redis now authHeader body) status_error.

(** The other reading of the route, with the block under
    [if (uncachedHashes.length > 0)] closed before [catch]: the telemetry
    row and the response belong to the block, and a request that leaves no
    hash to resolve falls out of the [try], so that the handler returns no
    value. *)
Definition POST_body_late (redis : RedisCalls) (now : Z)
    (authHeader : option string) (body : Body) :
    M (option (Response CheckData)) :=
  user <- lift (Auth.verifyAuth verify authHeader) ;;
  ok <- rateLimitM (up_rateLimit redis) ("hash_check:" ++ userId user)
          50 60 now ;;
  if negb ok
  then ret (Some (json_error 429 "Too many requests"))
  else
    body <- request_json body ;;
    validated <- lift (HashCheckSchema body) ;;
    device <- device_findFirst (fun d =>
                String.eqb (dev_id d) (v_deviceId validated)
                && String.eqb (dev_userId d) (userId user)) ;;
    match device with
    | None => ret (Some (json_error 404 "Device not found"))
    | Some device =>
        lookedUp <- lookup_cache redis now (v_hashes validated) ;;
        let cached := fst lookedUp in
        let uncachedHashes := snd lookedUp in
        match uncachedHashes with
        | [] => ret None
        | _ :: _ =>
            resolved <- resolve_uncached redis now uncachedHashes ;;
            let results := (cached ++ resolved)%list in
            let threatsFound :=
              Z.of_nat (List.length (List.filter isThreat results)) in
            (if 0 <? threatsFound
             then telemetryLog_create
                    (mkTelemetryLog (userId user) "threats_detected"
                       (<[ "deviceId" := JStr (dev_id device) ]>
                        (<[ "count" := JInt threatsFound ]>
                         {[ "timestamp" := JStr (toISOString now) ]})))
             else ret tt) ;;;
            ret (Some (json_ok
                         (mkCheckData results
                            (Z.of_nat (List.length (v_hashes validated)))
                            threatsFound)))
        end
    end.

Definition POST_late (redis : RedisCalls) (now : Z)
    (authHeader : option string) (body : Body) :
    World -> World * option (Response CheckData) :=
  try_catch (POST_body_late redis now authHeader body)
    (fun e => Some (status_error e)).

End Handler.

End HashCheck.

(** ** Further parts of the routes *)

(** The two error codes of the push provider for which the command route
    deactivates the token. *)
Definition token_invalid (o : DeviceCommand.SendOutcome) : bool :=
  match o with
  | DeviceCommand.Delivered _ => false
  | DeviceCommand.Rejected code =>
      String.eqb code "messaging/invalid-registration-token"
      || String.eqb code "messaging/registration-token-not-registered"
  end.

(** What the fan-out of the command route leaves of a push-token row: the
    row is deactivated when the provider reported as invalid a token of the
    batch with the same id. *)
Definition deactivated_by (send : DeviceCommand.Message -> DeviceCommand.SendOutcome)
    (command : AntiTheftCommand) (validated : DeviceCommand.Validated)
    (tokens : list PushToken) (t : PushToken) : PushToken :=
  if List.existsb (fun t' =>
       String.eqb (pt_id t') (pt_id t)
       && token_invalid (send (DeviceCommand.message_of command validated t')))
       tokens
  then deactivate t else t.

(** The tables of the store, without what Redis holds. *)
Definition tables_of (w : World) :=
  (devices w, pushTokens w, commands w, telemetry w, signatures w, scanLogs w,
   quarantines w, users w, subscriptions w).

(** The times of the requests that [rateLimit] accepted, given the times of
    the requests and their outcomes. *)
Definition accepted_times (ts : list Z) (outcomes : list bool) : list Z :=
  List.map fst (List.filter snd (List.combine ts outcomes)).

(** How many of the accepted requests fall in the window of [window] seconds
    that ends at [T]. *)
Definition accepted_within (window T : Z) (accepted : list Z) : Z :=
  Z.of_nat (List.length
    (List.filter (fun a => (T - window * 1000 <? a) && (a <=? T)) accepted)).

(** Requests arrive in the order of their times. *)
Fixpoint in_order (last : Z) (ts : list Z) : Prop :=
  match ts with
  | [] => True
  | t :: ts' => last <= t /\ in_order t ts'
  end.

(** What links the key of an identifier to the requests accepted so far, the
    last of all requests having been made at [last]: the accepted requests
    are not later than [last]; those after a time [theta] that is not before
    the start of the last window are all still in the sorted set; the key
    expires a window after the last accepted request at the earliest; and no
    member is numbered beyond the counter. *)
Definition remembers (window : Z) (st : RateLimit.KeyState) (accepted : list Z)
    (last : Z) : Prop :=
  (forall a, In a accepted -> a <= last) /\
  (forall theta, last - window * 1000 <= theta ->
     Nat.le (List.length (List.filter (fun a => theta <? a) accepted))
       (List.length (List.filter (fun e => theta <? snd e) (RateLimit.zset st)))) /\
  (forall a, In a accepted ->
     a + window * 1000 <= default last (RateLimit.expireAt st)) /\
  (forall e, In e (RateLimit.zset st) -> snd (fst e) <= RateLimit.counter st).

(** The [remaining] counts returned by the calls
    [rateLimit(identifier, limit, window)] made at the times [ts]. *)
Fixpoint requests_remaining (redis : gmap string RateLimit.KeyState)
    (identifier : string) (limit window : Z) (ts : list Z) : list Z :=
  match ts with
  | [] => []
  | t :: ts' =>
      let '(redis', r) := RateLimit.rateLimit redis identifier limit window t in
      RateLimit.remaining r
      :: requests_remaining redis' identifier limit window ts'
  end.

(** ** The rate limiter on the keys of Redis

    [RateLimit] follows the script through the two keys of one identifier.
    Redis holds them in one keyspace with those of every other identifier,
    and there [key .. ':counter'] of one identifier can be the [key] of
    another.  Here the script runs on the keyspace itself, command by
    command: a command that meets a value of the wrong kind fails, the
    script stops there, keeps what it has written so far, and
    [redis.eval] rejects. *)

Module Redis.

(** What a key holds: a sorted set, with a member [now .. ':' .. n] kept as
    the pair [(now, n)]; a string that reads as a 64-bit integer; or
    anything else, on which every command of the script fails. *)
Inductive Value : Type :=
  | SortedSet (members : list ((Z * Z) * Z))
  | Integer (n : Z)
  | Other.

(** A value and the time at which its key expires, read on the clock that
    gives [now]. *)
Record Entry : Type := mkEntry {
  value : Value;
  expireAt : option Z
}.

(** A command on the keys of Redis. *)
Definition Command (A : Type) : Type :=
  gmap string Entry -> gmap string Entry * Result A.

Definition done {A : Type} (a : A) : Command A := fun db => (db, Ok a).

(** The commands of a script one after the other; what was written before
    a failure stays. *)
Definition and_then {A B : Type} (c : Command A) (k : A -> Command B) :
    Command B :=
  fun db =>
    match c db with
    | (db', Ok a) => k a db'
    | (db', Throw e) => (db', Throw e)
    end.

Definition WRONGTYPE : Exn :=
  Error "WRONGTYPE Operation against a key holding the wrong kind of value".

(** A key whose time to live has run out is gone. *)
Definition purge (now : Z) (key : string) (db : gmap string Entry) :
    gmap string Entry :=
  match db !! key with
  | Some (mkEntry _ (Some t)) => if t <=? now then delete key db else db
  | _ => db
  end.

(** [ZREMRANGEBYSCORE key lo hi]; a sorted set left empty goes with its
    key. *)
Definition ZREMRANGEBYSCORE (now : Z) (key : string) (lo hi : Z) : Command Z :=
  fun db =>
    let db := purge now key db in
    match db !! key with
    | None => (db, Ok 0)
    | Some (mkEntry (SortedSet zs) ttl) =>
        let zs' := RateLimit.zremrangebyscore lo hi zs in
        (match zs' with
         | [] => delete key db
         | _ :: _ => <[key := mkEntry (SortedSet zs') ttl]> db
         end,
         Ok (RateLimit.zcard zs - RateLimit.zcard zs'))
    | Some _ => (db, Throw WRONGTYPE)
    end.

(** [ZCARD key] *)
Definition ZCARD (now : Z) (key : string) : Command Z :=
  fun db =>
    let db := purge now key db in
    match db !! key with
    | None => (db, Ok 0)
    | Some (mkEntry (SortedSet zs) _) => (db, Ok (RateLimit.zcard zs))
    | Some _ => (db, Throw WRONGTYPE)
    end.

(** [INCR key]: a key that is not there counts from 0. *)
Definition INCR (now : Z) (key : string) : Command Z :=
  fun db =>
    let db := purge now key db in
    match db !! key with
    | None => (<[key := mkEntry (Integer 1) None]> db, Ok 1)
    | Some (mkEntry (Integer n) ttl) =>
        if n <? 2 ^ 63 - 1
        then (<[key := mkEntry (Integer (n + 1)) ttl]> db, Ok (n + 1))
        else (db, Throw (Error "ERR increment or decrement would overflow"))
    | Some (mkEntry (SortedSet _) _) => (db, Throw WRONGTYPE)
    | Some (mkEntry Other _) =>
        (db, Throw (Error "ERR value is not an integer or out of range"))
    end.

(** [ZADD key score member]; the result is the number of members added. *)
Definition ZADD (now : Z) (key : string) (score : Z) (member : Z * Z) :
    Command Z :=
  fun db =>
    let db := purge now key db in
    match db !! key with
    | None => (<[key := mkEntry (SortedSet [(member, score)]) None]> db, Ok 1)
    | Some (mkEntry (SortedSet zs) ttl) =>
        (<[key := mkEntry (SortedSet (RateLimit.zadd score member zs)) ttl]> db,
         Ok (if List.existsb (fun e => RateLimit.member_eqb (fst e) member) zs
             then 0 else 1))
    | Some _ => (db, Throw WRONGTYPE)
    end.

(** [EXPIRE key seconds]: a time to live that is not positive deletes the
    key. *)
Definition EXPIRE (now : Z) (key : string) (seconds : Z) : Command Z :=
  fun db =>
    let db := purge now key db in
    match db !! key with
    | None => (db, Ok 0)
    | Some (mkEntry v _) =>
        (if seconds <=? 0 then delete key db
         else <[key := mkEntry v (Some (now + seconds * 1000))]> db,
         Ok 1)
    end.

(** [rateLimitScript] with KEYS[1] = [key] and ARGV = [now, window, limit];
    the argument [INCR] of [ZADD] runs before it. *)
Definition rateLimitScript (key : string) (now window limit : Z) :
    Command (Z * Z) :=
  let windowStart := now - window * 1000 in
  and_then (ZREMRANGEBYSCORE now key 0 windowStart) (fun _ =>
  and_then (ZCARD now key) (fun currentCount =>
  if limit <=? currentCount then done (0, 0)
  else
    and_then (INCR now (key ++ ":counter")) (fun n =>
    and_then (ZADD now key now (now, n)) (fun _ =>
    and_then (EXPIRE now key window) (fun _ =>
    done (1, limit - currentCount - 1)))))).

(** [rateLimit(identifier, limit, window)] at time [now = Date.now()]. *)
Definition rateLimit (db : gmap string Entry) (identifier : string)
    (limit window now : Z) :
    gmap string Entry * Result RateLimit.RateLimitResult :=
  match rateLimitScript (RateLimit.key_of identifier) now window limit db with
  | (db', Ok result) =>
      (db', Ok (RateLimit.mkRateLimitResult (fst result =? 1) (snd result)))
  | (db', Throw e) => (db', Throw e)
  end.

(** Redis after the calls [rateLimit(identifier, limit, window)] made at the
    times [ts], one after the other, whatever their outcomes. *)
Fixpoint requests (db : gmap string Entry) (identifier : string) (limit window : Z)
    (ts : list Z) : gmap string Entry :=
  match ts with
  | [] => db
  | t :: ts' =>
      requests (fst (rateLimit db identifier limit window t))
        identifier limit window ts'
  end.

(** The keys of an identifier. *)
Definition keys_of (identifier : string) (k : string) : Prop :=
  k = RateLimit.key_of identifier \/
  k = RateLimit.key_of identifier ++ ":counter".

(** Two states of Redis that hold the same under the keys [K]. *)
Definition agree (K : string -> Prop) (db1 db2 : gmap string Entry) : Prop :=
  forall k, K k -> db1 !! k = db2 !! k.

(** A command that reads and writes under the keys [K] only. *)
Definition confined {A : Type} (K : string -> Prop) (c : Command A) : Prop :=
  (forall db k, ~ K k -> fst (c db) !! k = db !! k) /\
  (forall db1 db2, agree K db1 db2 ->
     snd (c db1) = snd (c db2) /\ agree K (fst (c db1)) (fst (c db2))).

(** The keys of an identifier hold what the state [st] of [RateLimit] says:
    under [key] its sorted set and expiry, or nothing when the set is
    empty; under [key .. ':counter'] its counter without expiry, or nothing
    when it is 0. *)
Definition holds (db : gmap string Entry) (identifier : string)
    (st : RateLimit.KeyState) : Prop :=
  match db !! RateLimit.key_of identifier with
  | None => RateLimit.zset st = []
  | Some (mkEntry (SortedSet zs) ttl) =>
      zs <> [] /\ RateLimit.zset st = zs /\ RateLimit.expireAt st = ttl
  | Some _ => False
  end /\
  match db !! (RateLimit.key_of identifier ++ ":counter") with
  | None => RateLimit.counter st = 0
  | Some (mkEntry (Integer n) None) => RateLimit.counter st = n
  | Some _ => False
  end.

End Redis.

(** ** app/api/auth/email-register/route.ts

    The routes address a user by [email], a device by [deviceId] and a push
    token by [token] in [findUnique] and [upsert], which the store allows
    for unique columns only: a [create] that repeats one of them fails like
    one that repeats the primary key. *)

Module EmailRegister.

Record Validated : Type := mkValidated {
  v_email : string;
  v_password : string;
  v_name : string;
  v_deviceInfo : EmailLogin.DeviceInfo
}.

(** [z.string().min(n, msg)] *)
Definition z_string_min (n : nat) (msg : string) (j : option Json) :
    Result string :=
  rbind (z_string j) (fun s =>
    if (String.length s <? n)%nat then Throw (ZodError msg) else Ok s).

(** [tx.user.create({ data })] *)
Definition user_create (row : User) : M User :=
  fun w =>
    if List.existsb (fun u => String.eqb (u_id u) (u_id row)) (users w)
    then (w, Throw (Error "Unique constraint failed on the fields: (`id`)"))
    else if List.existsb (fun u => String.eqb (u_email u) (u_email row)) (users w)
    then (w, Throw (Error "Unique constraint failed on the fields: (`email`)"))
    else (set_users (fun us => (us ++ [row])%list) w, Ok row).

(** [tx.device.create({ data })]: [platform] is a column of the
    enumeration [Platform]. *)
Definition device_create (row : Device) : M Device :=
  fun w =>
    if negb (Platform_value (dev_platform row))
    then (w, Throw (Error "Invalid value for argument `platform`. Expected Platform."))
    else if List.existsb (fun d => String.eqb (dev_id d) (dev_id row)) (devices w)
    then (w, Throw (Error "Unique constraint failed on the fields: (`id`)"))
    else if List.existsb (fun d => String.eqb (dev_deviceId d) (dev_deviceId row))
              (devices w)
    then (w, Throw (Error "Unique constraint failed on the fields: (`deviceId`)"))
    else (set_devices (fun ds => (ds ++ [row])%list) w, Ok row).

(** [tx.subscription.create({ data })] *)
Definition subscription_create (row : Subscription) : M Subscription :=
  fun w => (set_subscriptions (fun l => (l ++ [row])%list) w, Ok row).

Definition status_error (e : Exn) : Response EmailLogin.LoginData :=
  match e with
  | ZodError issues =>
      mkResponse 400 false (Some "Invalid request data") None (Some issues)
  | Error _ => json_error 500 "Registration failed"
  end.

Section Handler.
(** The format check of zod's [z.string().email()]. *)
Variable isEmail : string -> bool.
(** [bcrypt.hash(password, SALT_ROUNDS)] *)
Variable hash : string -> string.
(** [sign({ userId, email }, JWT_SECRET, { expiresIn: '7d' })] *)
Variable sign : string -> string -> string.
(** [new Date(ms).toISOString()] *)
Variable toISOString : Z -> string.

(** [EmailRegisterSchema.parse(body)] *)
Definition EmailRegisterSchema (body : Json) : Result Validated :=
  rbind (z_object body) (fun fields =>
  rbind (EmailLogin.z_email isEmail (field "email" fields)) (fun email =>
  rbind (z_string_min 8 "Password must be at least 8 characters"
           (field "password" fields)) (fun password =>
  rbind (z_string_min 2 "Name must be at least 2 characters"
           (field "name" fields)) (fun name =>
  rbind (EmailLogin.z_deviceInfo (field "deviceInfo" fields)) (fun deviceInfo =>
  Ok (mkValidated email password name deviceInfo)))))).

(** [newUserId] is the value of [randomUUID()], [newDeviceId] the id the
    store gives to the device row. *)
Definition POST_body (newUserId newDeviceId : string) (now : Z)
    (body : Body) : M (Response EmailLogin.LoginData) :=
  body <- request_json body ;;
  validated <- lift (EmailRegisterSchema body) ;;
  existingUser <- get (fun w =>
                    List.find (fun u => String.eqb (u_email u) (v_email validated))
                      (users w)) ;;
  match existingUser with
  | Some _ => ret (json_error 409 "Email already registered")
  | None =>
      let info := v_deviceInfo validated in
      let platform :=
        DeviceRegister.platform_text (EmailLogin.di_platform info) in
      created <- transaction (
        let passwordHash := hash (v_password validated) in
        user <- user_create
                  (mkUser newUserId (v_email validated)
                     (Some (v_name validated)) (Some passwordHash) now) ;;
        device <- device_create
                    (mkDevice newDeviceId (u_id user)
                       (EmailLogin.di_deviceId info)
                       (EmailLogin.di_deviceName info) platform
                       (EmailLogin.di_osVersion info)
                       (EmailLogin.di_appVersion info) now true) ;;
        subscription <- subscription_create
                          (mkSubscription (u_id user) "free" "trial" platform
                             (Some (now + EmailLogin.week)) (Some now)
                             (Some (now + EmailLogin.week))) ;;
        ret (user, device, subscription)) ;;
      let user := fst (fst created) in
      let device := snd (fst created) in
      let subscription := snd created in
      try_catchM
        (telemetryLog_create
           (mkTelemetryLog (u_id user) "email_register"
              (<[ "deviceId" := JStr (dev_id device) ]>
               (<[ "platform" := JStr platform ]>
                {[ "timestamp" := JStr (toISOString now) ]}))))
        (fun _ => ret tt) ;;;
      ret (mkResponse 201 true None
             (Some (EmailLogin.mkLoginData (sign (u_id user) (u_email user))
                      (u_id user) (u_email user) (u_name user)
                      (dev_id device) (sub_tier subscription)
                      (sub_status subscription)
                      (sub_trialEndsAt subscription)))
             None)
  end.

Definition POST (newUserId newDeviceId : string) (now : Z)
    (body : Body) : World -> World * Response EmailLogin.LoginData :=
  try_catch (POST_body newUserId newDeviceId now body) status_error.

End Handler.

End EmailRegister.

(** ** The subscription routes

    [app/api/payment/verify/route.ts] and
    [app/api/subscription/current/route.ts] read and write columns of the
    subscription table that the other routes leave alone (the id, the
    vendor's subscription id, the receipt, the time of the last update).
    They are modelled on the table with these columns and on the
    telemetry log, the two tables they touch. *)

Module Billing.

Record SubscriptionRow : Type := mkRow {
  sr_id : string;
  sr_userId : string;
  sr_tier : string;
  sr_status : string;
  sr_platform : string;
  sr_platformSubId : option string;
  sr_receiptData : option string;
  sr_trialEndsAt : option Z;
  sr_currentPeriodStart : option Z;
  sr_currentPeriodEnd : option Z;
  sr_cancelAtPeriodEnd : bool;
  sr_updatedAt : Z
}.

Record Store : Type := mkStore {
  rows : list SubscriptionRow;
  events : list TelemetryLog
}.

(** [prisma.subscription.create]: the id is the primary key, and
    [platformSubId], when there is one, is unique. *)
Definition create (row : SubscriptionRow) (s : Store) :
    Store * Result SubscriptionRow :=
  if List.existsb (fun r => String.eqb (sr_id r) (sr_id row)) (rows s)
  then (s, Throw (Error "Unique constraint failed on the fields: (`id`)"))
  else if match sr_platformSubId row with
          | Some sid =>
              List.existsb (fun r =>
                match sr_platformSubId r with
                | Some sid' => String.eqb sid' sid
                | None => false
                end) (rows s)
          | None => false
          end
  then (s, Throw (Error
             "Unique constraint failed on the fields: (`platformSubId`)"))
  else (mkStore (rows s ++ [row]) (events s), Ok row).

(** [where: { platformSubId }] *)
Definition has_platformSubId (sid : string) (r : SubscriptionRow) : bool :=
  match sr_platformSubId r with
  | Some sid' => String.eqb sid' sid
  | None => false
  end.

(** [status: { in: ['active', 'trial'] }] for the rows of a user *)
Definition current_of (userId : string) (r : SubscriptionRow) : bool :=
  String.eqb (sr_userId r) userId
  && (String.eqb (sr_status r) "active" || String.eqb (sr_status r) "trial").

(** [orderBy: { updatedAt: 'desc' }] and the first row: a row that none
    exceeds; among rows updated at the same instant, the first of the
    table. *)
Definition newer (best : option SubscriptionRow) (r : SubscriptionRow) :
    option SubscriptionRow :=
  match best with
  | None => Some r
  | Some b => if sr_updatedAt b <? sr_updatedAt r then Some r else Some b
  end.

Definition findFirst_latest (p : SubscriptionRow -> bool)
    (l : list SubscriptionRow) : option SubscriptionRow :=
  List.fold_left newer (List.filter p l) None.

(** The unique index on [platformSubId]: no two rows carry the same one. *)
Definition platformSubId_unique (l : list SubscriptionRow) : Prop :=
  forall sid r1 r2,
    In r1 l -> In r2 l ->
    has_platformSubId sid r1 = true -> has_platformSubId sid r2 = true ->
    r1 = r2.

(** *** app/api/payment/verify/route.ts: [POST] *)

Record Validated : Type := mkValidated {
  v_platform : DeviceRegister.PlatformName;
  v_receiptData : string;
  v_productId : string
}.

Record PaymentData : Type := mkPaymentData {
  pd_id : string;
  pd_tier : string;
  pd_status : string;
  pd_currentPeriodEnd : option Z
}.

(** [PaymentVerifySchema.parse(body)] *)
Definition PaymentVerifySchema (body : Json) : Result Validated :=
  rbind (z_object body) (fun fields =>
  rbind (DeviceRegister.z_platform (field "platform" fields)) (fun platform =>
  rbind (z_string (field "receiptData" fields)) (fun receiptData =>
  rbind (z_string (field "productId" fields)) (fun productId =>
  Ok (mkValidated platform receiptData productId))))).

(** [!verificationResult.expiryDate]: an absent expiry, [NaN] and 0 are
    falsy. *)
Definition expiry_ms (e : option PaymentVerify.Num) : option Z :=
  match e with
  | Some (PaymentVerify.Int z) => if z =? 0 then None else Some z
  | _ => None
  end.

(** [new Date(ms)] is a date only within 8.64e15 ms of the epoch; the
    store refuses any other value. *)
Definition valid_date (ms : Z) : bool :=
  (- 8640000000000000 <=? ms) && (ms <=? 8640000000000000).

Definition payment_error (e : Exn) : Response PaymentData :=
  if isZodError e then json_error 400 "Invalid request data"
  else json_error 500 "Payment verification failed".

Section Payment.
Variable verify : string -> option AuthUser.
(** [process.env.APPLE_SHARED_SECRET] and the vendor's answers *)
Variable sharedSecret : option string.
Variable fetch : string -> string -> PaymentVerify.FetchOutcome.
(** The result of [verifyGoogleReceipt(receiptData)], of which the route
    reads nothing but the three fields. *)
Variable verifyGoogleReceipt : string -> PaymentVerify.VerificationResult.

(** The callback of [prisma.$transaction]. *)
Definition activate (newId : string) (now periodEnd : Z) (user : AuthUser)
    (validated : Validated) (sid : string) (s : Store) :
    Store * Result SubscriptionRow :=
  match List.find (has_platformSubId sid) (rows s) with
  | Some existing =>
      if negb (String.eqb (sr_userId existing) (userId user))
      then (s, Throw (Error "Subscription belongs to different user"))
      else if negb (valid_date periodEnd)
      then (s, Throw (Error "Invalid value for argument `currentPeriodEnd`"))
      else
        let update r :=
          mkRow (sr_id r) (sr_userId r) "premium" "active" (sr_platform r)
            (sr_platformSubId r) (Some (v_receiptData validated))
            (sr_trialEndsAt r) (Some now) (Some periodEnd)
            (sr_cancelAtPeriodEnd r) now in
        (mkStore
           (List.map (fun r => if has_platformSubId sid r then update r else r)
              (rows s))
           (events s),
         Ok (update existing))
  | None =>
      if negb (valid_date periodEnd)
      then (s, Throw (Error "Invalid value for argument `currentPeriodEnd`"))
      else
        create
          (mkRow newId (userId user) "premium" "active"
             (DeviceRegister.platform_text (v_platform validated))
             (Some sid) (Some (v_receiptData validated)) None (Some now)
             (Some periodEnd) false now) s
  end.

(** [newId] is the id the store gives to a row it creates. *)
Definition POST_body (newId : string) (now : Z) (authHeader : option string)
    (body : Body) (s : Store) : Store * Result (Response PaymentData) :=
  match Auth.verifyAuth verify authHeader with
  | Throw e => (s, Throw e)
  | Ok user =>
      match body with
      | Malformed message => (s, Throw (Error message))
      | Parsed body =>
          match PaymentVerifySchema body with
          | Throw e => (s, Throw e)
          | Ok validated =>
              let verificationResult :=
                match v_platform validated with
                | DeviceRegister.ios =>
                    PaymentVerify.verifyAppleReceipt sharedSecret fetch
                      (v_receiptData validated)
                | DeviceRegister.android =>
                    verifyGoogleReceipt (v_receiptData validated)
                end in
              if negb (PaymentVerify.valid verificationResult)
              then (s, Ok (json_error 400 "Invalid receipt"))
              else
                match expiry_ms (PaymentVerify.expiryDate verificationResult) with
                | None =>
                    (s, Throw (Error
                       "Subscription expiry date not available from receipt verification"))
                | Some periodEnd =>
                    match activate newId now periodEnd user validated
                            (PaymentVerify.subscriptionId verificationResult) s
                    with
                    | (s1, Throw e) => (s, Throw e)
                    | (s1, Ok subscription) =>
                        if negb (String.eqb (sr_userId subscription)
                                   (userId user))
                        then (s1, Throw (Error "Subscription ownership mismatch"))
                        else
                          (mkStore (rows s1)
                             (events s1 ++
                              [mkTelemetryLog (userId user)
                                 "subscription_activated"
                                 (<[ "tier" := JStr "premium" ]>
                                  (<[ "platform" :=
                                        JStr (DeviceRegister.platform_text
                                                (v_platform validated)) ]>
                                   {[ "productId" :=
                                        JStr (v_productId validated) ]}))]),
                           Ok (json_ok
                                 (mkPaymentData (sr_id subscription)
                                    (sr_tier subscription)
                                    (sr_status subscription)
                                    (sr_currentPeriodEnd subscription))))
                    end
                end
          end
      end
  end.

Definition POST (newId : string) (now : Z) (authHeader : option string)
    (body : Body) (s : Store) : Store * Response PaymentData :=
  match POST_body newId now authHeader body s with
  | (s', Ok r) => (s', r)
  | (s', Throw e) => (s', payment_error e)
  end.

End Payment.

(** *** app/api/subscription/current/route.ts: [GET] *)

Record SubscriptionView : Type := mkView {
  sv_id : string;
  sv_tier : string;
  sv_status : string;
  sv_platform : string;
  sv_trialEndsAt : option Z;
  sv_currentPeriodStart : option Z;
  sv_currentPeriodEnd : option Z;
  (** absent from the first two responses *)
  sv_cancelAtPeriodEnd : option bool;
  sv_isPremium : bool;
  sv_isTrialActive : bool;
  (** absent from the first two responses, [null] outside a trial *)
  sv_trialDaysRemaining : option (option Z)
}.

Definition day : Z := 1000 * 60 * 60 * 24.

(** [status === 'trial' && trialEndsAt ? new Date(trialEndsAt) > new Date()
    : false] *)
Definition isTrialActive (now : Z) (status : string) (trialEndsAt : option Z) :
    bool :=
  match trialEndsAt with
  | Some trialEnd => if String.eqb status "trial" then now <? trialEnd else false
  | None => false
  end.

(** [Math.ceil(ms / (1000 * 60 * 60 * 24))] for a whole number of
    milliseconds *)
Definition ceil_days (ms : Z) : Z := - ((- ms) / day).

Definition current_error (e : Exn) : Response SubscriptionView :=
  if includes (message e) "Invalid or expired token"
  then json_error 401 "Unauthorized"
  else json_error 500 "Failed to fetch subscription".

Section Current.
Variable verify : string -> option AuthUser.

(** [newId] is the id the store gives to a row it creates.  A request reads
    the clock up to three times: [now], [later] and [last] are its readings
    in the order in which they are taken.  Without a subscription these are
    [new Date()] and [Date.now()] of the row to create and the time the
    store stamps it with; with a trial, the reading that decides whether it
    is running, and then either the time the store stamps the expired row
    with or the reading that the days remaining are counted from. *)
Definition GET_body (newId : string) (now later last : Z)
    (authHeader : option string)
    (s : Store) : Store * Result (Response SubscriptionView) :=
  match Auth.verifyAuth verify authHeader with
  | Throw e => (s, Throw e)
  | Ok user =>
      match findFirst_latest (current_of (userId user)) (rows s) with
      | None =>
          match create
                  (mkRow newId (userId user) "free" "active" "android" None
                     None None (Some now)
                     (Some (later + 365 * 24 * 60 * 60 * 1000))
                     false last) s with
          | (s1, Throw e) => (s1, Throw e)
          | (s1, Ok newSubscription) =>
              (s1,
               Ok (json_ok
                     (mkView (sr_id newSubscription) (sr_tier newSubscription)
                        (sr_status newSubscription)
                        (sr_platform newSubscription)
                        (sr_trialEndsAt newSubscription)
                        (sr_currentPeriodStart newSubscription)
                        (sr_currentPeriodEnd newSubscription) None
                        (String.eqb (sr_tier newSubscription) "premium")
                        (isTrialActive now (sr_status newSubscription)
                           (sr_trialEndsAt newSubscription))
                        None)))
          end
      | Some subscription =>
          let active :=
            isTrialActive now (sr_status subscription)
              (sr_trialEndsAt subscription) in
          if String.eqb (sr_status subscription) "trial" && negb active
          then
            (mkStore
               (List.map (fun r =>
                  if String.eqb (sr_id r) (sr_id subscription)
                  then mkRow (sr_id r) (sr_userId r) "free" "expired"
                         (sr_platform r) (sr_platformSubId r)
                         (sr_receiptData r) (sr_trialEndsAt r)
                         (sr_currentPeriodStart r) (sr_currentPeriodEnd r)
                         (sr_cancelAtPeriodEnd r) later
                  else r) (rows s))
               (events s),
             Ok (json_ok
                   (mkView (sr_id subscription) "free" "expired"
                      (sr_platform subscription) (sr_trialEndsAt subscription)
                      (sr_currentPeriodStart subscription)
                      (sr_currentPeriodEnd subscription) None false false
                      None)))
          else
            let trialDaysRemaining :=
              match sr_trialEndsAt subscription with
              | Some trialEnd =>
                  if String.eqb (sr_status subscription) "trial"
                  then Some (ceil_days (trialEnd - later))
                  else None
              | None => None
              end in
            (s,
             Ok (json_ok
                   (mkView (sr_id subscription) (sr_tier subscription)
                      (sr_status subscription) (sr_platform subscription)
                      (sr_trialEndsAt subscription)
                      (sr_currentPeriodStart subscription)
                      (sr_currentPeriodEnd subscription)
                      (Some (sr_cancelAtPeriodEnd subscription))
                      (String.eqb (sr_tier subscription) "premium"
                       && String.eqb (sr_status subscription) "active")
                      active (Some trialDaysRemaining))))
      end
  end.

Definition GET (newId : string) (now later last : Z)
    (authHeader : option string)
    (s : Store) : Store * Response SubscriptionView :=
  match GET_body newId now later last authHeader s with
  | (s', Ok r) => (s', r)
  | (s', Throw e) => (s', current_error e)
  end.

End Current.

End Billing.

(** ** app/api/admin/threats/upload/route.ts

    The route writes the signature table that the hash check reads, and
    the audit log, a table of its own.  Of a signature row the columns
    that the hash check reads are kept. *)

Module ThreatUpload.

Inductive ThreatTypeName : Type := hash | package | url | behavior.
Inductive CategoryName : Type := malware | spyware | adware | trojan | phishing.

(** [threat.type.toUpperCase()] *)
Definition type_upper (t : ThreatTypeName) : string :=
  match t with
  | hash => "HASH" | package => "PACKAGE" | url => "URL"
  | behavior => "BEHAVIOR"
  end.

(** [threat.category.toUpperCase()] *)
Definition category_upper (c : CategoryName) : string :=
  match c with
  | malware => "MALWARE" | spyware => "SPYWARE" | adware => "ADWARE"
  | trojan => "TROJAN" | phishing => "PHISHING"
  end.

Record Threat : Type := mkThreat {
  t_type : ThreatTypeName;
  t_signature : string;
  t_threatName : string;
  t_severity : ScanReport.Severity;
  t_category : CategoryName;
  t_description : option string;
  t_metadata : option Json
}.

Record Validated : Type := mkValidated {
  v_threats : list Threat;
  v_version : Z
}.

Record UploadData : Type := mkUploadData {
  uploaded : Z;
  failed : Z;
  version : Z;
  ud_checksum : string
}.

Record AdminAuditLog : Type := mkAuditLog {
  al_adminId : string;
  al_action : string;
  al_metadata : gmap string Json;
  al_ipAddress : string
}.

Definition z_type (j : option Json) : Result ThreatTypeName :=
  match j with
  | Some (JStr s) =>
      if String.eqb s "hash" then Ok hash
      else if String.eqb s "package" then Ok package
      else if String.eqb s "url" then Ok url
      else if String.eqb s "behavior" then Ok behavior
      else Throw (ZodError "Invalid enum value")
  | Some _ => Throw (ZodError "Invalid enum value")
  | None => Throw (ZodError "Required")
  end.

Definition z_category (j : option Json) : Result CategoryName :=
  match j with
  | Some (JStr s) =>
      if String.eqb s "malware" then Ok malware
      else if String.eqb s "spyware" then Ok spyware
      else if String.eqb s "adware" then Ok adware
      else if String.eqb s "trojan" then Ok trojan
      else if String.eqb s "phishing" then Ok phishing
      else Throw (ZodError "Invalid enum value")
  | Some _ => Throw (ZodError "Invalid enum value")
  | None => Throw (ZodError "Required")
  end.

(** [z.record(z.string(), z.unknown()).optional()] *)
Definition z_record_optional (j : option Json) : Result (option Json) :=
  match j with
  | None => Ok None
  | Some (JObj fields) => Ok (Some (JObj fields))
  | Some _ => Throw (ZodError "Expected object")
  end.

(** [z.number().int().positive()] *)
Definition z_int_positive (j : option Json) : Result Z :=
  rbind (z_number j) (fun q =>
    if negb (Z.rem (Qnum q) (Zpos (Qden q)) =? 0)
    then Throw (ZodError "Expected integer, received float")
    else
      let n := Z.quot (Qnum q) (Zpos (Qden q)) in
      if 0 <? n then Ok n
      else Throw (ZodError "Number must be greater than 0")).

Definition z_threat (j : Json) : Result Threat :=
  rbind (z_object j) (fun fields =>
  rbind (z_type (field "type" fields)) (fun type =>
  rbind (DeviceRegister.z_string_min1 (field "signature" fields)) (fun signature =>
  rbind (DeviceRegister.z_string_min1 (field "threatName" fields)) (fun threatName =>
  rbind (ScanReport.z_severity (field "severity" fields)) (fun severity =>
  rbind (z_category (field "category" fields)) (fun category =>
  rbind (z_string_optional (field "description" fields)) (fun description =>
  rbind (z_record_optional (field "metadata" fields)) (fun metadata =>
  Ok (mkThreat type signature threatName severity category description
        metadata))))))))).

(** [z.array(...).min(1).max(1000)] *)
Definition z_threats (j : option Json) : Result (list Threat) :=
  match j with
  | Some (JArr items) =>
      rbind (ScanReport.z_array z_threat items) (fun l =>
        if (List.length l <? 1)%nat
        then Throw (ZodError "Array must contain at least 1 element(s)")
        else if (1000 <? List.length l)%nat
        then Throw (ZodError "Array must contain at most 1000 element(s)")
        else Ok l)
  | Some _ => Throw (ZodError "Expected array")
  | None => Throw (ZodError "Required")
  end.

(** [ThreatUploadSchema.parse(body)] *)
Definition ThreatUploadSchema (body : Json) : Result Validated :=
  rbind (z_object body) (fun fields =>
  rbind (z_threats (field "threats" fields)) (fun threats =>
  rbind (z_int_positive (field "version" fields)) (fun version =>
  Ok (mkValidated threats version)))).

(** [mapToThreatSeverity]: after the schema the severity is one of the
    four, and the function returns it in upper case. *)
Definition mapToThreatSeverity (severity : ScanReport.Severity) : string :=
  ScanReport.severity_upper severity.

(** [s.split(',')] *)
Fixpoint split_commas (s : string) : list string :=
  match s with
  | EmptyString => [EmptyString]
  | String c s' =>
      if Ascii.eqb c ","%char then EmptyString :: split_commas s'
      else
        match split_commas s' with
        | piece :: pieces => String c piece :: pieces
        | [] => [String c EmptyString]
        end
  end.

(** [toLowerCase()] on the letters A to Z. *)
Definition lower_char (c : ascii) : ascii :=
  let n := nat_of_ascii c in
  if (65 <=? n)%nat && (n <=? 90)%nat then ascii_of_nat (n + 32) else c.

Fixpoint toLowerCase (s : string) : string :=
  match s with
  | EmptyString => EmptyString
  | String c s' => String (lower_char c) (toLowerCase s')
  end.

(** [tx.threatSignature.upsert({ where: { signature }, update, create })] *)
Definition threatSignature_upsert (threat : Threat) : M unit :=
  fun w =>
    let row (t : ThreatSignature) :=
      mkThreatSignature (type_upper (t_type threat)) (ts_signature t)
        (Some (t_threatName threat))
        (Some (mapToThreatSeverity (t_severity threat)))
        (Some (category_upper (t_category threat))) true in
    if List.existsb (fun t => String.eqb (ts_signature t) (t_signature threat))
         (signatures w)
    then (set_signatures
            (List.map (fun t =>
               if String.eqb (ts_signature t) (t_signature threat)
               then row t else t)) w,
          Ok tt)
    else (set_signatures (fun l =>
            (l ++ [mkThreatSignature (type_upper (t_type threat))
                     (t_signature threat) (Some (t_threatName threat))
                     (Some (mapToThreatSeverity (t_severity threat)))
                     (Some (category_upper (t_category threat))) true])%list) w,
          Ok tt).

(** [Promise.allSettled(threats.map(upsert))]: every upsert runs, and what
    it returned or threw is kept. *)
Fixpoint allSettled (threats : list Threat) (w : World) :
    World * list (Result unit) :=
  match threats with
  | [] => (w, [])
  | t :: rest =>
      let '(w1, r) := threatSignature_upsert t w in
      let '(w2, rs) := allSettled rest w1 in
      (w2, r :: rs)
  end.

Definition fulfilled (r : Result unit) : bool :=
  match r with Ok _ => true | Throw _ => false end.

Definition upload_error (e : Exn) : Response UploadData :=
  if isZodError e
  then json_error 400
         "Invalid request data. Please check the input and try again."
  else json_error 500 "Threat upload failed".

Section Handler.
Variable verify : string -> option AuthUser.
(** [process.env.ADMIN_EMAILS] *)
Variable ADMIN_EMAILS : option string.
(** The [role] column of a user row. *)
Variable role : User -> string.
(** The SHA-256 digest of [JSON.stringify(validated.threats)], in hex. *)
Variable checksum : list Threat -> string.

Definition envAdmins : list string :=
  List.filter (fun e => (0 <? String.length e)%nat)
    (List.map (fun e => toLowerCase (EmailLogin.trim e))
       (split_commas (match ADMIN_EMAILS with
                      | Some s => if truthy s then s else ""
                      | None => ""
                      end))).

Definition checkAdminStatus (w : World) (userId : string) : bool :=
  match List.find (fun u => String.eqb (u_id u) userId) (users w) with
  | None => false
  | Some user =>
      if String.eqb (role user) "admin" then true
      else List.existsb (String.eqb (toLowerCase (u_email user))) envAdmins
  end.

(** [request.headers.get('x-forwarded-for')?.split(',')[0].trim() ||
    request.headers.get('x-real-ip') || 'unknown'] *)
Definition ipAddress (h : EmailLogin.Headers) : string :=
  let forwarded :=
    match EmailLogin.x_forwarded_for h with
    | Some s => EmailLogin.trim (EmailLogin.before_comma s)
    | None => ""
    end in
  if truthy forwarded then forwarded
  else EmailLogin.or_else (EmailLogin.x_real_ip h) "unknown".

Definition POST (headers : EmailLogin.Headers) (authHeader : option string)
    (body : Body) (w : World) (audit : list AdminAuditLog) :
    World * list AdminAuditLog * Response UploadData :=
  match Auth.verifyAuth verify authHeader with
  | Throw e => (w, audit, upload_error e)
  | Ok user =>
      if negb (checkAdminStatus w (userId user))
      then (w, audit, json_error 403 "Unauthorized")
      else
        match body with
        | Malformed message => (w, audit, upload_error (Error message))
        | Parsed body =>
            match ThreatUploadSchema body with
            | Throw e => (w, audit, upload_error e)
            | Ok validated =>
                let '(w1, upsertResults) := allSettled (v_threats validated) w in
                let successful :=
                  Z.of_nat (List.length (List.filter fulfilled upsertResults)) in
                let failed :=
                  Z.of_nat (List.length
                    (List.filter (fun r => negb (fulfilled r)) upsertResults)) in
                (w1,
                 (audit ++
                  [mkAuditLog (userId user) "THREAT_UPLOAD"
                     (<[ "version" := JInt (v_version validated) ]>
                      (<[ "checksum" := JStr (checksum (v_threats validated)) ]>
                       (<[ "totalThreats" :=
                             JInt (Z.of_nat (List.length (v_threats validated))) ]>
                        (<[ "successful" := JInt successful ]>
                         {[ "failed" := JInt failed ]}))))
                     (ipAddress headers)])%list,
                 json_ok (mkUploadData successful failed (v_version validated)
                            (checksum (v_threats validated))))
            end
        end
  end.

End Handler.

End ThreatUpload.

(** ** Concrete requests and states, on which the properties are exercised *)

Module Examples.

Definition alice : AuthUser := mkAuthUser "user-a" "alice@example.com".
Definition bob : AuthUser := mkAuthUser "user-b" "bob@example.com".

(** A token verifier that knows two tokens. *)
Definition verify (token : string) : option AuthUser :=
  if String.eqb token "token-a" then Some alice
  else if String.eqb token "token-b" then Some bob
  else None.

Definition empty_world : World :=
  mkWorld [] [] [] [] [] [] [] [] [] ∅ ∅.

Definition phone : Device :=
  mkDevice "dev-1" "user-a" "hw-1" "Pixel" "ANDROID" "14" "1.0.0" 0 true.

Definition fcm_token : PushToken := mkPushToken "pt-1" "dev-1" "fcm-1" "fcm" true.
Definition stale_token : PushToken := mkPushToken "pt-2" "dev-1" "fcm-2" "fcm" true.

(** Alice's phone with two active push tokens. *)
Definition world1 : World :=
  set_pushTokens (fun _ => [fcm_token; stale_token])
    (set_devices (fun _ => [phone]) empty_world).

(** The push provider delivers to [fcm-1] and reports every other token as
    not registered. *)
Definition send1 (m : DeviceCommand.Message) : DeviceCommand.SendOutcome :=
  if String.eqb (DeviceCommand.msg_token m) "fcm-1"
  then DeviceCommand.Delivered "projects/app/messages/1"
  else DeviceCommand.Rejected "messaging/registration-token-not-registered".

(** The push provider reports every token as not registered. *)
Definition send_none (m : DeviceCommand.Message) : DeviceCommand.SendOutcome :=
  DeviceCommand.Rejected "messaging/registration-token-not-registered".

Definition locate_body : Json :=
  JObj [("deviceId", JStr "dev-1"); ("commandType", JStr "locate")].

(** A LOCATE command for Alice's phone that is still PENDING. *)
Definition pending_locate : AntiTheftCommand :=
  mkCommand "cmd-1" "dev-1" LOCATE PENDING "user-a" None ∅.

Definition world_pending : World :=
  set_commands (fun _ => [pending_locate]) world1.

Definition fix_body : Json :=
  JObj [("deviceId", JStr "dev-1"); ("commandId", JStr "cmd-1");
        ("latitude", JNum (inject_Z 48)); ("longitude", JNum (inject_Z 2));
        ("accuracy", JNum (inject_Z 5));
        ("timestamp", JStr "2026-01-01T00:00:00Z")].

Definition any_datetime (s : string) : bool := true.

(** Bob registers a device of his own under a push token of Alice's phone. *)
Definition bob_register_body : Json :=
  JObj [("deviceId", JStr "hw-2"); ("deviceName", JStr "iPhone");
        ("platform", JStr "ios"); ("osVersion", JStr "18");
        ("appVersion", JStr "1.0.0"); ("pushToken", JStr "fcm-1")].

Definition login_body : Json :=
  JObj [("email", JStr "carol@example.com"); ("password", JStr "hunter2");
        ("deviceInfo",
         JObj [("deviceId", JStr "hw-9"); ("deviceName", JStr "Pixel");
               ("platform", JStr "android"); ("osVersion", JStr "14");
               ("appVersion", JStr "1.0.0")])].

Definition no_headers : EmailLogin.Headers :=
  EmailLogin.mkHeaders None None None.

Definition let_through (identifier : string) : bool := true.
Definition any_email (s : string) : bool := true.
Definition never_matches (password hash : string) : bool := false.
Definition sign0 (userId email : string) : string := "jwt:" ++ userId.
Definition iso0 (ms : Z) : string := "1970-01-01T00:00:00.000Z".

(** A scan of Alice's phone that found two threats. *)
Definition scan_body : Json :=
  JObj [("deviceId", JStr "dev-1"); ("scanType", JStr "quick");
        ("status", JStr "completed");
        ("filesScanned", JNum (inject_Z 10));
        ("threatsFound", JNum (inject_Z 2));
        ("startedAt", JStr "2026-01-01T00:00:00Z");
        ("completedAt", JStr "2026-01-01T00:00:03Z");
        ("threats",
         JArr [JObj [("fileName", JStr "a.apk"); ("filePath", JStr "/sd/a.apk");
                     ("fileHash", JStr "h1"); ("threatName", JStr "Trojan.A");
                     ("severity", JStr "high")];
               JObj [("fileName", JStr "b.apk"); ("filePath", JStr "/sd/b.apk");
                     ("fileHash", JStr "h2"); ("threatName", JStr "Adware.B");
                     ("severity", JStr "low")]])].

Definition scan_validated : ScanReport.Validated :=
  ScanReport.mkValidated "dev-1" ScanReport.quick ScanReport.completed 10 2
    "2026-01-01T00:00:00Z" (Some "2026-01-01T00:00:03Z")
    (Some [ScanReport.mkThreat "a.apk" "/sd/a.apk" "h1" "Trojan.A"
             ScanReport.high;
           ScanReport.mkThreat "b.apk" "/sd/b.apk" "h2" "Adware.B"
             ScanReport.low]).

Definition date0 (s : string) : Z :=
  if String.eqb s "2026-01-01T00:00:00Z" then 1000 else 4000.

Definition uuid0 (n : nat) : string :=
  match n with O => "uuid-0" | _ => "uuid-1" end.

(** Two renewals of one subscription, the older one listed first. *)
Definition renewals : list PaymentVerify.ReceiptInfo :=
  [PaymentVerify.mkReceiptInfo (Some "1000");
   PaymentVerify.mkReceiptInfo (Some "2000")].

(** The production endpoint accepts the receipt. *)
Definition fetch_production (url receiptData : string) :
    PaymentVerify.FetchOutcome :=
  PaymentVerify.Fetched (PaymentVerify.mkAppleData 0 (Some "tx-1") (Some renewals)).

(** The production endpoint redirects to the sandbox (21007), which accepts
    the receipt. *)
Definition fetch_sandbox (url receiptData : string) :
    PaymentVerify.FetchOutcome :=
  if String.eqb url PaymentVerify.sandboxUrl
  then PaymentVerify.Fetched
         (PaymentVerify.mkAppleData 0 (Some "tx-1") (Some renewals))
  else PaymentVerify.Fetched (PaymentVerify.mkAppleData 21007 None None).

Definition hashA : string :=
  "aaaaaaaaaaaaaaaaaaaaaaaaaaaaaaaaaaaaaaaaaaaaaaaaaaaaaaaaaaaaaaaa".
Definition hashB : string :=
  "bbbbbbbbbbbbbbbbbbbbbbbbbbbbbbbbbbbbbbbbbbbbbbbbbbbbbbbbbbbbbbbb".

Definition hash_body : Json :=
  JObj [("hashes", JArr [JStr hashA]); ("deviceId", JStr "dev-1")].

(** A batch of two hashes. *)
Definition two_hash_body : Json :=
  JObj [("hashes", JArr [JStr hashA; JStr hashB]); ("deviceId", JStr "dev-1")].

Definition all_up : HashCheck.RedisCalls := HashCheck.mkRedisCalls true true true.
Definition lookup_down : HashCheck.RedisCalls :=
  HashCheck.mkRedisCalls true false false.
Definition all_down : HashCheck.RedisCalls :=
  HashCheck.mkRedisCalls false false false.

Definition trojan : ThreatSignature :=
  mkThreatSignature "HASH" hashA (Some "Trojan.Android.Generic")
    (Some "CRITICAL") (Some "TROJAN") true.

(** Alice's phone checks [hashA] at time 1000, when no signature is known;
    then the signature of [hashA] is uploaded. *)
Definition world_after_first_check : World :=
  fst (HashCheck.POST verify iso0 all_up 1000 (Some "Bearer token-a")
         (Some hash_body) world1).

Definition world_after_upload : World :=
  set_signatures (fun _ => [trojan]) world_after_first_check.

(** The signature of [hashA] is in the store from the start. *)
Definition world_with_trojan : World :=
  set_signatures (fun _ => [trojan]) world1.

End Examples.

Module MoreExamples.

(** Carol has an account and no device; she logs in from Alice's phone. *)
Definition carol : User :=
  mkUser "user-c" "carol@example.com" (Some "Carol") (Some "hash:hunter2") 0.

Definition world_carol : World :=
  set_users (fun _ => [carol]) Examples.world1.

Definition compare0 (password hash : string) : bool :=
  String.eqb hash ("hash:" ++ password).

Definition carol_login : EmailLogin.Validated :=
  EmailLogin.mkValidated "carol@example.com" "hunter2"
    (EmailLogin.mkDeviceInfo "hw-1" "Pixel" DeviceRegister.android "14"
       "1.0.0").

Definition carol_login_body : Json :=
  JObj [("email", JStr "carol@example.com"); ("password", JStr "hunter2");
        ("deviceInfo",
         JObj [("deviceId", JStr "hw-1"); ("deviceName", JStr "Pixel");
               ("platform", JStr "android"); ("osVersion", JStr "14");
               ("appVersion", JStr "1.0.0")])].

Definition any_url (s : string) : bool := true.
Definition template0 (j : option Json) : string :=
  match j with Some (JStr s) => s | _ => "undefined" end.

(** The Safe Browsing service cannot be reached. *)
Definition vendor_down (url : string) : UrlClassify.FetchOutcome :=
  UrlClassify.FetchFailed.

(** The Safe Browsing service knows one bad URL. *)
Definition vendor_up (url : string) : UrlClassify.FetchOutcome :=
  if String.eqb url "http://bad.example/"
  then UrlClassify.Fetched true 200
         (Some (JObj [("matches",
                       JArr [JObj [("threatType", JStr "MALWARE")]])]))
  else UrlClassify.Fetched true 200 (Some (JObj [])).

Definition bad_url_body : Json := JObj [("url", JStr "http://bad.example/")].

(** Dave opens an account from a phone of his own. *)
Definition hash0 (password : string) : string := "hash:" ++ password.

Definition dave_info : EmailLogin.DeviceInfo :=
  EmailLogin.mkDeviceInfo "hw-7" "Galaxy" DeviceRegister.android "14" "1.0.0".

Definition dave_register_body : Json :=
  JObj [("email", JStr "dave@example.com"); ("password", JStr "correct horse");
        ("name", JStr "Dave");
        ("deviceInfo",
         JObj [("deviceId", JStr "hw-7"); ("deviceName", JStr "Galaxy");
               ("platform", JStr "android"); ("osVersion", JStr "14");
               ("appVersion", JStr "1.0.0")])].

Definition dave_register : EmailRegister.Validated :=
  EmailRegister.mkValidated "dave@example.com" "correct horse" "Dave" dave_info.

(** Erin opens an account from Alice's phone. *)
Definition erin_register_body : Json :=
  JObj [("email", JStr "erin@example.com"); ("password", JStr "correct horse");
        ("name", JStr "Erin");
        ("deviceInfo",
         JObj [("deviceId", JStr "hw-1"); ("deviceName", JStr "Pixel");
               ("platform", JStr "android"); ("osVersion", JStr "14");
               ("appVersion", JStr "1.0.0")])].

(** Alice holds a premium subscription bought on Android; Bob is in a
    trial that ends at time 5000. *)
Definition alice_premium : Billing.SubscriptionRow :=
  Billing.mkRow "sub-1" "user-a" "premium" "active" "android" (Some "gp-1")
    (Some "receipt-1") None (Some 0) (Some 9000) false 0.

Definition bob_trial : Billing.SubscriptionRow :=
  Billing.mkRow "sub-2" "user-b" "free" "trial" "ios" None None (Some 5000)
    (Some 0) (Some 5000) false 0.

Definition billing1 : Billing.Store :=
  Billing.mkStore [alice_premium; bob_trial] [].

(** Google Play confirms any receipt as the subscription [gp-1], paid
    until time 20000. *)
Definition google_ok (receiptData : string) : PaymentVerify.VerificationResult :=
  PaymentVerify.mkVerificationResult true "gp-1" (Some (PaymentVerify.Int 20000)).

Definition no_fetch (url receiptData : string) : PaymentVerify.FetchOutcome :=
  PaymentVerify.FetchFailed.

Definition android_payment_body : Json :=
  JObj [("platform", JStr "android"); ("receiptData", JStr "receipt-2");
        ("productId", JStr "premium_monthly")].

(** Alice is an administrator by the environment; nobody has the role in
    the store. *)
Definition alice_account : User :=
  mkUser "user-a" "alice@example.com" (Some "Alice") None 0.

Definition world_admin : World :=
  set_users (fun _ => [alice_account]) Examples.world1.

Definition role0 (u : User) : string := "USER".
Definition checksum0 (threats : list ThreatUpload.Threat) : string := "c0ffee".

Definition upload_body : Json :=
  JObj [("threats",
         JArr [JObj [("type", JStr "hash"); ("signature", JStr Examples.hashA);
                     ("threatName", JStr "Trojan.Android.Generic");
                     ("severity", JStr "critical");
                     ("category", JStr "trojan")]]);
        ("version", JNum (inject_Z 2))].


(** A conversion to a number that finds no number greater than 0: what
    JavaScript makes of the empty string or of [[]]. *)
Definition no_number (x : Json) : bool := false.

(** A scan of Alice's phone that found nothing. *)
Definition clean_scan_body : Json :=
  JObj [("deviceId", JStr "dev-1"); ("scanType", JStr "quick");
        ("status", JStr "completed");
        ("filesScanned", JNum (inject_Z 10));
        ("threatsFound", JNum (inject_Z 0));
        ("startedAt", JStr "2026-01-01T00:00:00Z");
        ("completedAt", JStr "2026-01-01T00:00:03Z")].

End MoreExamples.

(** * Properties *)

(** ** Rate limiting *)

Section RateLimitFacts.
Import RateLimit.

Variables limit window : Z.

Lemma live_fresh T B : live window T B fresh.
Proof. repeat split; simpl; intros; try contradiction; discriminate. Qed.

Lemma expire_live T B st t : live window T B st -> t <= T -> expire t st = st.
Proof.
  intros (_ & Hx & _) Ht. unfold expire.
  destruct (expireAt st) as [x|] eqn:E; [|reflexivity].
  destruct (Hx x eq_refl) as [H1 _].
  destruct (Z.leb_spec x t); [lia | reflexivity].
Qed.

Lemma zrem_live T B st t :
  live window T B st -> t <= T ->
  zremrangebyscore 0 (t - window * 1000) (zset st) = zset st.
Proof.
  intros (Hz & _) Ht. unfold zremrangebyscore.
  apply forallb_filter_id, forallb_forall. intros e He.
  destruct (Hz e He) as [H1 _].
  destruct (Z.leb_spec (snd e) (t - window * 1000)); [lia|].
  now rewrite andb_false_r.
Qed.

Lemma zadd_new score m zs :
  (forall e, In e zs -> snd (fst e) < snd m) ->
  zadd score m zs = (zs ++ [(m, score)])%list.
Proof.
  intros H. unfold zadd.
  replace (existsb (fun e => member_eqb (fst e) m) zs) with false; [reflexivity|].
  symmetry. apply not_true_is_false. intros Hex.
  apply existsb_exists in Hex. destruct Hex as (e & He & Heq).
  unfold member_eqb in Heq. apply andb_true_iff in Heq. destruct Heq as [_ H2].
  apply Z.eqb_eq in H2. specialize (H e He). lia.
Qed.

(** A request that finds fewer than [limit] live entries is accepted and
    recorded. *)
Lemma script_accept T B st t :
  live window T B st -> T - window * 1000 < t <= T -> t + window * 1000 <= B ->
  zcard (zset st) < limit ->
  rateLimitScript st t window limit =
    (mkKeyState (zset st ++ [((t, counter st + 1), t)])%list
       (Some (t + window * 1000)) (counter st + 1),
     (1, limit - zcard (zset st) - 1)).
Proof.
  intros Hl Ht HB Hc. unfold rateLimitScript.
  rewrite (expire_live T B) by (tauto || lia).
  rewrite (zrem_live T B) by (tauto || lia).
  destruct (Z.leb_spec limit (zcard (zset st))); [lia|].
  rewrite zadd_new; [reflexivity|].
  intros e He. destruct Hl as (Hz & _). destruct (Hz e He). simpl. lia.
Qed.

Lemma script_accept_live T B st t :
  live window T B st -> T - window * 1000 < t <= T -> t + window * 1000 <= B ->
  live window T B (mkKeyState (zset st ++ [((t, counter st + 1), t)])%list
              (Some (t + window * 1000)) (counter st + 1)).
Proof.
  intros (Hz & Hx & Hn) Ht HB. repeat split; simpl in *.
  - apply in_app_or in H. destruct H as [H|[<-|[]]]; simpl; [|lia].
    apply (Hz e H).
  - apply in_app_or in H. destruct H as [H|[<-|[]]]; simpl; [|lia].
    destruct (Hz e H). lia.
  - injection H as <-. lia.
  - injection H as <-. lia.
  - discriminate.
Qed.





Lemma requests_cons (redis : gmap string KeyState) identifier t ts :
  requests redis identifier limit window (t :: ts) =
    (fst (requests (fst (rateLimit redis identifier limit window t))
            identifier limit window ts),
     rl_success (snd (rateLimit redis identifier limit window t))
     :: snd (requests (fst (rateLimit redis identifier limit window t))
               identifier limit window ts)).
Proof.
  cbn [requests].
  destruct (rateLimit redis identifier limit window t) as [redis' r].
  cbn [fst snd].
  now destruct (requests redis' identifier limit window ts).
Qed.


End RateLimitFacts.




(** ** Anti-theft command dispatch *)

Section DeviceCommandFacts.
Import DeviceCommand.

Variable verify : string -> option AuthUser.
Variable send : Message -> SendOutcome.

Lemma pushToken_update_commands id f w :
  commands (fst (pushToken_update id f w)) = commands w.
Proof. unfold pushToken_update. now destruct (existsb _ _). Qed.

(** The fan-out settles every promise by what [send] did, and writes to the
    push tokens only. *)
Lemma allSettled_push command validated tokens :
  forall w,
    snd (allSettled (List.map (push send command validated) tokens) w) =
      Ok (List.map (fun t =>
            if delivered (send (message_of command validated t))
            then fulfilled else rejected) tokens) /\
    commands (fst (allSettled (List.map (push send command validated) tokens) w))
      = commands w /\
    telemetry (fst (allSettled (List.map (push send command validated) tokens) w))
      = telemetry w.
Proof.
  induction tokens as [|t tokens IH]; intros w; [now simpl|].
  cbn [List.map allSettled]. unfold bind.
  assert (Hp : exists w1,
    push send command validated t w =
      (w1, Ok (if delivered (send (message_of command validated t))
               then fulfilled else rejected))
    /\ commands w1 = commands w /\ telemetry w1 = telemetry w).
  { unfold push. destruct (send _) as [mid|code]; simpl; [now exists w|].
    destruct (_ || _).
    - eexists; split; [reflexivity|].
      unfold pushToken_update. now destruct (existsb _ _).
    - now exists w. }
  destruct Hp as (w1 & -> & Hc & Ht).
  destruct (IH w1) as (Hr & Hc' & Ht').
  destruct (allSettled _ w1) as [w2 r]. simpl in *. subst r. simpl.
  repeat split; congruence.
Qed.

Lemma fulfilled_count (A : Type) (p : A -> bool) (l : list A) :
  (0 <? Z.of_nat (List.length (List.filter is_fulfilled
          (List.map (fun t => if p t then fulfilled else rejected) l))))
  = existsb p l.
Proof.
  induction l as [|a l IH]; [reflexivity|].
  cbn [List.map List.filter existsb]. destruct (p a); cbn [is_fulfilled orb].
  - cbn [List.length]. apply Z.ltb_lt. lia.
  - exact IH.
Qed.

Lemma update_created id f (cs : list AntiTheftCommand) c :
  existsb (fun c' => String.eqb (cmd_id c') id) cs = false ->
  cmd_id c = id ->
  List.map (fun c' => if String.eqb (cmd_id c') id then f c' else c')
    (cs ++ [c]) = (cs ++ [f c])%list.
Proof.
  intros Hfresh Hid. rewrite List.map_app. cbn [List.map].
  rewrite Hid, String.eqb_refl. f_equal.
  induction cs as [|c' cs IH]; [reflexivity|].
  cbn [existsb] in Hfresh. apply orb_false_iff in Hfresh.
  destruct Hfresh as [H1 H2]. cbn [List.map]. rewrite H1, IH; auto.
Qed.

(** C1. A command request that passes the rate limit, validation, the
    ownership check and the active-token check appends one command row,
    and the row it leaves behind has the status SENT when at least one push
    to the device's active tokens was delivered and the status FAILED when
    none was. *)
Theorem command_final_status
    (newId : string) (now : Z) (authHeader : option string) (w : World)
    (user : AuthUser) (j : Json) (validated : Validated) (device : Device)
    (tokens : list PushToken) :
  Auth.verifyAuth verify authHeader = Ok user ->
  RateLimit.rl_success
    (snd (RateLimit.rateLimit (rateKeys w)
            ("device_command:" ++ userId user) 10 3600 now)) = true ->
  DeviceCommandSchema j = Ok validated ->
  List.find (fun d => String.eqb (dev_id d) (v_deviceId validated)
                      && String.eqb (dev_userId d) (userId user)
                      && dev_isActive d) (devices w) = Some device ->
  List.filter (fun t => String.eqb (pt_deviceId t) (dev_id device)
                        && pt_isActive t) (pushTokens w) = tokens ->
  tokens <> [] ->
  existsb (fun c => String.eqb (cmd_id c) newId) (commands w) = false ->
  let command :=
    mkCommand newId (dev_id device) (COMMAND_TYPE_MAP (v_commandType validated))
      PENDING (userId user) None (metadata_json (v_metadata validated)) in
  let anyDelivered :=
    existsb (fun t => delivered (send (message_of command validated t))) tokens in
  exists row,
    commands (fst (POST verify send true newId now authHeader (Some j) w)) =
      (commands w ++ [row])%list /\
    row =
      mkCommand newId (dev_id device)
        (COMMAND_TYPE_MAP (v_commandType validated))
        (if anyDelivered then SENT else FAILED)
        (userId user) None (metadata_json (v_metadata validated)) /\
    (anyDelivered = true -> cmd_status row = SENT) /\
    (anyDelivered = false -> cmd_status row = FAILED).
Proof.
  intros Hauth Hrl Hparse Hdev Htok Hne Hfresh command anyDelivered.
  unfold POST, try_catch, POST_body.
  unfold bind at 1. unfold lift at 1. rewrite Hauth.
  unfold bind at 1. unfold rateLimitM.
  destruct (RateLimit.rateLimit _ _ _ _ _) as [keys r]. simpl in Hrl.
  rewrite Hrl. cbn [negb].
  unfold bind at 1. cbn [body_of request_json ret].
  unfold bind at 1. unfold lift at 1. rewrite Hparse.
  unfold bind at 1. unfold device_findFirst, get at 1.
  cbn [devices set_rateKeys]. rewrite Hdev.
  unfold bind at 1. unfold get at 1. cbn [pushTokens set_rateKeys].
  rewrite Htok.
  destruct tokens as [|t0 tokens']; [contradiction|].
  cbn [List.length Nat.eqb].
  unfold bind at 1. unfold antiTheftCommand_create.
  cbn [commands set_rateKeys set_commands cmd_id]. rewrite Hfresh.
  unfold bind at 1.
  fold command.
  set (w1 := set_commands _ _).
  destruct (allSettled_push command validated (t0 :: tokens') w1)
    as (Hr & Hc & _).
  destruct (allSettled _ w1) as [w2 results]. cbn [fst snd] in Hr, Hc.
  subst results. rewrite fulfilled_count. fold anyDelivered.
  assert (Hex : existsb (fun c => String.eqb (cmd_id c) (cmd_id command))
                  (commands w2) = true).
  { rewrite Hc. unfold w1. cbn [commands set_commands set_rateKeys].
    rewrite existsb_app.
    cbn [existsb command cmd_id]. rewrite String.eqb_refl.
    now rewrite orb_true_r. }
  assert (Hup : forall s,
    antiTheftCommand_update (cmd_id command) (set_status s) w2 =
      (set_commands (fun _ => (commands w ++ [set_status s command])%list) w2,
       Ok tt)).
  { intros s. unfold antiTheftCommand_update. rewrite Hex.
    unfold set_commands at 1. rewrite Hc. unfold w1.
    cbn [commands set_commands set_rateKeys].
    rewrite (update_created newId); auto. }
  unfold bind at 1.
  destruct anyDelivered; rewrite Hup; cbn [fst commands set_commands];
    eexists; (split; [reflexivity|]); (split; [reflexivity|]);
    split; intros; (reflexivity || discriminate).
Qed.

End DeviceCommandFacts.

Lemma command_final_status_witness :
  (exists row,
     commands
       (fst (DeviceCommand.POST Examples.verify Examples.send1 true "cmd-1" 1000
               (Some "Bearer token-a") (Some Examples.locate_body)
               Examples.world1)) = [row] /\
     cmd_status row = SENT) /\
  (exists row,
     commands
       (fst (DeviceCommand.POST Examples.verify Examples.send_none true "cmd-1"
               1000 (Some "Bearer token-a") (Some Examples.locate_body)
               Examples.world1)) = [row] /\
     cmd_status row = FAILED).
Proof.
  split.
  - destruct (command_final_status Examples.verify Examples.send1 "cmd-1" 1000
                (Some "Bearer token-a") Examples.world1 Examples.alice
                Examples.locate_body
                (DeviceCommand.mkValidated "dev-1" DeviceCommand.locate None)
                Examples.phone [Examples.fcm_token; Examples.stale_token])
      as (row & Hrows & _ & Hsent & _).
    + reflexivity.
    + vm_compute. reflexivity.
    + reflexivity.
    + reflexivity.
    + reflexivity.
    + discriminate.
    + reflexivity.
    + exists row. split; [exact Hrows | apply Hsent; reflexivity].
  - destruct (command_final_status Examples.verify Examples.send_none "cmd-1"
                1000 (Some "Bearer token-a") Examples.world1 Examples.alice
                Examples.locate_body
                (DeviceCommand.mkValidated "dev-1" DeviceCommand.locate None)
                Examples.phone [Examples.fcm_token; Examples.stale_token])
      as (row & Hrows & _ & _ & Hfailed).
    + reflexivity.
    + vm_compute. reflexivity.
    + reflexivity.
    + reflexivity.
    + reflexivity.
    + discriminate.
    + reflexivity.
    + exists row. split; [exact Hrows | apply Hfailed; reflexivity].
Defined.

(** ** Location reports *)

Lemma nodup_key_eq {A : Type} (key : A -> string) (l : list A) (a b : A) :
  List.NoDup (List.map key l) -> In a l -> In b l -> key a = key b -> a = b.
Proof.
  induction l as [|x l IH]; intros Hnd Ha Hb Hk; [contradiction|].
  cbn [List.map] in Hnd. apply List.NoDup_cons_iff in Hnd. destruct Hnd as [Hx Hnd].
  destruct Ha as [<-|Ha], Hb as [<-|Hb]; auto.
  - exfalso. apply Hx. rewrite Hk. now apply in_map.
  - exfalso. apply Hx. rewrite <- Hk. now apply in_map.
Qed.

(** C3, as stated, fails: a LOCATE command that is still PENDING is set to
    EXECUTED by a location report. *)
Lemma location_executes_pending_command :
  commands Examples.world_pending =
    [mkCommand "cmd-1" "dev-1" LOCATE PENDING "user-a" None ∅] /\
  commands
    (fst (DeviceLocation.POST Examples.verify Examples.any_datetime 2000
            (Some "Bearer token-a") (Some Examples.fix_body)
            Examples.world_pending)) =
    [mkCommand "cmd-1" "dev-1" LOCATE EXECUTED "user-a" (Some 2000)
       {[ "location" :=
            JObj [("latitude", JNum (inject_Z 48));
                  ("longitude", JNum (inject_Z 2));
                  ("accuracy", JNum (inject_Z 5));
                  ("timestamp", JStr "2026-01-01T00:00:00Z")] ]}].
Proof. split; vm_compute; reflexivity. Qed.

Section DeviceLocationFacts.
Import DeviceLocation.

Variable verify : string -> option AuthUser.
Variable isDatetime : string -> bool.

(** C3, amended. A location report changes a command row only if the row is
    a LOCATE command with the requested id on a device of the caller, and
    every such row it does change, whatever its status: the request is
    answered 200 and the row is left EXECUTED, with the time of the request
    and with the location merged into its metadata.  A command of another
    type is never changed. *)
Theorem location_executes_only_locate
    (now : Z) (authHeader : option string) (body : Body) (w : World) :
  List.NoDup (List.map cmd_id (commands w)) ->
  forall (i : nat) (c : AntiTheftCommand),
    nth_error (commands w) i = Some c ->
    (forall c' : AntiTheftCommand,
       nth_error
         (commands (fst (POST verify isDatetime now authHeader body w))) i
         = Some c' ->
       c' <> c ->
       cmd_commandType c = LOCATE /\
       cmd_status c' = EXECUTED /\
       exists user j validated device,
         Auth.verifyAuth verify authHeader = Ok user /\
         body = Some j /\
         LocationSchema isDatetime j = Ok validated /\
         In device (devices w) /\
         dev_id device = v_deviceId validated /\
         dev_userId device = userId user /\
         cmd_id c = v_commandId validated /\
         cmd_deviceId c = dev_id device /\
         cmd_metadata c' =
           <[ "location" := location_json validated ]> (cmd_metadata c)) /\
    (forall user j validated device,
       Auth.verifyAuth verify authHeader = Ok user ->
       body = Some j ->
       LocationSchema isDatetime j = Ok validated ->
       In device (devices w) ->
       dev_id device = v_deviceId validated ->
       dev_userId device = userId user ->
       cmd_id c = v_commandId validated ->
       cmd_deviceId c = dev_id device ->
       cmd_commandType c = LOCATE ->
       status (snd (POST verify isDatetime now authHeader body w)) = 200 /\
       nth_error
         (commands (fst (POST verify isDatetime now authHeader body w))) i
         = Some (mkCommand (cmd_id c) (cmd_deviceId c) LOCATE EXECUTED
                   (cmd_issuedBy c) (Some now)
                   (<[ "location" := location_json validated ]>
                      (cmd_metadata c)))).
Proof.
  intros Hnd i c Hc. split.
  - intros c' Hc' Hneq.
    unfold POST, try_catch, POST_body in Hc'.
    unfold bind at 1 in Hc'. unfold lift at 1 in Hc'.
    destruct (Auth.verifyAuth verify authHeader) as [user|e] eqn:Hauth;
      [|cbn in Hc'; congruence].
    unfold bind at 1 in Hc'.
    destruct body as [j|m]; [|cbn in Hc'; congruence].
    cbn [request_json ret] in Hc'.
    unfold bind at 1 in Hc'. unfold lift at 1 in Hc'.
    destruct (LocationSchema isDatetime j) as [validated|e] eqn:Hparse;
      [|cbn in Hc'; congruence].
    unfold bind at 1 in Hc'. unfold device_findFirst, get at 1 in Hc'.
    destruct (find _ (devices w)) as [device|] eqn:Hdev;
      [|cbn in Hc'; congruence].
    unfold bind at 1 in Hc'. unfold antiTheftCommand_findFirst, get at 1 in Hc'.
    destruct (find _ (commands w)) as [command|] eqn:Hcmd;
      [|cbn in Hc'; congruence].
    apply find_some in Hdev. destruct Hdev as [Hdin Hdp].
    apply andb_true_iff in Hdp. destruct Hdp as [Hd1 Hd2].
    apply String.eqb_eq in Hd1, Hd2.
    apply find_some in Hcmd. destruct Hcmd as [Hcin Hcp].
    apply andb_true_iff in Hcp. destruct Hcp as [Hcp Hc3].
    apply andb_true_iff in Hcp. destruct Hcp as [Hc1 Hc2].
    apply String.eqb_eq in Hc1, Hc2.
    unfold bind, antiTheftCommand_update in Hc'.
    destruct (existsb _ (commands w)); [|cbn in Hc'; congruence].
    cbn [fst ret commands set_commands] in Hc'.
    rewrite nth_error_map, Hc in Hc'. cbn [option_map] in Hc'.
    destruct (String.eqb (cmd_id c) (cmd_id command)) eqn:Hid;
      [|congruence].
    apply String.eqb_eq in Hid.
    assert (c = command).
    { apply (nodup_key_eq cmd_id (commands w)); auto.
      now apply nth_error_In with i. }
    subst command. injection Hc' as <-.
    split; [destruct (cmd_commandType c); congruence|].
    split; [reflexivity|].
    exists user, j, validated, device. repeat split; auto.
  - intros user j validated device Hauth -> Hparse Hdin Hdid Hduser Hcid Hcdev
      Hctype.
    assert (Hcin : In c (commands w)) by now apply nth_error_In with i.
    destruct (POST verify isDatetime now authHeader (Some j) w)
      as [w' resp] eqn:HP.
    cbn [fst snd]. revert HP.
    unfold POST, try_catch, POST_body.
    unfold bind at 1. unfold lift at 1. rewrite Hauth.
    unfold bind at 1. cbn [body_of request_json ret].
    unfold bind at 1. unfold lift at 1. rewrite Hparse.
    unfold bind at 1. unfold device_findFirst, get at 1.
    destruct (find _ (devices w)) as [device'|] eqn:Hdev.
    2:{ exfalso. apply (find_none _ _ Hdev) in Hdin. cbn beta in Hdin.
        rewrite Hdid, Hduser, !String.eqb_refl in Hdin. discriminate. }
    apply find_some in Hdev. destruct Hdev as [_ Hdp].
    apply andb_true_iff in Hdp. destruct Hdp as [Hd1 _].
    apply String.eqb_eq in Hd1.
    unfold bind at 1. unfold antiTheftCommand_findFirst, get at 1.
    destruct (find _ (commands w)) as [command|] eqn:Hcmd.
    2:{ exfalso. apply (find_none _ _ Hcmd) in Hcin. cbn beta in Hcin.
        rewrite Hcid, Hcdev, Hdid, Hd1, Hctype, !String.eqb_refl in Hcin.
        discriminate. }
    apply find_some in Hcmd. destruct Hcmd as [Hin' Hcp].
    apply andb_true_iff in Hcp. destruct Hcp as [Hcp _].
    apply andb_true_iff in Hcp. destruct Hcp as [Hc1 _].
    apply String.eqb_eq in Hc1.
    assert (command = c).
    { apply (nodup_key_eq cmd_id (commands w)); auto. congruence. }
    subst command.
    unfold bind, antiTheftCommand_update.
    assert (Hex : existsb (fun c' => String.eqb (cmd_id c') (cmd_id c))
                    (commands w) = true).
    { apply existsb_exists. exists c. split; [exact Hcin|].
      apply String.eqb_refl. }
    rewrite Hex. cbn [fst snd ret]. intros [= <- <-].
    split; [reflexivity|]. cbn [commands set_commands].
    rewrite nth_error_map, Hc. cbn [option_map].
    rewrite String.eqb_refl. unfold execute. now rewrite Hctype.
Qed.

End DeviceLocationFacts.

Lemma location_executes_only_locate_witness :
  cmd_status Examples.pending_locate = PENDING /\
  status
    (snd (DeviceLocation.POST Examples.verify Examples.any_datetime 2000
            (Some "Bearer token-a") (Some Examples.fix_body)
            Examples.world_pending)) = 200 /\
  nth_error
    (commands
       (fst (DeviceLocation.POST Examples.verify Examples.any_datetime 2000
               (Some "Bearer token-a") (Some Examples.fix_body)
               Examples.world_pending))) 0
  = Some (mkCommand "cmd-1" "dev-1" LOCATE EXECUTED "user-a" (Some 2000)
            (<[ "location" :=
                  DeviceLocation.location_json
                    (DeviceLocation.mkValidated "dev-1" "cmd-1" (inject_Z 48)
                       (inject_Z 2) (inject_Z 5) "2026-01-01T00:00:00Z") ]> ∅)).
Proof.
  split; [reflexivity|].
  destruct (location_executes_only_locate Examples.verify Examples.any_datetime
              2000 (Some "Bearer token-a") (Some Examples.fix_body)
              Examples.world_pending) with
    (i := 0%nat) (c := Examples.pending_locate) as [_ Hif].
  - cbn. repeat constructor. intros [].
  - reflexivity.
  - apply (Hif Examples.alice Examples.fix_body
             (DeviceLocation.mkValidated "dev-1" "cmd-1" (inject_Z 48)
                (inject_Z 2) (inject_Z 5) "2026-01-01T00:00:00Z")
             Examples.phone).
    + reflexivity.
    + reflexivity.
    + reflexivity.
    + left. reflexivity.
    + reflexivity.
    + reflexivity.
    + reflexivity.
    + reflexivity.
    + reflexivity.
Defined.

(** ** Device registration *)

Section DeviceRegisterFacts.
Import DeviceRegister.

Variable verify : string -> option AuthUser.

Lemma find_map_preserved {A : Type} (p : A -> bool) (f : A -> A) (l : list A) :
  (forall x, p (f x) = p x) ->
  List.find p (List.map f l) = option_map f (List.find p l).
Proof.
  intros Hp. induction l as [|x l IH]; [reflexivity|].
  cbn [List.map List.find]. rewrite Hp. now destruct (p x).
Qed.

Lemma find_app_some {A : Type} (p : A -> bool) (l l' : list A) (x : A) :
  List.find p l = Some x -> List.find p (l ++ l') = Some x.
Proof.
  induction l as [|y l IH]; [discriminate|].
  cbn [List.find app]. now destruct (p y).
Qed.

Lemma map_binding_update (q : Device -> bool) (upd : Device -> Device)
    (l : list Device) :
  (forall d, binding (upd d) = binding d) ->
  List.map binding (List.map (fun d => if q d then upd d else d) l)
    = List.map binding l.
Proof.
  intros Hb. rewrite List.map_map. apply List.map_ext.
  intros d. now destruct (q d).
Qed.

(** The upsert of the device leaves every binding in place, touches no
    push token, and a row found by id keeps its owner. *)
Lemma device_upsert_keeps deviceId upd create w :
  (forall d, binding (upd d) = binding d) ->
  let w1 := fst (device_upsert deviceId upd create w) in
  pushTokens w1 = pushTokens w /\
  (exists extra,
     List.map binding (devices w1) = (List.map binding (devices w) ++ extra)%list) /\
  (forall id d,
     List.find (fun d => String.eqb (dev_id d) id) (devices w) = Some d ->
     exists d',
       List.find (fun d => String.eqb (dev_id d) id) (devices w1) = Some d' /\
       dev_userId d' = dev_userId d).
Proof.
  intros Hb. unfold device_upsert.
  destruct (negb (Platform_value (dev_platform create))).
  { cbn [fst]. split; [reflexivity|]. split.
    - exists []. now rewrite app_nil_r.
    - intros id d Hd. now exists d. }
  destruct (List.find _ (devices w)) as [d0|] eqn:Hfind.
  - cbn [fst pushTokens devices set_devices]. split; [reflexivity|]. split.
    + exists []. rewrite app_nil_r. now apply map_binding_update.
    + intros id d Hd.
      rewrite (find_map_preserved (fun d => String.eqb (dev_id d) id)).
      * rewrite Hd. cbn [option_map]. eexists; split; [reflexivity|].
        destruct (String.eqb (dev_deviceId d) deviceId); [|reflexivity].
        specialize (Hb d). unfold binding in Hb. congruence.
      * intros x. destruct (String.eqb (dev_deviceId x) deviceId); [|reflexivity].
        specialize (Hb x). unfold binding in Hb. congruence.
  - destruct (existsb _ (devices w)).
    + cbn [fst]. split; [reflexivity|]. split.
      * exists []. now rewrite app_nil_r.
      * intros id d Hd. now exists d.
    + cbn [fst pushTokens devices set_devices]. split; [reflexivity|]. split.
      * exists [binding create]. now rewrite List.map_app.
      * intros id d Hd. exists d. split; [|reflexivity].
        now apply find_app_some.
Qed.

(** The schema of the route admits the platforms [ios] and [android]; the
    column [platform] of a device holds [IOS] or [ANDROID]. *)
Lemma platform_text_refused (p : PlatformName) :
  Platform_value (platform_text p) = false.
Proof. now destruct p. Qed.

(** C4, as the code stands, fails: a registration that passes the rate
    limit and validation is not answered 403 or 409, whatever device or push
    token it names and whoever owns them.  The upsert of the device hands
    the platform of the request, [ios] or [android], to a column that holds
    [IOS] or [ANDROID]; the store refuses it before the route compares any
    owner, and the route answers 500.  No device and no push token is
    written, so that the bindings do stay as they were. *)
Theorem register_foreign_binding_is_500
    (newId newTokenId : string) (now : Z) (authHeader : option string)
    (j : Json) (w : World) (user : AuthUser) (validated : Validated) :
  Auth.verifyAuth verify authHeader = Ok user ->
  RateLimit.rl_success
    (snd (RateLimit.rateLimit (rateKeys w)
            ("device_register:" ++ userId user) 10 60 now)) = true ->
  RegisterDeviceSchema j = Ok validated ->
  snd (POST verify true newId newTokenId now authHeader (Some j) w)
    = json_error 500 "Device registration failed" /\
  devices (fst (POST verify true newId newTokenId now authHeader (Some j) w))
    = devices w /\
  pushTokens (fst (POST verify true newId newTokenId now authHeader (Some j) w))
    = pushTokens w.
Proof.
  intros Hauth Hrl Hparse.
  destruct (POST verify true newId newTokenId now authHeader (Some j) w)
    as [w' resp] eqn:HP.
  cbn [fst snd]. revert HP.
  unfold POST, try_catch, POST_body.
  unfold bind at 1. unfold lift at 1. rewrite Hauth.
  unfold bind at 1. unfold rateLimitM.
  destruct (RateLimit.rateLimit _ _ _ _ _) as [keys r]. simpl in Hrl.
  rewrite Hrl. cbn [negb].
  unfold bind at 1. cbn [body_of request_json ret].
  unfold bind at 1. unfold lift at 1. rewrite Hparse.
  unfold bind at 1. unfold device_upsert at 1. cbn [dev_platform].
  rewrite platform_text_refused. cbn [negb].
  intros [= <- <-]. repeat split.
Qed.

End DeviceRegisterFacts.

Lemma register_foreign_binding_is_500_witness :
  (exists t owner,
     List.find (fun t => String.eqb (pt_token t) "fcm-1")
       (pushTokens Examples.world1) = Some t /\
     List.find (fun d => String.eqb (dev_id d) (pt_deviceId t))
       (devices Examples.world1) = Some owner /\
     dev_userId owner <> userId Examples.bob) /\
  snd (DeviceRegister.POST Examples.verify true "dev-2" "pt-3" 1000
         (Some "Bearer token-b") (Some Examples.bob_register_body)
         Examples.world1)
    = json_error 500 "Device registration failed" /\
  pushTokens
    (fst (DeviceRegister.POST Examples.verify true "dev-2" "pt-3" 1000
            (Some "Bearer token-b") (Some Examples.bob_register_body)
            Examples.world1)) = pushTokens Examples.world1.
Proof.
  split.
  - exists Examples.fcm_token, Examples.phone.
    split; [reflexivity|]. split; [reflexivity|]. discriminate.
  - destruct (register_foreign_binding_is_500 Examples.verify "dev-2" "pt-3"
                1000 (Some "Bearer token-b") Examples.bob_register_body
                Examples.world1 Examples.bob
                (DeviceRegister.mkValidated "hw-2" "iPhone" DeviceRegister.ios
                   "18" "1.0.0" (Some "fcm-1")))
      as (H1 & _ & H2).
    + reflexivity.
    + vm_compute. reflexivity.
    + reflexivity.
    + exact (conj H1 H2).
Defined.

(** ** Password login *)

Section EmailLoginFacts.
Import EmailLogin.

Variable limit : string -> bool.
Variable isEmail : string -> bool.
Variable compare : string -> string -> bool.
Variable sign : string -> string -> string.
Variable toISOString : Z -> string.

(** C10. A login attempt that is let through by the rate limiter and passes
    validation, and that fails because the email is unknown, or because the
    account has no password hash, or because the password does not match,
    gets one and the same answer, 401 with the error
    [Invalid email or password], and writes nothing. *)
Theorem login_failures_indistinguishable
    (newId : string) (now : Z) (headers : Headers) (j : Json) (w : World)
    (validated : Validated) :
  limit (identifier_of headers) = true ->
  EmailLoginSchema isEmail j = Ok validated ->
  (List.find (fun u => String.eqb (u_email u) (v_email validated)) (users w)
     = None
   \/ (exists u,
         List.find (fun u => String.eqb (u_email u) (v_email validated))
           (users w) = Some u /\
         (u_passwordHash u = None \/ u_passwordHash u = Some EmptyString))
   \/ (exists u h,
         List.find (fun u => String.eqb (u_email u) (v_email validated))
           (users w) = Some u /\
         u_passwordHash u = Some h /\
         compare (v_password validated) h = false)) ->
  POST limit isEmail compare sign toISOString newId now headers (Some j) w =
    (w, mkResponse 401 false (Some "Invalid email or password") None None).
Proof.
  intros Hlimit Hparse Hfail.
  unfold POST. rewrite Hlimit. cbn [negb].
  unfold try_catch, POST_body, bind, lift, get, body_of, request_json, ret.
  rewrite Hparse.
  destruct Hfail as [Hnone | [(u & Hu & Hhash) | (u & h & Hu & Hh & Hcmp)]].
  - now rewrite Hnone.
  - rewrite Hu. destruct Hhash as [-> | ->]; reflexivity.
  - rewrite Hu, Hh. destruct (truthy h); [|reflexivity].
    cbn [negb]. now rewrite Hcmp.
Qed.

End EmailLoginFacts.

Lemma login_failures_indistinguishable_witness :
  EmailLogin.POST Examples.let_through Examples.any_email Examples.never_matches
    Examples.sign0 Examples.iso0 "dev-9" 1000 Examples.no_headers
    (Some Examples.login_body) Examples.world1 =
  (Examples.world1,
   mkResponse 401 false (Some "Invalid email or password") None None).
Proof.
  apply (login_failures_indistinguishable Examples.let_through Examples.any_email
           Examples.never_matches Examples.sign0 Examples.iso0 "dev-9" 1000
           Examples.no_headers Examples.login_body Examples.world1
           (EmailLogin.mkValidated "carol@example.com" "hunter2"
              (EmailLogin.mkDeviceInfo "hw-9" "Pixel" DeviceRegister.android
                 "14" "1.0.0"))).
  - reflexivity.
  - reflexivity.
  - left. reflexivity.
Defined.

(** ** URL classification *)

Section UrlClassifyFacts.
Import UrlClassify.

Variable verify : string -> option AuthUser.
Variable isUrl : string -> bool.
Variable template : option Json -> string.
Variable coerced_gt_zero : Json -> bool.
Variable fetch : string -> FetchOutcome.

Lemma verifyAuth_not_unauthorized authHeader e :
  Auth.verifyAuth verify authHeader = Throw e ->
  includes (message e) "Unauthorized" = false.
Proof.
  unfold Auth.verifyAuth. destruct authHeader as [h|]; [|now intros [= <-]].
  destruct (_ || _); [now intros [= <-]|].
  destruct (verify _); [discriminate | now intros [= <-]].
Qed.

Lemma schema_not_unauthorized j e :
  ClassifyUrlSchema isUrl j = Throw e ->
  includes (message e) "Unauthorized" = false.
Proof.
  unfold ClassifyUrlSchema, z_object, z_string, rbind.
  destruct j; try (now intros [= <-]).
  destruct (field "url" fields) as [[| | | s | |]|]; try (now intros [= <-]).
  destruct (isUrl s); [discriminate | now intros [= <-]].
Qed.

(** C9. There are requests the classify route answers with no value: when
    [GOOGLE_SAFE_BROWSING_KEY] is not configured, [classifyUrlWithThreatIntel]
    throws before its own [try], and the [catch] of the route returns
    nothing for it; the same holds of a request that fails the schema or
    the authentication, so that no request gets a response, be its body
    JSON or empty. *)
Theorem url_classify_no_response
    (authHeader : option string) (body : option Json) (w : World) :
  snd (POST verify isUrl template coerced_gt_zero None fetch authHeader body w)
    = None.
Proof.
  unfold POST, try_catch, POST_body, bind, lift.
  destruct (Auth.verifyAuth verify authHeader) as [user|e] eqn:Hauth.
  - destruct body as [j|]; [|reflexivity].
    cbn [body_of request_json ret].
    destruct (ClassifyUrlSchema isUrl j) as [url|e] eqn:Hparse; [reflexivity|].
    cbn [snd]. unfold on_error.
    now rewrite (schema_not_unauthorized j e Hparse).
  - cbn [snd]. unfold on_error.
    now rewrite (verifyAuth_not_unauthorized authHeader e Hauth).
Qed.

End UrlClassifyFacts.

(** ** Scan reports *)

Section ScanReportFacts.
Import ScanReport.

Variable verify : string -> option AuthUser.
Variable isDatetime : string -> bool.
Variable Date_parse : string -> Z.
Variable randomUUID : nat -> string.

(** C8, as the code stands, fails: a scan report with entries in [threats]
    that passes authentication, validation, the ownership check and the
    timestamp check creates no row at all.  The rows the route hands to
    [createMany] carry a [threatName], which the quarantine table has no
    column for, and a fresh [randomUUID()] where the table wants the id
    of a signature; the store refuses them, the transaction takes the scan
    log back with it and never reaches the telemetry row, and the route
    answers 500. *)
Theorem scan_report_with_threats_is_500
    (newId : string) (now : Z) (authHeader : option string) (j : Json)
    (w : World) (user : AuthUser) (validated : Validated) (device : Device)
    (threat : Threat) (threats : list Threat) :
  Auth.verifyAuth verify authHeader = Ok user ->
  ScanReportSchema isDatetime j = Ok validated ->
  List.find (fun d => String.eqb (dev_id d) (v_deviceId validated)
                      && String.eqb (dev_userId d) (userId user))
    (devices w) = Some device ->
  v_threats validated = Some (threat :: threats) ->
  Date_parse (v_startedAt validated) <= completedAt_of Date_parse now validated ->
  POST verify isDatetime Date_parse randomUUID newId now authHeader (Some j) w
    = (w, json_error 500 "Scan report failed").
Proof.
  intros Hauth Hparse Hdev Hth Htime.
  unfold POST, try_catch, POST_body.
  unfold bind at 1. unfold lift at 1. rewrite Hauth.
  unfold bind at 1. cbn [body_of request_json ret].
  unfold bind at 1. unfold lift at 1. rewrite Hparse.
  unfold bind at 1. unfold device_findFirst, get at 1. rewrite Hdev.
  destruct (Z.ltb_spec (completedAt_of Date_parse now validated)
              (Date_parse (v_startedAt validated))); [lia|].
  unfold bind at 1. unfold transaction.
  unfold bind at 1. unfold scanLog_create. cbn [sl_id].
  destruct (existsb _ (scanLogs w)); [reflexivity|].
  rewrite Hth. reflexivity.
Qed.

End ScanReportFacts.

Lemma scan_report_with_threats_is_500_witness :
  ScanReport.v_threatsFound Examples.scan_validated = 2 /\
  ScanReport.POST Examples.verify Examples.any_datetime Examples.date0
    Examples.uuid0 "scan-1" 5000 (Some "Bearer token-a")
    (Some Examples.scan_body) Examples.world1
  = (Examples.world1, json_error 500 "Scan report failed") /\
  quarantines Examples.world1 = [] /\
  telemetry Examples.world1 = [].
Proof.
  split; [reflexivity|]. split; [|split; reflexivity].
  apply (scan_report_with_threats_is_500 Examples.verify Examples.any_datetime
           Examples.date0 Examples.uuid0 "scan-1" 5000 (Some "Bearer token-a")
           Examples.scan_body Examples.world1 Examples.alice
           Examples.scan_validated Examples.phone
           (ScanReport.mkThreat "a.apk" "/sd/a.apk" "h1" "Trojan.A"
              ScanReport.high)
           [ScanReport.mkThreat "b.apk" "/sd/b.apk" "h2" "Adware.B"
              ScanReport.low]).
  - reflexivity.
  - vm_compute. reflexivity.
  - reflexivity.
  - reflexivity.
  - vm_compute. discriminate.
Defined.

(** ** Receipt verification *)

Section PaymentVerifyFacts.
Import PaymentVerify.

Lemma later_cases latest current :
  later latest current =
    if gt (expiry current) (expiry latest) then current else latest.
Proof. reflexivity. Qed.

(** The [reduce] of the sandbox path ends on an entry of the array that no
    entry exceeds. *)
Lemma fold_later_greatest (rest : list ReceiptInfo) :
  forall seen acc,
    In acc seen ->
    (forall e, In e seen -> gt (expiry e) (expiry acc) = false) ->
    In (List.fold_left later rest acc) (seen ++ rest) /\
    (forall e, In e (seen ++ rest) ->
       gt (expiry e) (expiry (List.fold_left later rest acc)) = false).
Proof.
  induction rest as [|c rest IH]; intros seen acc Hin Hmax.
  - rewrite app_nil_r. now split.
  - cbn [List.fold_left].
    replace (seen ++ c :: rest)%list with ((seen ++ [c]) ++ rest)%list
      by now rewrite <- app_assoc.
    apply IH.
    + rewrite later_cases. destruct (gt (expiry c) (expiry acc));
        apply in_or_app; [right; now left | now left].
    + intros e He. rewrite later_cases.
      apply in_app_or in He.
      destruct (gt (expiry c) (expiry acc)) eqn:Hgt.
      * destruct He as [He|[<-|[]]].
        -- specialize (Hmax e He).
           destruct (expiry e), (expiry c), (expiry acc); cbn in *;
             try reflexivity; try discriminate.
           apply Z.ltb_ge. apply Z.ltb_ge in Hmax. apply Z.ltb_lt in Hgt. lia.
        -- destruct (expiry c); cbn; [reflexivity | apply Z.ltb_irrefl].
      * destruct He as [He|[<-|[]]]; [now apply Hmax | exact Hgt].
Qed.

Lemma reduce_later_greatest (entries : list ReceiptInfo) (r : ReceiptInfo) :
  reduce later entries = Ok r ->
  In r entries /\
  (forall e, In e entries -> gt (expiry e) (expiry r) = false).
Proof.
  destruct entries as [|x rest]; [discriminate|].
  cbn [reduce]. intros [= <-].
  apply (fold_later_greatest rest [x] x); [now left|].
  intros e [<-|[]]. destruct (expiry x); cbn; [reflexivity | apply Z.ltb_irrefl].
Qed.

(** On the production path the expiry is read from the first entry, whatever
    follows it. *)
Lemma production_reads_first_entry secret fetch receiptData data e rest :
  truthy secret = true ->
  fetch productionUrl receiptData = Fetched data ->
  ad_status data <> 21007 ->
  latest_receipt_info data = Some (e :: rest) ->
  expiryDate (verifyAppleReceipt (Some secret) fetch receiptData) =
    expiry_of (Some e).
Proof.
  intros Hs Hf Hst Hl. unfold verifyAppleReceipt, verify_body, fetch_json.
  cbn [or_empty]. rewrite Hs, Hf. cbn [negb rbind].
  apply Z.eqb_neq in Hst. now rewrite Hst, Hl.
Qed.

(** C5 at a failing input. The vendor lists two entries, expiring at 1000 and
    at 2000.  Answered by the production endpoint, the result carries 1000,
    the expiry of the first entry; answered by the sandbox retry, it carries
    2000, the greatest. *)
Theorem apple_expiry_production_takes_first :
  verifyAppleReceipt (Some "secret") Examples.fetch_production "receipt" =
    mkVerificationResult true "tx-1" (Some (Int 1000)) /\
  verifyAppleReceipt (Some "secret") Examples.fetch_sandbox "receipt" =
    mkVerificationResult true "tx-1" (Some (Int 2000)).
Proof. split; vm_compute; reflexivity. Qed.

End PaymentVerifyFacts.

(** ** Hash lookups *)

(** C2, as stated, fails: a verdict cached before the signature was uploaded
    is served from the cache, and the hash is reported clean although the
    store holds an active HASH signature for it.  The batch holds a second
    hash, which is not cached, so that the request is answered in the same
    way wherever the block of [if (uncachedHashes.length > 0)] ends. *)
Lemma cached_verdict_hides_new_signature :
  signatures Examples.world_after_upload =
    [mkThreatSignature "HASH" Examples.hashA (Some "Trojan.Android.Generic")
       (Some "CRITICAL") (Some "TROJAN") true] /\
  snd (HashCheck.POST Examples.verify Examples.iso0 Examples.all_up 2000
         (Some "Bearer token-a") (Some Examples.two_hash_body)
         Examples.world_after_upload) =
    json_ok (HashCheck.mkCheckData
               [mkThreatResult Examples.hashA false None None None;
                mkThreatResult Examples.hashB false None None None] 2 0) /\
  snd (HashCheck.POST_late Examples.verify Examples.iso0 Examples.all_up 2000
         (Some "Bearer token-a") (Some Examples.two_hash_body)
         Examples.world_after_upload) =
    Some (json_ok (HashCheck.mkCheckData
               [mkThreatResult Examples.hashA false None None None;
                mkThreatResult Examples.hashB false None None None] 2 0)).
Proof. repeat split; vm_compute; reflexivity. Qed.

(** C7 at a failing input. Redis is reachable for the rate limit and then
    fails both the lookup and the write-back: every hash is resolved from the
    store, but the unguarded [pipeline.exec()] throws and the request ends in
    a 500.  With Redis down from the start the rate limit throws, with the
    same end. *)
Theorem cache_down_fails_request :
  snd (HashCheck.POST Examples.verify Examples.iso0 Examples.lookup_down 1000
         (Some "Bearer token-a") (Some Examples.hash_body)
         Examples.world_with_trojan) =
    json_error 500 "Hash check failed" /\
  snd (HashCheck.POST Examples.verify Examples.iso0 Examples.all_down 1000
         (Some "Bearer token-a") (Some Examples.hash_body)
         Examples.world_with_trojan) =
    json_error 500 "Hash check failed".
Proof. split; vm_compute; reflexivity. Qed.

Section HashCheckFacts.
Import HashCheck.

Variable verify : string -> option AuthUser.
Variable toISOString : Z -> string.

(** The [forEach] sends every hash of the batch to one of the two arrays. *)
Lemma split_cached_spec (f : string -> option ThreatResult) (hashes : list string)
    (h : string) :
  In h hashes ->
  match f h with
  | Some r => In r (fst (split_cached hashes (List.map f hashes)))
  | None => In h (snd (split_cached hashes (List.map f hashes)))
  end.
Proof.
  induction hashes as [|x hs IH]; [contradiction|].
  intros Hin. cbn [List.map split_cached List.hd List.tl].
  destruct (split_cached hs (List.map f hs)) as [rs us].
  cbn [fst snd] in IH.
  destruct Hin as [->|Hin].
  - destruct (f h); cbn; now left.
  - specialize (IH Hin).
    destruct (f h), (f x); cbn; auto.
Qed.

Lemma threatMap_fold_lookup (threats : list ThreatSignature) (k : string) :
  forall m : gmap string ThreatSignature,
    is_Some (m !! k) \/ (exists t, In t threats /\ ts_signature t = k) ->
    is_Some (List.fold_left (fun m t => <[ ts_signature t := t ]> m) threats m
             !! k).
Proof.
  induction threats as [|t ts IH]; intros m H; cbn [List.fold_left].
  - destruct H as [H|(t & [] & _)]. exact H.
  - apply IH. destruct H as [H|(t' & [<-|Hin] & Hk)].
    + left. destruct (decide (ts_signature t = k)) as [->|Hne].
      * rewrite lookup_insert_eq. eauto.
      * now rewrite lookup_insert_ne.
    + left. rewrite Hk, lookup_insert_eq. eauto.
    + right. eauto.
Qed.

(** A hash resolved from the store is reported as a threat when the store
    holds an active HASH signature for it. *)
Lemma resolve_store_threat (w : World) (uncachedHashes : list string)
    (h : string) (sig : ThreatSignature) :
  In h uncachedHashes ->
  In sig (signatures w) ->
  ts_signature sig = h -> ts_type sig = "HASH" -> ts_isActive sig = true ->
  forall threats,
    snd (threatSignature_findMany uncachedHashes w) = Ok threats ->
    isThreat (resolve (threatMap threats) h) = true /\
    tr_hash (resolve (threatMap threats) h) = h.
Proof.
  intros Hh Hsig Hs Ht Ha threats Hfind.
  unfold threatSignature_findMany, get in Hfind. cbn [snd] in Hfind.
  injection Hfind as <-.
  assert (Hin : In sig (List.filter (fun t =>
            List.existsb (String.eqb (ts_signature t)) uncachedHashes
            && String.eqb (ts_type t) "HASH" && ts_isActive t) (signatures w))).
  { apply filter_In. split; [exact Hsig|].
    rewrite Ht, Ha, Hs. cbn. rewrite !andb_true_r.
    apply existsb_exists. exists h. split; [exact Hh | apply String.eqb_refl]. }
  destruct (threatMap_fold_lookup _ h ∅ (or_intror (ex_intro _ sig (conj Hin Hs))))
    as [t Hlook].
  unfold resolve, threatMap. rewrite Hlook. split; reflexivity.
Qed.

Lemma lookup_cache_spec redis now (hashes : list string) w :
  lookup_cache redis now hashes w =
    (w, Ok (if up_mget redis
            then split_cached hashes
                   (List.map (fun h => cache_get now (threatCache w) (cacheKey h))
                      hashes)
            else ([], hashes))).
Proof.
  unfold lookup_cache, try_catchM, bind, mget.
  destruct (up_mget redis); [|reflexivity].
  cbn [ret]. now rewrite List.map_map.
Qed.

Lemma resolve_uncached_ok redis now uncachedHashes w :
  up_exec redis = true ->
  snd (resolve_uncached redis now uncachedHashes w) =
    Ok (store_verdicts w uncachedHashes).
Proof.
  intros Hup. unfold resolve_uncached.
  destruct uncachedHashes as [|h hs]; [reflexivity|].
  unfold bind, threatSignature_findMany, get, pipeline_exec.
  now rewrite Hup.
Qed.

Lemma resolve_uncached_fails redis now h hs w :
  up_exec redis = false ->
  resolve_uncached redis now (h :: hs) w = (w, Throw (Error "fetch failed")).
Proof.
  intros Hup. unfold resolve_uncached, bind, threatSignature_findMany, get,
    pipeline_exec.
  now rewrite Hup.
Qed.

(** The response of a request that gets as far as the lookups, when the
    write-back to the cache goes through. *)
Lemma hash_check_response redis now authHeader j w user validated device :
  Auth.verifyAuth verify authHeader = Ok user ->
  up_rateLimit redis = true ->
  RateLimit.rl_success
    (snd (RateLimit.rateLimit (rateKeys w) ("hash_check:" ++ userId user)
            50 60 now)) = true ->
  HashCheckSchema j = Ok validated ->
  List.find (fun d => String.eqb (dev_id d) (v_deviceId validated)
                      && String.eqb (dev_userId d) (userId user))
    (devices w) = Some device ->
  up_exec redis = true ->
  exists lookedUp,
    snd (lookup_cache redis now (v_hashes validated) w) = Ok lookedUp /\
    let rs := (fst lookedUp ++ store_verdicts w (snd lookedUp))%list in
    snd (POST verify toISOString redis now authHeader (Some j) w) =
      json_ok (mkCheckData rs
                 (Z.of_nat (List.length (v_hashes validated)))
                 (Z.of_nat (List.length (List.filter isThreat rs)))).
Proof.
  intros Hauth Hrl1 Hrl Hparse Hdev Hexec.
  rewrite lookup_cache_spec. eexists. split; [reflexivity|].
  cbn zeta.
  unfold POST, try_catch, POST_body.
  unfold bind at 1. unfold lift at 1. rewrite Hauth.
  unfold bind at 1. unfold rateLimitM. rewrite Hrl1.
  destruct (RateLimit.rateLimit _ _ _ _ _) as [keys r]. simpl in Hrl.
  rewrite Hrl. cbn [negb].
  unfold bind at 1. cbn [body_of request_json ret].
  unfold bind at 1. unfold lift at 1. rewrite Hparse.
  unfold bind at 1. unfold device_findFirst, get at 1.
  cbn [devices set_rateKeys]. rewrite Hdev.
  set (w0 := set_rateKeys _ w).
  unfold bind at 1. rewrite lookup_cache_spec.
  change (threatCache w0) with (threatCache w).
  set (lookedUp := if up_mget redis then _ else _).
  unfold bind at 1.
  pose proof (resolve_uncached_ok redis now (snd lookedUp) w0 Hexec) as Hres.
  change (store_verdicts w0 (snd lookedUp))
    with (store_verdicts w (snd lookedUp)) in Hres.
  destruct (resolve_uncached redis now (snd lookedUp) w0) as [w1 res].
  cbn [snd] in Hres. subst res.
  unfold bind, telemetryLog_create, modify, ret.
  now destruct (0 <? _).
Qed.


(** When only the lookup fails and the write-back goes through, the
    fallback works: the response lists the verdict of the store for every
    hash of the batch, in order. *)
Lemma store_fallback_when_writeback_succeeds
    redis now authHeader j w user validated device :
  Auth.verifyAuth verify authHeader = Ok user ->
  up_rateLimit redis = true ->
  RateLimit.rl_success
    (snd (RateLimit.rateLimit (rateKeys w) ("hash_check:" ++ userId user)
            50 60 now)) = true ->
  HashCheckSchema j = Ok validated ->
  List.find (fun d => String.eqb (dev_id d) (v_deviceId validated)
                      && String.eqb (dev_userId d) (userId user))
    (devices w) = Some device ->
  up_mget redis = false ->
  up_exec redis = true ->
  exists d,
    snd (POST verify toISOString redis now authHeader (Some j) w) = json_ok d /\
    results d = store_verdicts w (v_hashes validated) /\
    List.map tr_hash (results d) = v_hashes validated.
Proof.
  intros Hauth Hrl1 Hrl Hparse Hdev Hmget Hexec.
  destruct (hash_check_response redis now authHeader j w user validated device
              Hauth Hrl1 Hrl Hparse Hdev Hexec) as (lookedUp & Hlook & Hresp).
  rewrite lookup_cache_spec, Hmget in Hlook. cbn [snd] in Hlook.
  injection Hlook as <-. cbn [fst snd app] in Hresp.
  eexists. split; [exact Hresp|]. cbn [results]. split; [reflexivity|].
  unfold store_verdicts. rewrite List.map_map.
  transitivity (List.map (fun x : string => x) (v_hashes validated));
    [|apply List.map_id].
  apply List.map_ext. intros a. unfold resolve. now destruct (_ !! a).
Qed.

(** When the write-back fails as well, the request ends in a 500 although
    every hash was resolved from the store. *)
Lemma cache_down_request_fails
    redis now authHeader j w user validated device :
  Auth.verifyAuth verify authHeader = Ok user ->
  up_rateLimit redis = true ->
  RateLimit.rl_success
    (snd (RateLimit.rateLimit (rateKeys w) ("hash_check:" ++ userId user)
            50 60 now)) = true ->
  HashCheckSchema j = Ok validated ->
  List.find (fun d => String.eqb (dev_id d) (v_deviceId validated)
                      && String.eqb (dev_userId d) (userId user))
    (devices w) = Some device ->
  v_hashes validated <> [] ->
  up_mget redis = false ->
  up_exec redis = false ->
  snd (POST verify toISOString redis now authHeader (Some j) w) =
    json_error 500 "Hash check failed".
Proof.
  intros Hauth Hrl1 Hrl Hparse Hdev Hne Hmget Hexec.
  unfold POST, try_catch, POST_body.
  unfold bind at 1. unfold lift at 1. rewrite Hauth.
  unfold bind at 1. unfold rateLimitM. rewrite Hrl1.
  destruct (RateLimit.rateLimit _ _ _ _ _) as [keys r]. simpl in Hrl.
  rewrite Hrl. cbn [negb].
  unfold bind at 1. cbn [body_of request_json ret].
  unfold bind at 1. unfold lift at 1. rewrite Hparse.
  unfold bind at 1. unfold device_findFirst, get at 1.
  cbn [devices set_rateKeys]. rewrite Hdev.
  unfold bind at 1. rewrite lookup_cache_spec, Hmget. cbn [fst snd].
  destruct (v_hashes validated) as [|h hs]; [contradiction|].
  unfold bind at 1. now rewrite resolve_uncached_fails.
Qed.

End HashCheckFacts.

(** * Further properties of the routes *)

(** ** Authentication *)

Lemma substring_all (s : string) : String.substring 0 (String.length s) s = s.
Proof. induction s as [|c s IH]; [reflexivity|]. cbn. now rewrite IH. Qed.

Lemma substring_after_prefix (p s : string) :
  String.substring (String.length p) (String.length (p ++ s) - String.length p)
    (p ++ s) = s.
Proof.
  induction p as [|c p IH].
  - change ("" ++ s) with s. cbn [String.length].
    replace (String.length s - 0)%nat with (String.length s) by lia.
    apply substring_all.
  - change (String c p ++ s) with (String c (p ++ s)). exact IH.
Qed.

(** X1. [verifyAuth] hands to the JWT check exactly what follows [Bearer ] in
    the header, also when that is empty, and returns its payload; it throws
    [Invalid or expired token] when the check fails.  Without a header, or
    with a header that does not start with [Bearer ], it throws
    [Missing or invalid authorization header] whatever the JWT check would
    say. *)
Theorem verifyAuth_bearer (verify : string -> option AuthUser)
    (token header : string) :
  Auth.verifyAuth verify (Some ("Bearer " ++ token)) =
    match verify token with
    | Some decoded => Ok decoded
    | None => Throw (Error "Invalid or expired token")
    end /\
  (prefixb "Bearer " header = false ->
   Auth.verifyAuth verify (Some header) =
     Throw (Error "Missing or invalid authorization header")) /\
  Auth.verifyAuth verify None =
    Throw (Error "Missing or invalid authorization header").
Proof.
  split; [|split; [|reflexivity]].
  - unfold Auth.verifyAuth, Auth.substring7.
    change (prefixb "Bearer " ("Bearer " ++ token)) with true.
    change (truthy ("Bearer " ++ token)) with true.
    cbn [negb orb].
    pose proof (substring_after_prefix "Bearer " token) as H.
    change (String.length "Bearer ") with 7%nat in H. now rewrite H.
  - intros H. unfold Auth.verifyAuth. rewrite H. cbn [negb].
    now rewrite orb_true_r.
Qed.

Lemma verifyAuth_bearer_witness :
  Auth.verifyAuth Examples.verify (Some "Bearer token-a") = Ok Examples.alice /\
  Auth.verifyAuth Examples.verify (Some "Basic dXNlcg==") =
    Throw (Error "Missing or invalid authorization header").
Proof.
  destruct (verifyAuth_bearer Examples.verify "token-a" "Basic dXNlcg==")
    as (H1 & H2 & _).
  split; [exact H1 | apply H2; reflexivity].
Defined.

Lemma verifyAuth_throws verify authHeader e :
  Auth.verifyAuth verify authHeader = Throw e ->
  e = Error "Missing or invalid authorization header" \/
  e = Error "Invalid or expired token".
Proof.
  unfold Auth.verifyAuth. destruct authHeader as [h|]; [|intros [= <-]; now left].
  destruct (_ || _); [intros [= <-]; now left|].
  destruct (verify _); [discriminate | intros [= <-]; now right].
Qed.

(** X2. A request that fails [verifyAuth] (no header, no [Bearer ] prefix, or
    a token the JWT check refuses) is answered 500 by the command, location,
    register, scan-report and hash-check routes, each with its own generic
    error, and nothing is read or written: the 401 branch of the command
    route looks for [Unauthorized] in the message, which no error of
    [verifyAuth] contains, and the other routes have no 401 branch. *)
Theorem auth_failure_is_500
    (verify : string -> option AuthUser) (authHeader : option string) (e : Exn)
    (send : DeviceCommand.Message -> DeviceCommand.SendOutcome)
    (isDatetime : string -> bool) (Date_parse : string -> Z)
    (randomUUID : nat -> string) (toISOString : Z -> string)
    (redisUp : bool) (redis : HashCheck.RedisCalls)
    (newId newTokenId : string) (now : Z) (body : Body) (w : World) :
  Auth.verifyAuth verify authHeader = Throw e ->
  DeviceCommand.POST verify send redisUp newId now authHeader body w =
    (w, json_error 500 "Failed to send command") /\
  DeviceLocation.POST verify isDatetime now authHeader body w =
    (w, json_error 500 "Location update failed") /\
  DeviceRegister.POST verify redisUp newId newTokenId now authHeader body w =
    (w, json_error 500 "Device registration failed") /\
  ScanReport.POST verify isDatetime Date_parse randomUUID newId now authHeader
    body w = (w, json_error 500 "Scan report failed") /\
  HashCheck.POST verify toISOString redis now authHeader body w =
    (w, json_error 500 "Hash check failed").
Proof.
  intros Hauth.
  unfold DeviceCommand.POST, DeviceCommand.POST_body,
    DeviceLocation.POST, DeviceLocation.POST_body,
    DeviceRegister.POST, DeviceRegister.POST_body,
    ScanReport.POST, ScanReport.POST_body,
    HashCheck.POST, HashCheck.POST_body, try_catch, bind, lift.
  rewrite Hauth.
  destruct (verifyAuth_throws verify authHeader e Hauth) as [-> | ->];
    repeat split; reflexivity.
Qed.

Lemma auth_failure_is_500_witness :
  DeviceCommand.POST Examples.verify Examples.send1 true "cmd-1" 1000
    (Some "Bearer forged") (Some Examples.locate_body) Examples.world1 =
    (Examples.world1, json_error 500 "Failed to send command").
Proof.
  apply (auth_failure_is_500 Examples.verify (Some "Bearer forged")
           (Error "Invalid or expired token") Examples.send1
           Examples.any_datetime Examples.date0 Examples.uuid0 Examples.iso0
           true Examples.all_up "cmd-1" "pt-9" 1000
           (Some Examples.locate_body) Examples.world1).
  reflexivity.
Defined.

(** ** Anti-theft command dispatch, continued *)

Section DeviceCommandMore.
Import DeviceCommand.

Variable verify : string -> option AuthUser.
Variable send : Message -> SendOutcome.

Lemma map_no_match {A : Type} (p : A -> bool) (f : A -> A) (l : list A) :
  existsb p l = false -> List.map (fun x => if p x then f x else x) l = l.
Proof.
  induction l as [|x l IH]; [reflexivity|].
  cbn [existsb List.map]. intros H. apply orb_false_iff in H.
  destruct H as [H1 H2]. now rewrite H1, IH.
Qed.

Lemma pushToken_update_world id f w :
  fst (pushToken_update id f w) =
    set_pushTokens
      (List.map (fun t => if String.eqb (pt_id t) id then f t else t)) w.
Proof.
  unfold pushToken_update. destruct (existsb _ _) eqn:E; [reflexivity|].
  destruct w. unfold set_pushTokens. cbn in *. now rewrite map_no_match.
Qed.

Lemma push_world command validated t w :
  push send command validated t w =
    ((if token_invalid (send (message_of command validated t))
      then set_pushTokens
             (List.map (fun x =>
                if String.eqb (pt_id x) (pt_id t) then deactivate x else x)) w
      else w),
     Ok (if delivered (send (message_of command validated t))
         then fulfilled else rejected)).
Proof.
  unfold push, token_invalid.
  destruct (send (message_of command validated t)) as [mid|code]; [reflexivity|].
  cbn [delivered]. destruct (_ || _); [|reflexivity].
  now rewrite pushToken_update_world.
Qed.

(** The fan-out writes to the push tokens only, and deactivates the rows the
    provider reported as invalid. *)
Lemma allSettled_push_world command validated tokens :
  forall w,
    fst (allSettled (List.map (push send command validated) tokens) w) =
      set_pushTokens (List.map (deactivated_by send command validated tokens)) w.
Proof.
  induction tokens as [|t tokens IH]; intros w.
  - destruct w. unfold set_pushTokens. cbn. f_equal.
    symmetry. apply List.map_id.
  - cbn [List.map allSettled]. unfold bind at 1. rewrite push_world.
    set (w1 := if token_invalid _ then _ else w).
    unfold bind. specialize (IH w1).
    destruct (allSettled_push send command validated tokens w1) as (Hr & _).
    destruct (allSettled _ w1) as [w2 res]. cbn [fst snd] in *. subst res w2.
    cbn [fst ret]. unfold w1. clear w1.
    destruct w. unfold set_pushTokens.
    destruct (token_invalid (send (message_of command validated t))) eqn:Hinv;
      cbn; f_equal.
    + rewrite List.map_map. apply List.map_ext. intros x.
      unfold deactivated_by. cbn [existsb]. rewrite Hinv, andb_true_r.
      destruct (String.eqb (pt_id x) (pt_id t)) eqn:Hid.
      * apply String.eqb_eq in Hid. rewrite <- Hid, String.eqb_refl.
        cbn [orb pt_id deactivate].
        now destruct (existsb _ tokens).
      * rewrite String.eqb_sym, Hid. reflexivity.
    + apply List.map_ext. intros x. unfold deactivated_by. cbn [existsb].
      now rewrite Hinv, andb_false_r.
Qed.

Lemma fulfilled_delivered (p : PushToken -> bool) (l : list PushToken) :
  List.length (List.filter is_fulfilled
    (List.map (fun t => if p t then fulfilled else rejected) l)) =
  List.length (List.filter p l).
Proof.
  induction l as [|t l IH]; [reflexivity|].
  cbn [List.map List.filter]. destruct (p t); cbn [is_fulfilled List.length];
    now rewrite IH.
Qed.

(** The whole effect of a command request that passes every check. *)
Lemma command_outcome
    (newId : string) (now : Z) (authHeader : option string) (w : World)
    (user : AuthUser) (j : Json) (validated : Validated) (device : Device)
    (tokens : list PushToken) :
  Auth.verifyAuth verify authHeader = Ok user ->
  RateLimit.rl_success
    (snd (RateLimit.rateLimit (rateKeys w)
            ("device_command:" ++ userId user) 10 3600 now)) = true ->
  DeviceCommandSchema j = Ok validated ->
  List.find (fun d => String.eqb (dev_id d) (v_deviceId validated)
                      && String.eqb (dev_userId d) (userId user)
                      && dev_isActive d) (devices w) = Some device ->
  List.filter (fun t => String.eqb (pt_deviceId t) (dev_id device)
                        && pt_isActive t) (pushTokens w) = tokens ->
  tokens <> [] ->
  existsb (fun c => String.eqb (cmd_id c) newId) (commands w) = false ->
  let command :=
    mkCommand newId (dev_id device) (COMMAND_TYPE_MAP (v_commandType validated))
      PENDING (userId user) None (metadata_json (v_metadata validated)) in
  let anyDelivered :=
    existsb (fun t => delivered (send (message_of command validated t))) tokens in
  let sent :=
    Z.of_nat (List.length
      (List.filter (fun t => delivered (send (message_of command validated t)))
         tokens)) in
  POST verify send true newId now authHeader (Some j) w =
    (mkWorld (devices w)
       (List.map (deactivated_by send command validated tokens) (pushTokens w))
       (commands w ++ [set_status (if anyDelivered then SENT else FAILED) command])
       (telemetry w ++
          [mkTelemetryLog (userId user) "anti_theft_command_issued"
             (<[ "commandType" := JStr (commandName_text (v_commandType validated)) ]>
              (<[ "deviceId" := JStr (dev_id device) ]>
               {[ "success" := JBool anyDelivered ]}))])
       (signatures w) (scanLogs w) (quarantines w) (users w) (subscriptions w)
       (fst (RateLimit.rateLimit (rateKeys w)
               ("device_command:" ++ userId user) 10 3600 now))
       (threatCache w),
     json_ok (mkCommandData newId (if anyDelivered then "sent" else "failed")
                sent)).
Proof.
  intros Hauth Hrl Hparse Hdev Htok Hne Hfresh command anyDelivered sent.
  unfold POST, try_catch, POST_body.
  unfold bind at 1. unfold lift at 1. rewrite Hauth.
  unfold bind at 1. unfold rateLimitM.
  destruct (RateLimit.rateLimit _ _ _ _ _) as [keys r]. simpl in Hrl.
  rewrite Hrl. cbn [negb fst].
  unfold bind at 1. cbn [body_of request_json ret].
  unfold bind at 1. unfold lift at 1. rewrite Hparse.
  unfold bind at 1. unfold device_findFirst, get at 1.
  cbn [devices set_rateKeys]. rewrite Hdev.
  unfold bind at 1. unfold get at 1. cbn [pushTokens set_rateKeys].
  rewrite Htok.
  destruct tokens as [|t0 tokens']; [contradiction|].
  cbn [List.length Nat.eqb].
  unfold bind at 1. unfold antiTheftCommand_create.
  cbn [commands set_rateKeys set_commands cmd_id]. rewrite Hfresh.
  unfold bind at 1.
  fold command.
  set (w1 := set_commands _ _).
  pose proof (allSettled_push_world command validated (t0 :: tokens') w1) as Hw.
  destruct (allSettled_push send command validated (t0 :: tokens') w1)
    as (Hr & _).
  destruct (allSettled _ w1) as [w2 results]. cbn [fst snd] in Hr, Hw.
  subst results w2. rewrite fulfilled_count. fold anyDelivered.
  rewrite fulfilled_delivered. fold sent.
  assert (Hup : forall s,
    antiTheftCommand_update (cmd_id command) (set_status s)
      (set_pushTokens
         (List.map (deactivated_by send command validated (t0 :: tokens'))) w1) =
      (set_commands (fun _ => (commands w ++ [set_status s command])%list)
         (set_pushTokens
            (List.map (deactivated_by send command validated (t0 :: tokens'))) w1),
       Ok tt)).
  { intros s. unfold antiTheftCommand_update, w1.
    unfold set_pushTokens, set_commands, set_rateKeys.
    cbn [commands devices pushTokens telemetry signatures scanLogs quarantines
         users subscriptions rateKeys threatCache].
    rewrite existsb_app. cbn [existsb cmd_id command]. rewrite String.eqb_refl.
    rewrite orb_true_r.
    rewrite (update_created newId) by auto. reflexivity. }
  unfold bind at 1.
  destruct anyDelivered; rewrite Hup; unfold bind, telemetryLog_create, modify,
    ret, set_telemetry, set_commands, set_pushTokens, w1, set_commands,
    set_rateKeys; reflexivity.
Qed.

(** A command request is refused before any row is written: when the
    device is unknown, inactive or owned by another user the answer is 404,
    when it has no active push token the answer is 400, and in both cases
    no table of the store changes (only the rate-limit key records the
    request). *)
Theorem command_rejected_writes_nothing
    (newId : string) (now : Z) (authHeader : option string) (w : World)
    (user : AuthUser) (j : Json) (validated : Validated) :
  Auth.verifyAuth verify authHeader = Ok user ->
  RateLimit.rl_success
    (snd (RateLimit.rateLimit (rateKeys w)
            ("device_command:" ++ userId user) 10 3600 now)) = true ->
  DeviceCommandSchema j = Ok validated ->
  (List.find (fun d => String.eqb (dev_id d) (v_deviceId validated)
                       && String.eqb (dev_userId d) (userId user)
                       && dev_isActive d) (devices w) = None ->
   snd (POST verify send true newId now authHeader (Some j) w) =
     json_error 404 "Device not found or inactive" /\
   tables_of (fst (POST verify send true newId now authHeader (Some j) w)) =
     tables_of w) /\
  (forall device,
     List.find (fun d => String.eqb (dev_id d) (v_deviceId validated)
                         && String.eqb (dev_userId d) (userId user)
                         && dev_isActive d) (devices w) = Some device ->
     List.filter (fun t => String.eqb (pt_deviceId t) (dev_id device)
                           && pt_isActive t) (pushTokens w) = [] ->
     snd (POST verify send true newId now authHeader (Some j) w) =
       json_error 400 "Device has no active push tokens" /\
     tables_of (fst (POST verify send true newId now authHeader (Some j) w)) =
       tables_of w).
Proof.
  intros Hauth Hrl Hparse.
  split.
  - intros Hdev.
    destruct (POST verify send true newId now authHeader (Some j) w)
      as [w' r] eqn:HP. revert HP.
    unfold POST, try_catch, POST_body, bind, lift, rateLimitM.
    rewrite Hauth.
    destruct (RateLimit.rateLimit _ _ _ _ _) as [keys r0]. simpl in Hrl.
    rewrite Hrl. cbn [negb body_of request_json ret]. rewrite Hparse.
    unfold device_findFirst, get. cbn [devices set_rateKeys]. rewrite Hdev.
    intros [= <- <-]. split; reflexivity.
  - intros device Hdev Htok.
    destruct (POST verify send true newId now authHeader (Some j) w)
      as [w' r] eqn:HP. revert HP.
    unfold POST, try_catch, POST_body, bind, lift, rateLimitM.
    rewrite Hauth.
    destruct (RateLimit.rateLimit _ _ _ _ _) as [keys r0]. simpl in Hrl.
    rewrite Hrl. cbn [negb body_of request_json ret]. rewrite Hparse.
    unfold device_findFirst, get. cbn [devices set_rateKeys].
    rewrite Hdev. cbn [pushTokens set_rateKeys]. rewrite Htok. cbn.
    intros [= <- <-]. split; reflexivity.
Qed.

(** X3. In a command request that passes every check, a token of the device
    that the push provider reports as invalid or not registered is inactive
    afterwards: its row is there with [isActive] false and nothing else
    changed.  A push-token row that shares its id with no such token is
    left as it was; no row is added or removed. *)
Theorem command_deactivates_invalid_tokens
    (newId : string) (now : Z) (authHeader : option string) (w : World)
    (user : AuthUser) (j : Json) (validated : Validated) (device : Device)
    (tokens : list PushToken) :
  Auth.verifyAuth verify authHeader = Ok user ->
  RateLimit.rl_success
    (snd (RateLimit.rateLimit (rateKeys w)
            ("device_command:" ++ userId user) 10 3600 now)) = true ->
  DeviceCommandSchema j = Ok validated ->
  List.find (fun d => String.eqb (dev_id d) (v_deviceId validated)
                      && String.eqb (dev_userId d) (userId user)
                      && dev_isActive d) (devices w) = Some device ->
  List.filter (fun t => String.eqb (pt_deviceId t) (dev_id device)
                        && pt_isActive t) (pushTokens w) = tokens ->
  tokens <> [] ->
  existsb (fun c => String.eqb (cmd_id c) newId) (commands w) = false ->
  let command :=
    mkCommand newId (dev_id device) (COMMAND_TYPE_MAP (v_commandType validated))
      PENDING (userId user) None (metadata_json (v_metadata validated)) in
  let w' := fst (POST verify send true newId now authHeader (Some j) w) in
  List.length (pushTokens w') = List.length (pushTokens w) /\
  (forall t, In t tokens ->
     token_invalid (send (message_of command validated t)) = true ->
     In (mkPushToken (pt_id t) (pt_deviceId t) (pt_token t) (pt_platform t)
           false) (pushTokens w')) /\
  (forall t, In t (pushTokens w) ->
     (forall t', In t' tokens -> pt_id t' = pt_id t ->
        token_invalid (send (message_of command validated t')) = false) ->
     In t (pushTokens w')).
Proof.
  intros Hauth Hrl Hparse Hdev Htok Hne Hfresh command w'.
  subst w'.
  rewrite (command_outcome newId now authHeader w user j validated device tokens)
    by assumption.
  cbn [fst pushTokens]. fold command.
  split; [apply List.length_map|]. split.
  - intros t Hin Hinv.
    change (mkPushToken (pt_id t) (pt_deviceId t) (pt_token t) (pt_platform t)
              false) with (deactivate t).
    assert (Hd : deactivated_by send command validated tokens t = deactivate t).
    { unfold deactivated_by.
      replace (existsb _ tokens) with true; [reflexivity|].
      symmetry. apply existsb_exists. exists t. split; [exact Hin|].
      now rewrite String.eqb_refl, Hinv. }
    rewrite <- Hd. apply in_map.
    rewrite <- Htok in Hin. now apply filter_In in Hin.
  - intros t Hin Hnone.
    assert (Hd : deactivated_by send command validated tokens t = t).
    { unfold deactivated_by.
      replace (existsb _ tokens) with false; [reflexivity|].
      symmetry. apply not_true_is_false. intros Hex.
      apply existsb_exists in Hex. destruct Hex as (t' & Hin' & Hb).
      apply andb_true_iff in Hb. destruct Hb as [Hid Hinv].
      apply String.eqb_eq in Hid. rewrite (Hnone t' Hin' Hid) in Hinv.
      discriminate. }
    rewrite <- Hd at 1. now apply in_map.
Qed.

(** X4. In a command request that passes every check, the response carries
    the id of the new command, [pushesSent] is the number of active tokens
    of the device the provider delivered to, and [status] is [sent] when
    that number is positive and [failed] when it is zero; exactly one
    telemetry row is appended, whose [success] flag says the same. *)
Theorem command_response_counts_deliveries
    (newId : string) (now : Z) (authHeader : option string) (w : World)
    (user : AuthUser) (j : Json) (validated : Validated) (device : Device)
    (tokens : list PushToken) :
  Auth.verifyAuth verify authHeader = Ok user ->
  RateLimit.rl_success
    (snd (RateLimit.rateLimit (rateKeys w)
            ("device_command:" ++ userId user) 10 3600 now)) = true ->
  DeviceCommandSchema j = Ok validated ->
  List.find (fun d => String.eqb (dev_id d) (v_deviceId validated)
                      && String.eqb (dev_userId d) (userId user)
                      && dev_isActive d) (devices w) = Some device ->
  List.filter (fun t => String.eqb (pt_deviceId t) (dev_id device)
                        && pt_isActive t) (pushTokens w) = tokens ->
  tokens <> [] ->
  existsb (fun c => String.eqb (cmd_id c) newId) (commands w) = false ->
  let command :=
    mkCommand newId (dev_id device) (COMMAND_TYPE_MAP (v_commandType validated))
      PENDING (userId user) None (metadata_json (v_metadata validated)) in
  let sent :=
    Z.of_nat (List.length
      (List.filter (fun t => delivered (send (message_of command validated t)))
         tokens)) in
  snd (POST verify send true newId now authHeader (Some j) w) =
    json_ok (mkCommandData newId (if 0 <? sent then "sent" else "failed") sent) /\
  telemetry (fst (POST verify send true newId now authHeader (Some j) w)) =
    (telemetry w ++
       [mkTelemetryLog (userId user) "anti_theft_command_issued"
          (<[ "commandType" := JStr (commandName_text (v_commandType validated)) ]>
           (<[ "deviceId" := JStr (dev_id device) ]>
            {[ "success" := JBool (0 <? sent) ]}))])%list.
Proof.
  intros Hauth Hrl Hparse Hdev Htok Hne Hfresh command sent.
  rewrite (command_outcome newId now authHeader w user j validated device tokens)
    by assumption.
  cbn [fst snd telemetry]. fold command.
  assert (Hany : existsb (fun t => delivered (send (message_of command validated t)))
                   tokens = (0 <? sent)).
  { unfold sent. clear. induction tokens as [|t l IH]; [reflexivity|].
    cbn [existsb List.filter].
    destruct (delivered (send (message_of command validated t)));
      cbn [orb List.length]; [|exact IH].
    symmetry. apply Z.ltb_lt. lia. }
  rewrite Hany. fold sent. split; reflexivity.
Qed.

End DeviceCommandMore.

Lemma command_rejected_writes_nothing_witness :
  snd (DeviceCommand.POST Examples.verify Examples.send1 true "cmd-1" 1000
         (Some "Bearer token-b") (Some Examples.locate_body) Examples.world1) =
    json_error 404 "Device not found or inactive" /\
  tables_of
    (fst (DeviceCommand.POST Examples.verify Examples.send1 true "cmd-1" 1000
            (Some "Bearer token-b") (Some Examples.locate_body) Examples.world1))
    = tables_of Examples.world1.
Proof.
  destruct (command_rejected_writes_nothing Examples.verify Examples.send1
              "cmd-1" 1000 (Some "Bearer token-b") Examples.world1 Examples.bob
              Examples.locate_body
              (DeviceCommand.mkValidated "dev-1" DeviceCommand.locate None))
    as [H _].
  - reflexivity.
  - vm_compute. reflexivity.
  - reflexivity.
  - apply H. reflexivity.
Defined.

Lemma command_deactivates_invalid_tokens_witness :
  pt_isActive Examples.stale_token = true /\
  In (mkPushToken "pt-2" "dev-1" "fcm-2" "fcm" false)
    (pushTokens
       (fst (DeviceCommand.POST Examples.verify Examples.send1 true "cmd-1" 1000
               (Some "Bearer token-a") (Some Examples.locate_body)
               Examples.world1))) /\
  In Examples.fcm_token
    (pushTokens
       (fst (DeviceCommand.POST Examples.verify Examples.send1 true "cmd-1" 1000
               (Some "Bearer token-a") (Some Examples.locate_body)
               Examples.world1))).
Proof.
  destruct (command_deactivates_invalid_tokens Examples.verify Examples.send1
              "cmd-1" 1000 (Some "Bearer token-a") Examples.world1 Examples.alice
              Examples.locate_body
              (DeviceCommand.mkValidated "dev-1" DeviceCommand.locate None)
              Examples.phone [Examples.fcm_token; Examples.stale_token])
    as (_ & Hoff & Hkeep).
  - reflexivity.
  - vm_compute. reflexivity.
  - reflexivity.
  - reflexivity.
  - reflexivity.
  - discriminate.
  - reflexivity.
  - split; [reflexivity|]. split.
    + apply (Hoff Examples.stale_token); [right; now left | reflexivity].
    + apply Hkeep; [now left|].
      intros t' [<-|[<-|[]]] Hid; [reflexivity | discriminate].
Defined.

Lemma command_response_counts_deliveries_witness :
  snd (DeviceCommand.POST Examples.verify Examples.send1 true "cmd-1" 1000
         (Some "Bearer token-a") (Some Examples.locate_body) Examples.world1) =
    json_ok (DeviceCommand.mkCommandData "cmd-1" "sent" 1).
Proof.
  destruct (command_response_counts_deliveries Examples.verify Examples.send1
              "cmd-1" 1000 (Some "Bearer token-a") Examples.world1 Examples.alice
              Examples.locate_body
              (DeviceCommand.mkValidated "dev-1" DeviceCommand.locate None)
              Examples.phone [Examples.fcm_token; Examples.stale_token])
    as (H & _).
  - reflexivity.
  - vm_compute. reflexivity.
  - reflexivity.
  - reflexivity.
  - reflexivity.
  - discriminate.
  - reflexivity.
  - exact H.
Defined.

(** ** Rate limiting, continued *)

Section RateLimitSafety.
Import RateLimit.

Variables limit window : Z.

Lemma filter_filter_implied {A : Type} (p q : A -> bool) (l : list A) :
  (forall x, p x = true -> q x = true) ->
  List.filter p (List.filter q l) = List.filter p l.
Proof.
  intros H. induction l as [|x l IH]; [reflexivity|].
  cbn [List.filter]. destruct (q x) eqn:Hq; cbn [List.filter].
  - now rewrite IH.
  - destruct (p x) eqn:Hp; [|exact IH]. rewrite (H x Hp) in Hq. discriminate.
Qed.

Lemma filter_length_implied {A : Type} (p q : A -> bool) (l : list A) :
  (forall x, p x = true -> q x = true) ->
  (List.length (List.filter p l) <= List.length (List.filter q l))%nat.
Proof.
  intros H. induction l as [|x l IH]; [reflexivity|].
  cbn [List.filter]. destruct (p x) eqn:Hp.
  - rewrite (H x Hp). cbn [List.length]. lia.
  - destruct (q x); cbn [List.length]; lia.
Qed.

Lemma filter_none {A : Type} (p : A -> bool) (l : list A) :
  (forall x, In x l -> p x = false) -> List.filter p l = [].
Proof.
  induction l as [|x l IH]; intros H; [reflexivity|].
  cbn [List.filter]. rewrite (H x) by now left.
  apply IH. intros y Hy. apply H. now right.
Qed.

Lemma filter_length_total {A : Type} (p : A -> bool) (l : list A) :
  (List.length (List.filter p l) <= List.length l)%nat.
Proof.
  induction l as [|x l IH]; [reflexivity|].
  cbn [List.filter]. destruct (p x); cbn [List.length]; lia.
Qed.

Lemma filter_length_snoc {A : Type} (p : A -> bool) (l : list A) (x : A) :
  List.length (List.filter p (l ++ [x])) =
    (List.length (List.filter p l) + (if p x then 1 else 0))%nat.
Proof.
  rewrite List.filter_app, List.length_app. cbn [List.filter].
  now destruct (p x).
Qed.

(** The key still remembers the accepted requests once it has been read at a
    later time [t]: what expired was out of every window from [t] on. *)
Lemma expire_remembers st accepted last t :
  remembers window st accepted last -> last <= t ->
  remembers window (expire t st) accepted t.
Proof.
  intros (Hle & Hcnt & Hexp & Hctr) Ht. unfold expire.
  destruct (expireAt st) as [x|] eqn:E.
  - cbn [default] in Hexp. destruct (Z.leb_spec x t) as [Hx|Hx].
    + repeat split; cbn [zset expireAt counter].
      * intros a Ha. specialize (Hle a Ha). lia.
      * intros theta Hth.
        replace (List.filter (fun a => theta <? a) accepted) with (@nil Z);
          [cbn; unfold Nat.le; lia|].
        symmetry. apply filter_none. intros a Ha.
        specialize (Hexp a Ha). cbn in Hexp.
        apply Z.ltb_ge. lia.
      * intros a Ha. specialize (Hexp a Ha). cbn in *. lia.
      * intros e [].
    + repeat split.
      * intros a Ha. specialize (Hle a Ha). lia.
      * intros theta Hth. apply Hcnt. lia.
      * rewrite E. exact Hexp.
      * exact Hctr.
  - repeat split.
    + intros a Ha. specialize (Hle a Ha). lia.
    + intros theta Hth. apply Hcnt. lia.
    + rewrite E. intros a Ha. specialize (Hexp a Ha). cbn in *. lia.
    + exact Hctr.
Qed.

(** Pruning keeps every entry that is inside a window from [t] on. *)
Lemma prune_counts zs t theta :
  t - window * 1000 <= theta ->
  List.filter (fun e : (Z * Z) * Z => theta <? snd e)
    (zremrangebyscore 0 (t - window * 1000) zs) =
  List.filter (fun e => theta <? snd e) zs.
Proof.
  intros Hth. unfold zremrangebyscore. apply filter_filter_implied.
  intros e He. apply Z.ltb_lt in He.
  destruct (Z.leb_spec (snd e) (t - window * 1000)); [lia|].
  now rewrite andb_false_r.
Qed.

Lemma prune_subset zs lo hi e :
  In e (zremrangebyscore lo hi zs) -> In e zs.
Proof. unfold zremrangebyscore. intros H. now apply filter_In in H. Qed.

(** One call of the script keeps the memory of the accepted requests and
    the bound on every window. *)
Lemma script_remembers st accepted last t :
  remembers window st accepted last -> last <= t ->
  (forall T, accepted_within window T accepted <= limit) ->
  let out := rateLimitScript st t window limit in
  let accepted' :=
    if fst (snd out) =? 1 then (accepted ++ [t])%list else accepted in
  remembers window (fst out) accepted' t /\
  (forall T, accepted_within window T accepted' <= limit).
Proof.
  intros Hrem Ht Hsafe.
  pose proof (expire_remembers st accepted last t Hrem Ht) as (Hle & Hcnt & Hexp & Hctr).
  unfold rateLimitScript.
  set (st1 := expire t st) in *.
  set (zs := zremrangebyscore 0 (t - window * 1000) (zset st1)).
  destruct (Z.leb_spec limit (zcard zs)) as [Hfull|Hroom]; cbn [fst snd].
  - change (0 =? 1) with false. cbv iota zeta. split; [|exact Hsafe].
    repeat split; cbn [zset expireAt counter].
    + exact Hle.
    + intros theta Hth. unfold zs. rewrite prune_counts by exact Hth.
      now apply Hcnt.
    + exact Hexp.
    + intros e He. apply Hctr. now apply prune_subset in He.
  - change (1 =? 1) with true. cbv iota zeta.
    rewrite zadd_new.
    2:{ intros e He. apply prune_subset in He. specialize (Hctr e He).
        cbn [snd]. lia. }
    split.
    + repeat split; cbn [zset expireAt counter default].
      * intros a Ha. apply in_app_or in Ha. destruct Ha as [Ha|[<-|[]]];
          [now apply Hle | lia].
      * intros theta Hth. rewrite !filter_length_snoc. cbn [snd].
        unfold zs. rewrite prune_counts by exact Hth.
        specialize (Hcnt theta Hth). unfold Nat.le in *.
        destruct (theta <? t); lia.
      * intros a Ha. apply in_app_or in Ha. destruct Ha as [Ha|[<-|[]]];
          [specialize (Hle a Ha); cbn; lia | cbn; lia].
      * intros e He. apply in_app_or in He. destruct He as [He|[<-|[]]].
        -- apply prune_subset in He. specialize (Hctr e He). lia.
        -- cbn. lia.
    + intros T. unfold accepted_within. rewrite filter_length_snoc.
      destruct ((T - window * 1000 <? t) && (t <=? T)) eqn:Hin.
      * apply andb_true_iff in Hin. destruct Hin as [H1 H2].
        apply Z.ltb_lt in H1. apply Z.leb_le in H2.
        pose proof (filter_length_implied
          (fun a => (T - window * 1000 <? a) && (a <=? T))
          (fun a => t - window * 1000 <? a) accepted) as Hsub.
        assert (Himp : forall x,
          (T - window * 1000 <? x) && (x <=? T) = true ->
          (t - window * 1000 <? x) = true).
        { intros x Hx. apply andb_true_iff in Hx. destruct Hx as [Hx _].
          apply Z.ltb_lt in Hx. apply Z.ltb_lt. lia. }
        specialize (Hsub Himp).
        assert (Hth : t - window * 1000 <= t - window * 1000) by lia.
        specialize (Hcnt (t - window * 1000) Hth). unfold Nat.le in Hcnt.
        pose proof (filter_length_total
          (fun e : (Z * Z) * Z => t - window * 1000 <? snd e) zs) as Htot.
        assert (Hz : List.filter (fun e : (Z * Z) * Z => t - window * 1000 <? snd e) zs
                     = List.filter (fun e => t - window * 1000 <? snd e) (zset st1)).
        { unfold zs. apply prune_counts. lia. }
        rewrite Hz in Htot. unfold zcard in Hroom. lia.
      * specialize (Hsafe T). unfold accepted_within in Hsafe. lia.
Qed.

Lemma accepted_times_cons t ts o outs :
  accepted_times (t :: ts) (o :: outs) =
    ((if o then [t] else []) ++ accepted_times ts outs)%list.
Proof. unfold accepted_times. cbn. now destruct o. Qed.

Lemma requests_safe (identifier : string) (ts : list Z) :
  forall (redis : gmap string KeyState) accepted last,
    remembers window (default fresh (redis !! key_of identifier)) accepted last ->
    in_order last ts ->
    (forall T, accepted_within window T accepted <= limit) ->
    forall T,
      accepted_within window T
        (accepted ++
           accepted_times ts (snd (requests redis identifier limit window ts)))
      <= limit.
Proof.
  induction ts as [|t ts IH]; intros redis accepted last Hrem Hord Hsafe T.
  - cbn. rewrite app_nil_r. apply Hsafe.
  - destruct Hord as [Hlast Hord].
    rewrite requests_cons. cbn [snd]. rewrite accepted_times_cons.
    unfold rateLimit.
    pose proof (script_remembers _ accepted last t Hrem Hlast Hsafe) as Hstep.
    destruct (rateLimitScript (default fresh (redis !! key_of identifier)) t
                window limit) as [st' res].
    cbn [fst snd rl_success] in *. destruct Hstep as [Hrem' Hsafe'].
    rewrite app_assoc.
    apply (IH (<[key_of identifier := st']> redis)
              (accepted ++ (if fst res =? 1 then [t] else []))%list t).
    + rewrite lookup_insert_eq. cbn.
      destruct (fst res =? 1); [exact Hrem'|now rewrite app_nil_r].
    + exact Hord.
    + destruct (fst res =? 1); [exact Hsafe'|now rewrite app_nil_r].
Qed.

End RateLimitSafety.

(** X5. The limit is never exceeded: for requests of one identifier made in
    the order of their times, starting from a key Redis does not hold, no
    window of [W] seconds contains more than [N] accepted requests, whatever
    the number of requests and of refusals in between. *)
Theorem rate_limit_never_exceeded
    (redis : gmap string RateLimit.KeyState) (identifier : string)
    (N W : Z) (t1 : Z) (ts : list Z) (T : Z) :
  redis !! RateLimit.key_of identifier = None ->
  0 <= N ->
  in_order t1 ts ->
  accepted_within W T
    (accepted_times (t1 :: ts)
       (snd (RateLimit.requests redis identifier N W (t1 :: ts)))) <= N.
Proof.
  intros Hfresh HN Hord.
  apply (requests_safe N W identifier (t1 :: ts) redis [] t1).
  - rewrite Hfresh. repeat split; cbn; intros; try contradiction; lia.
  - split; [lia | exact Hord].
  - intros T'. cbn. exact HN.
Qed.

Lemma rate_limit_never_exceeded_witness :
  accepted_within 60 61500
    (accepted_times [1000; 2000; 3000; 61000; 61001; 62000]
       (snd (RateLimit.requests ∅ "u" 2 60
               [1000; 2000; 3000; 61000; 61001; 62000]))) <= 2.
Proof.
  apply (rate_limit_never_exceeded ∅ "u" 2 60 1000
           [2000; 3000; 61000; 61001; 62000] 61500).
  - reflexivity.
  - lia.
  - cbn. lia.
Defined.

Lemma append_inj_prefix (p a b : string) : p ++ a = p ++ b -> a = b.
Proof.
  induction p as [|c p IH]; [trivial|].
  change (String c p ++ a) with (String c (p ++ a)).
  change (String c p ++ b) with (String c (p ++ b)).
  intros [= H]. now apply IH.
Qed.

(** ** The rate limiter on the keys of Redis *)

Section RedisKeys.
Import Redis.

Lemma confined_done {A : Type} (K : string -> Prop) (a : A) :
  confined K (done a).
Proof. split; [reflexivity|]. intros db1 db2 H. now split. Qed.

Lemma confined_and_then {A B : Type} (K : string -> Prop) (c : Command A)
    (k : A -> Command B) :
  confined K c -> (forall a, confined K (k a)) -> confined K (and_then c k).
Proof.
  intros [Hf Hl] Hk. split.
  - intros db x Hx. unfold and_then. specialize (Hf db x Hx).
    destruct (c db) as [db' [a|e]]; cbn [fst] in *.
    + destruct (Hk a) as [Hf' _]. now rewrite Hf'.
    + exact Hf.
  - intros db1 db2 Hag. unfold and_then.
    destruct (Hl db1 db2 Hag) as [Hr Hag'].
    destruct (c db1) as [db1' r1], (c db2) as [db2' r2]. cbn [fst snd] in *.
    subst r2. destruct r1 as [a|e]; [|now split].
    destruct (Hk a) as [_ Hl']. now apply Hl'.
Qed.

Lemma purge_other now key db k : k <> key -> purge now key db !! k = db !! k.
Proof.
  intros Hne. unfold purge.
  destruct (db !! key) as [[v [t|]]|]; try reflexivity.
  destruct (t <=? now); [|reflexivity].
  now apply lookup_delete_ne.
Qed.

Lemma purge_key now key db1 db2 :
  db1 !! key = db2 !! key ->
  purge now key db1 !! key = purge now key db2 !! key.
Proof.
  intros H. unfold purge. rewrite <- H.
  destruct (db1 !! key) as [[v [t|]]|] eqn:Hk; try (now rewrite <- H).
  destruct (t <=? now); [|congruence].
  now rewrite !lookup_delete_eq.
Qed.

Ltac lookups :=
  repeat first
    [ rewrite lookup_insert_eq
    | rewrite lookup_delete_eq
    | rewrite lookup_insert_ne by congruence
    | rewrite lookup_delete_ne by congruence ].

(** A command on one key is confined to a set that holds the key. *)
Ltac one_key now key K HK :=
  split;
  [ intros db k Hk;
    assert (Hne : k <> key) by (intros ->; now apply Hk);
    assert (Hne' : key <> k) by congruence;
    rewrite <- (purge_other now key db k Hne);
    destruct (purge now key db !! key) as [[[zs|n|] ttl]|];
    cbn [fst]; repeat (match goal with |- context [if ?b then _ else _] => destruct b
                                     | |- context [match ?l with [] => _ | _ :: _ => _ end] => destruct l end);
    cbn [fst]; lookups; reflexivity
  | intros db1 db2 Hag;
    pose proof (purge_key now key db1 db2 (Hag key HK)) as Hp;
    assert (Ho : forall k, K k -> k <> key ->
                   purge now key db1 !! k = purge now key db2 !! k)
      by (intros k Hk Hne; rewrite !purge_other by exact Hne; now apply Hag);
    destruct (purge now key db1 !! key) as [[[zs|n|] ttl]|] eqn:H1;
    rewrite <- Hp;
    repeat (match goal with |- context [if ?b then _ else _] => destruct b
                          | |- context [match ?l with [] => _ | _ :: _ => _ end] => destruct l end);
    cbn [fst snd]; (split; [reflexivity|]);
    intros k Hk; destruct (decide (k = key)) as [->|Hne];
    lookups; auto; congruence ].

Lemma confined_ZREMRANGEBYSCORE (K : string -> Prop) now key lo hi :
  K key -> confined K (ZREMRANGEBYSCORE now key lo hi).
Proof. intros HK. unfold ZREMRANGEBYSCORE. one_key now key K HK. Qed.

Lemma confined_ZCARD (K : string -> Prop) now key :
  K key -> confined K (ZCARD now key).
Proof. intros HK. unfold ZCARD. one_key now key K HK. Qed.

Lemma confined_INCR (K : string -> Prop) now key :
  K key -> confined K (INCR now key).
Proof. intros HK. unfold INCR. one_key now key K HK. Qed.

Lemma confined_ZADD (K : string -> Prop) now key score member :
  K key -> confined K (ZADD now key score member).
Proof. intros HK. unfold ZADD. one_key now key K HK. Qed.

Lemma confined_EXPIRE (K : string -> Prop) now key seconds :
  K key -> confined K (EXPIRE now key seconds).
Proof. intros HK. unfold EXPIRE. one_key now key K HK. Qed.

Lemma confined_script identifier now window limit :
  confined (keys_of identifier)
    (rateLimitScript (RateLimit.key_of identifier) now window limit).
Proof.
  unfold rateLimitScript.
  apply confined_and_then;
    [apply confined_ZREMRANGEBYSCORE; now left|]. intros _.
  apply confined_and_then; [apply confined_ZCARD; now left|].
  intros currentCount.
  destruct (limit <=? currentCount); [apply confined_done|].
  apply confined_and_then; [apply confined_INCR; now right|]. intros n.
  apply confined_and_then; [apply confined_ZADD; now left|]. intros _.
  apply confined_and_then; [apply confined_EXPIRE; now left|]. intros _.
  apply confined_done.
Qed.

Lemma rateLimit_frame db identifier limit window now k :
  ~ keys_of identifier k ->
  fst (rateLimit db identifier limit window now) !! k = db !! k.
Proof.
  intros Hk. unfold rateLimit.
  destruct (confined_script identifier now window limit) as [Hf _].
  specialize (Hf db k Hk).
  now destruct (rateLimitScript _ _ _ _ db) as [db' [r|e]].
Qed.

Lemma rateLimit_local db1 db2 identifier limit window now :
  agree (keys_of identifier) db1 db2 ->
  snd (rateLimit db1 identifier limit window now) =
  snd (rateLimit db2 identifier limit window now).
Proof.
  intros Hag. unfold rateLimit.
  destruct (confined_script identifier now window limit) as [_ Hl].
  destruct (Hl db1 db2 Hag) as [Hr _].
  destruct (rateLimitScript _ _ _ _ db1) as [db1' r1],
           (rateLimitScript _ _ _ _ db2) as [db2' r2].
  cbn [snd] in Hr. subst r2. now destruct r1.
Qed.

Lemma requests_frame identifier limit window ts k :
  ~ keys_of identifier k ->
  forall db, requests db identifier limit window ts !! k = db !! k.
Proof.
  intros Hk. induction ts as [|t ts IH]; intros db; [reflexivity|].
  cbn [requests]. rewrite IH. now apply rateLimit_frame.
Qed.

Lemma append_length (a b : string) :
  String.length (a ++ b) = (String.length a + String.length b)%nat.
Proof.
  induction a as [|c a IH]; [reflexivity|].
  change (String c a ++ b) with (String c (a ++ b)).
  cbn [String.length]. now rewrite IH.
Qed.

Lemma append_inj_suffix (c a b : string) : a ++ c = b ++ c -> a = b.
Proof.
  revert b. induction a as [|x a IH]; intros [|y b] H.
  - reflexivity.
  - apply (f_equal String.length) in H.
    rewrite !append_length in H. cbn [String.length] in H. lia.
  - apply (f_equal String.length) in H.
    rewrite !append_length in H. cbn [String.length] in H. lia.
  - change (String x a ++ c) with (String x (a ++ c)) in H.
    change (String y b ++ c) with (String y (b ++ c)) in H.
    injection H as -> H. f_equal. now apply IH.
Qed.

Lemma append_assoc (a b c : string) : (a ++ b) ++ c = a ++ (b ++ c).
Proof.
  induction a as [|x a IH]; [reflexivity|].
  change ((String x a ++ b) ++ c) with (String x ((a ++ b) ++ c)).
  now rewrite IH.
Qed.

(** The keys of two identifiers are apart when neither identifier is the
    other, or the other followed by [:counter]. *)
Lemma keys_apart (a b : string) :
  a <> b -> a <> b ++ ":counter" -> b <> a ++ ":counter" ->
  forall k, keys_of b k -> ~ keys_of a k.
Proof.
  intros Hab Ha Hb k [->| ->] [H|H]; unfold RateLimit.key_of in H.
  - apply append_inj_prefix in H. congruence.
  - rewrite append_assoc in H. apply append_inj_prefix in H. congruence.
  - rewrite append_assoc in H. apply append_inj_prefix in H. congruence.
  - apply append_inj_suffix in H. apply append_inj_prefix in H. congruence.
Qed.

(** X6. Identifiers are limited independently, provided their keys are
    apart: whatever requests an identifier [a] has made, with whatever
    limit and window and whatever Redis held, the outcome of a request for
    [b] (accepted, refused or failed, and the remaining count) is the one
    it would have had without them, when [a] and [b] differ and neither is
    the other followed by [:counter]. *)
Theorem rate_limit_identifiers_independent
    (db : gmap string Redis.Entry) (a b : string)
    (Na Wa : Z) (ts : list Z) (Nb Wb now : Z) :
  a <> b -> a <> b ++ ":counter" -> b <> a ++ ":counter" ->
  snd (Redis.rateLimit (Redis.requests db a Na Wa ts) b Nb Wb now) =
  snd (Redis.rateLimit db b Nb Wb now).
Proof.
  intros Hab Ha Hb. apply rateLimit_local.
  intros k Hk. apply requests_frame.
  now apply (keys_apart a b).
Qed.

End RedisKeys.

Lemma rate_limit_identifiers_independent_witness :
  snd (Redis.rateLimit
         (Redis.requests ∅ "device_command:user-a" 1 3600 [1000; 2000])
         "device_command:user-b" 1 3600 3000) =
  snd (Redis.rateLimit ∅ "device_command:user-b" 1 3600 3000).
Proof.
  apply (rate_limit_identifiers_independent ∅ "device_command:user-a"
           "device_command:user-b" 1 3600 [1000; 2000] 1 3600 3000);
    discriminate.
Defined.

(** Identifiers whose keys meet are not independent: the counter of [u]
    lies under the key of the sorted set of [u:counter].  After one
    request for [u], a request for [u:counter], which Redis would
    otherwise accept, fails on a value of the wrong kind. *)
Lemma rate_limit_colliding_identifiers :
  snd (Redis.rateLimit ∅ "u:counter" 10 60 2000) =
    Ok (RateLimit.mkRateLimitResult true 9) /\
  snd (Redis.rateLimit (Redis.requests ∅ "u" 10 60 [1000])
         "u:counter" 10 60 2000) = Throw Redis.WRONGTYPE.
Proof. split; vm_compute; reflexivity. Qed.

Section RedisRefines.
Import Redis.

Lemma counter_key_differs (key : string) : key ++ ":counter" <> key.
Proof.
  intros H. apply (f_equal String.length) in H.
  revert H. induction key as [|c key IH]; [discriminate|].
  change (String c key ++ ":counter") with (String c (key ++ ":counter")).
  cbn [String.length]. intros [= H]. now apply IH.
Qed.

Lemma zadd_not_empty score m zs : RateLimit.zadd score m zs <> [].
Proof.
  unfold RateLimit.zadd. destruct (existsb _ zs) eqn:Hex.
  - destruct zs; [discriminate|]. discriminate.
  - now destruct zs.
Qed.

(** What the commands do to a key that has not expired. *)
Lemma purge_live now key db :
  match db !! key with
  | Some (mkEntry _ (Some t)) => now < t
  | _ => True
  end ->
  purge now key db = db.
Proof.
  unfold purge. destruct (db !! key) as [[v [t|]]|]; try reflexivity.
  intros H. destruct (Z.leb_spec t now); [lia | reflexivity].
Qed.

(** X9. The state that [RateLimit] keeps for an identifier is what Redis
    holds under its two keys.  When the keys hold that state (the sorted
    set with its expiry under [key], or nothing for an empty set; the
    counter, below the greatest 64-bit integer, under [key:counter], or
    nothing for 0) and the window is positive, the script run on Redis
    succeeds, returns what [RateLimit.rateLimitScript] returns, and leaves
    under the two keys the state that [RateLimit.rateLimitScript] leaves. *)
Theorem rate_limit_state_is_what_redis_holds
    (db : gmap string Entry) (identifier : string)
    (st : RateLimit.KeyState) (limit window now : Z) :
  0 < window ->
  RateLimit.counter st < 2 ^ 63 - 1 ->
  holds db identifier st ->
  exists db',
    rateLimitScript (RateLimit.key_of identifier) now window limit db
      = (db', Ok (snd (RateLimit.rateLimitScript st now window limit))) /\
    holds db' identifier (fst (RateLimit.rateLimitScript st now window limit)).
Proof.
  intros Hw Hmax [Hkey Hctr].
  set (key := RateLimit.key_of identifier) in *.
  pose proof (counter_key_differs key) as Hne.
  assert (Hne' : key <> key ++ ":counter") by congruence.
  unfold rateLimitScript, RateLimit.rateLimitScript. cbv zeta.
  set (ws := now - window * 1000).
  (* the sorted set after the expiry and the pruning *)
  assert (Hcounter : RateLimit.counter (RateLimit.expire now st)
                     = RateLimit.counter st).
  { unfold RateLimit.expire. destruct (RateLimit.expireAt st) as [e|];
      [|reflexivity]. now destruct (e <=? now). }
  remember (RateLimit.expire now st) as st1 eqn:Hst1.
  remember (RateLimit.zremrangebyscore 0 ws (RateLimit.zset st1)) as zs1
    eqn:Hzs1.
  assert (Hstep1 : exists db1,
    ZREMRANGEBYSCORE now key 0 ws db =
      (db1, Ok (RateLimit.zcard (RateLimit.zset st1) - RateLimit.zcard zs1)) /\
    db1 !! (key ++ ":counter") = db !! (key ++ ":counter") /\
    db1 !! key =
      match zs1 with
      | [] => None
      | _ :: _ => Some (mkEntry (SortedSet zs1) (RateLimit.expireAt st1))
      end /\
    (zs1 <> [] -> forall t, RateLimit.expireAt st1 = Some t -> now < t)).
  { clear Hcounter. unfold ZREMRANGEBYSCORE, purge. subst zs1 st1.
    unfold RateLimit.expire.
    destruct (db !! key) as [[[zs| |] ttl]|] eqn:Hk; try contradiction.
    - destruct Hkey as (Hzs & Hset & Httl). rewrite Httl.
      destruct ttl as [t|].
      + destruct (Z.leb_spec t now) as [Hexp|Hlive].
        * cbn [RateLimit.zset RateLimit.expireAt].
          rewrite lookup_delete_eq. eexists. split; [reflexivity|].
          split; [now apply lookup_delete_ne|].
          split; [apply lookup_delete_eq|]. intros H. now contradiction H.
        * rewrite Hk, Hset.
          destruct (RateLimit.zremrangebyscore 0 ws zs) eqn:Hz.
          -- eexists. split; [reflexivity|].
             split; [now apply lookup_delete_ne|].
             split; [apply lookup_delete_eq|]. intros H. now contradiction H.
          -- eexists. split; [reflexivity|].
             split; [now apply lookup_insert_ne|].
             split; [rewrite lookup_insert_eq; now rewrite Httl|].
             rewrite Httl. intros _ t0 [= <-]. exact Hlive.
      + rewrite Hk, Hset.
        destruct (RateLimit.zremrangebyscore 0 ws zs) eqn:Hz.
        -- eexists. split; [reflexivity|].
           split; [now apply lookup_delete_ne|].
           split; [apply lookup_delete_eq|]. intros H. now contradiction H.
        -- eexists. split; [reflexivity|].
           split; [now apply lookup_insert_ne|].
           split; [rewrite lookup_insert_eq; now rewrite Httl|].
           rewrite Httl. discriminate.
    - rewrite Hk.
      assert (Hz : RateLimit.zset
                (match RateLimit.expireAt st with
                 | Some e => if e <=? now
                             then RateLimit.mkKeyState [] None (RateLimit.counter st)
                             else st
                 | None => st
                 end) = []).
      { destruct (RateLimit.expireAt st) as [e|]; [|exact Hkey].
        destruct (e <=? now); [reflexivity | exact Hkey]. }
      rewrite Hz. cbn. eexists. split; [reflexivity|].
      split; [reflexivity|]. split; [exact Hk|]. intros H. now contradiction H. }
  destruct Hstep1 as (db1 & Hrun1 & Hc1 & Hk1 & Hlive1).
  unfold and_then at 1. rewrite Hrun1.
  (* ZCARD *)
  assert (Hpurge1 : purge now key db1 = db1).
  { apply purge_live. rewrite Hk1. destruct zs1 eqn:Hz; [exact I|].
    destruct (RateLimit.expireAt st1) as [t|] eqn:Ht; [|exact I].
    apply Hlive1; [discriminate | reflexivity]. }
  unfold and_then at 1. unfold ZCARD at 1. rewrite Hpurge1, Hk1.
  rewrite Hcounter. clear Hst1 Hzs1 Hrun1.
  assert (Hcard : match
             match zs1 with
             | [] => None
             | _ :: _ =>
                 Some (mkEntry (SortedSet zs1) (RateLimit.expireAt st1))
             end
           with
           | Some (mkEntry (SortedSet zs) _) => (db1, Ok (RateLimit.zcard zs))
           | None => (db1, Ok 0)
           | Some _ => (db1, Throw WRONGTYPE)
           end = (db1, Ok (RateLimit.zcard zs1))) by now destruct zs1.
  rewrite Hcard. clear Hcard.
  destruct (limit <=? RateLimit.zcard zs1).
  { exists db1. split; [reflexivity|]. cbn [fst]. unfold holds. fold key.
    rewrite Hk1, Hc1. cbn [RateLimit.zset RateLimit.expireAt RateLimit.counter].
    split; [|exact Hctr]. destruct zs1; [reflexivity|].
    split; [discriminate|]. split; reflexivity. }
  cbn [fst snd].
  (* INCR *)
  set (n := RateLimit.counter st) in *.
  assert (Hstep3 : exists db2,
    INCR now (key ++ ":counter") db1 = (db2, Ok (n + 1)) /\
    db2 !! (key ++ ":counter") = Some (mkEntry (Integer (n + 1)) None) /\
    db2 !! key = db1 !! key).
  { unfold INCR, purge. rewrite Hc1.
    destruct (db !! (key ++ ":counter")) as [[[|m|] [|]]|] eqn:Hc;
      try contradiction.
    - rewrite Hc1. rewrite <- Hctr.
      destruct (Z.ltb_spec n (2 ^ 63 - 1)); [|lia].
      eexists. split; [reflexivity|].
      split; [apply lookup_insert_eq | now apply lookup_insert_ne].
    - rewrite Hc1. rewrite Hctr. eexists. split; [reflexivity|].
      split; [apply lookup_insert_eq | now apply lookup_insert_ne]. }
  destruct Hstep3 as (db2 & Hrun3 & Hc2 & Hk2).
  unfold and_then at 1. rewrite Hrun3.
  (* ZADD *)
  assert (Hpurge2 : purge now key db2 = db2).
  { apply purge_live. rewrite Hk2, Hk1. destruct zs1 eqn:Hz; [exact I|].
    destruct (RateLimit.expireAt st1) as [t|] eqn:Ht; [|exact I].
    apply Hlive1; [discriminate | reflexivity]. }
  assert (Hstep4 : exists db3 added ttl,
    ZADD now key now (now, n + 1) db2 = (db3, Ok added) /\
    db3 !! key =
      Some (mkEntry (SortedSet (RateLimit.zadd now (now, n + 1) zs1)) ttl) /\
    db3 !! (key ++ ":counter") = db2 !! (key ++ ":counter") /\
    (forall t, ttl = Some t -> now < t)).
  { unfold ZADD. rewrite Hpurge2, Hk2, Hk1. destruct zs1 as [|z zs1].
    - eexists _, _, _. split; [reflexivity|].
      split; [apply lookup_insert_eq|].
      split; [now apply lookup_insert_ne | discriminate].
    - eexists _, _, _. split; [reflexivity|].
      split; [apply lookup_insert_eq|].
      split; [now apply lookup_insert_ne|].
      intros t Ht. now apply Hlive1. }
  destruct Hstep4 as (db3 & added & ttl & Hrun4 & Hk3 & Hc3 & Hlive3).
  unfold and_then at 1. rewrite Hrun4.
  (* EXPIRE *)
  unfold and_then, EXPIRE, done.
  assert (Hpurge3 : purge now key db3 = db3).
  { apply purge_live. rewrite Hk3. destruct ttl as [t|]; [|exact I].
    now apply Hlive3. }
  rewrite Hpurge3, Hk3.
  destruct (Z.leb_spec window 0); [lia|].
  eexists. split; [reflexivity|].
  unfold holds. fold key.
  rewrite lookup_insert_eq, lookup_insert_ne by exact Hne'.
  rewrite Hc3, Hc2.
  cbn [RateLimit.zset RateLimit.expireAt RateLimit.counter].
  split; [|reflexivity].
  split; [apply zadd_not_empty|]. split; reflexivity.
Qed.

End RedisRefines.

Lemma rate_limit_state_is_what_redis_holds_witness :
  exists db',
    Redis.rateLimitScript (RateLimit.key_of "u") 1000 60 3 ∅
      = (db', Ok (1, 2)) /\
    Redis.holds db' "u"
      (RateLimit.mkKeyState [((1000, 1), 1000)] (Some 61000) 1).
Proof.
  apply (rate_limit_state_is_what_redis_holds ∅ "u" RateLimit.fresh 3 60 1000).
  - lia.
  - cbn. lia.
  - split; reflexivity.
Defined.

Lemma requests_remaining_live (N W T B : Z) (identifier : string) (ts : list Z) :
  forall (redis : gmap string RateLimit.KeyState) (k : nat),
    RateLimit.live W T B
      (default RateLimit.fresh (redis !! RateLimit.key_of identifier)) ->
    RateLimit.zcard (RateLimit.zset
      (default RateLimit.fresh (redis !! RateLimit.key_of identifier)))
      = Z.of_nat k ->
    Z.of_nat k + Z.of_nat (length ts) <= N ->
    (forall ti, In ti ts -> T - W * 1000 < ti <= T /\ ti + W * 1000 <= B) ->
    requests_remaining redis identifier N W ts =
      List.map (fun i => N - 1 - Z.of_nat i) (List.seq k (length ts)).
Proof.
  induction ts as [|t ts IH]; intros redis k Hl Hk Hc Hts; [reflexivity|].
  assert (Ht : T - W * 1000 < t <= T /\ t + W * 1000 <= B)
    by (apply Hts; now left).
  cbn [requests_remaining length List.seq List.map]. unfold RateLimit.rateLimit.
  cbn [length] in Hc.
  rewrite (script_accept N W T B) by (tauto || lia).
  cbn [snd RateLimit.remaining]. rewrite Hk. f_equal; [lia|].
  apply IH.
  - rewrite lookup_insert_eq. cbn. apply script_accept_live; tauto.
  - rewrite lookup_insert_eq. unfold RateLimit.zcard in *. cbn.
    rewrite length_app. cbn. lia.
  - lia.
  - intros ti Hi. apply Hts. now right.
Qed.

(** The remaining count is honest while the window fills: from a key
    Redis does not hold, requests that all lie within one window of [W]
    seconds and do not outnumber the limit [N] are answered with the
    counts [N - 1], [N - 2], ... in turn, so the [N]th gets 0. *)
Theorem rate_limit_remaining_counts_down
    (redis : gmap string RateLimit.KeyState) (identifier : string)
    (N W T : Z) (ts : list Z) :
  redis !! RateLimit.key_of identifier = None ->
  Z.of_nat (length ts) <= N ->
  (forall ti, In ti ts -> T - W * 1000 < ti <= T) ->
  requests_remaining redis identifier N W ts =
    List.map (fun i => N - 1 - Z.of_nat i) (List.seq 0 (length ts)).
Proof.
  intros Hfresh Hlen Hin.
  apply (requests_remaining_live N W T (T + W * 1000)).
  - rewrite Hfresh. apply live_fresh.
  - now rewrite Hfresh.
  - lia.
  - intros ti Hi. specialize (Hin ti Hi). lia.
Qed.

Lemma rate_limit_remaining_counts_down_witness :
  requests_remaining ∅ "u" 3 60 [1000; 2000; 2500] = [2; 1; 0].
Proof.
  apply (rate_limit_remaining_counts_down ∅ "u" 3 60 3000 [1000; 2000; 2500]).
  - reflexivity.
  - cbn. lia.
  - cbn. intros ti [<-|[<-|[<-|[]]]]; lia.
Defined.

Lemma find_existsb {A : Type} (p q : A -> bool) (l : list A) (x : A) :
  List.find p l = Some x -> q x = true -> List.existsb q l = true.
Proof.
  intros Hf Hq. apply List.find_some in Hf. apply List.existsb_exists.
  exists x. tauto.
Qed.

Section DeviceLocationMore.
Import DeviceLocation.

Variable verify : string -> option AuthUser.
Variable isDatetime : string -> bool.

(** X7. A location report that is not answered with success has written
    nothing: whether authentication, the body, the schema, the device
    lookup or the command lookup stopped it, the store and the cache are
    as they were. *)
Theorem location_failure_writes_nothing
    (now : Z) (authHeader : option string) (body : Body) (w : World) :
  success (snd (POST verify isDatetime now authHeader body w)) = false ->
  fst (POST verify isDatetime now authHeader body w) = w.
Proof.
  destruct (POST verify isDatetime now authHeader body w) as [w' r] eqn:HP.
  revert HP. unfold POST, try_catch, POST_body.
  unfold bind at 1. unfold lift at 1.
  destruct (Auth.verifyAuth verify authHeader) as [user|e];
    [|now intros [= <- <-]].
  unfold bind at 1.
  destruct body as [j|]; [|now intros [= <- <-]].
  cbn [body_of request_json ret].
  unfold bind at 1. unfold lift at 1.
  destruct (LocationSchema isDatetime j) as [validated|e];
    [|now intros [= <- <-]].
  unfold bind at 1. unfold device_findFirst, get at 1.
  destruct (find _ (devices w)) as [device|];
    [|now intros [= <- <-]].
  unfold bind at 1. unfold antiTheftCommand_findFirst, get at 1.
  destruct (find _ (commands w)) as [command|] eqn:Hcmd;
    [|now intros [= <- <-]].
  unfold bind, antiTheftCommand_update.
  rewrite (find_existsb _ (fun c => String.eqb (cmd_id c) (cmd_id command))
             _ _ Hcmd) by apply String.eqb_refl.
  cbn [ret]. intros [= <- <-]. cbn. discriminate.
Qed.

End DeviceLocationMore.

Lemma location_failure_writes_nothing_witness :
  fst (DeviceLocation.POST Examples.verify Examples.any_datetime 5000
         (Some "Bearer token-b") (Some Examples.fix_body)
         Examples.world_pending)
  = Examples.world_pending.
Proof.
  apply (location_failure_writes_nothing Examples.verify Examples.any_datetime
           5000 (Some "Bearer token-b") (Some Examples.fix_body)
           Examples.world_pending).
  vm_compute. reflexivity.
Defined.

Section DeviceRegisterMore.
Import DeviceRegister.

Variable verify : string -> option AuthUser.

Lemma register_error_not_200 (e : Exn) : status (status_error e) <> 200.
Proof.
  unfold status_error. destruct (isZodError e); [discriminate|].
  destruct (_ || _); discriminate.
Qed.

(** X8. No registration goes through.  The upsert of the device hands the
    platform of the request, [ios] or [android], to a column that holds
    [IOS] or [ANDROID], and the store refuses it: whatever the token, the
    body and the state of the store, the request is answered with a status
    other than 200, and no table is written. *)
Theorem register_never_succeeds
    (redisUp : bool) (newId newTokenId : string) (now : Z)
    (authHeader : option string) (body : Body) (w : World) :
  status (snd (POST verify redisUp newId newTokenId now authHeader body w))
    <> 200 /\
  tables_of (fst (POST verify redisUp newId newTokenId now authHeader body w))
    = tables_of w.
Proof.
  destruct (POST verify redisUp newId newTokenId now authHeader body w)
    as [w' resp] eqn:HP.
  cbn [fst snd]. revert HP.
  unfold POST, try_catch, POST_body.
  unfold bind at 1. unfold lift at 1.
  destruct (Auth.verifyAuth verify authHeader) as [user|e].
  2:{ intros [= <- <-]. split; [apply register_error_not_200 | reflexivity]. }
  unfold bind at 1. unfold rateLimitM.
  destruct redisUp.
  2:{ intros [= <- <-]. split; [apply register_error_not_200 | reflexivity]. }
  destruct (RateLimit.rateLimit _ _ _ _ _) as [keys r].
  destruct (RateLimit.rl_success r); cbn [negb].
  2:{ intros [= <- <-]. split; [discriminate | reflexivity]. }
  unfold bind at 1.
  destruct body as [j|m]; cbn [request_json ret throw].
  2:{ intros [= <- <-]. split; [apply register_error_not_200 | reflexivity]. }
  unfold bind at 1. unfold lift at 1.
  destruct (RegisterDeviceSchema j) as [validated|e].
  2:{ intros [= <- <-]. split; [apply register_error_not_200 | reflexivity]. }
  unfold bind at 1. unfold device_upsert at 1. cbn [dev_platform].
  rewrite platform_text_refused. cbn [negb].
  intros [= <- <-]. split; [discriminate | reflexivity].
Qed.

End DeviceRegisterMore.

Section EmailLoginMore.
Import EmailLogin.

Variable limit : string -> bool.
Variable isEmail : string -> bool.
Variable compare : string -> string -> bool.
Variable sign : string -> string -> string.
Variable toISOString : Z -> string.

Lemma login_error_not_200 (e : Exn) : status (status_error e) <> 200.
Proof. destruct e; discriminate. Qed.

(** X10. No login changes the binding of a device: whatever the request
    and however it ends, the device rows that existed keep their id, their
    hardware id and their owner, at most one row is added, and no push
    token and no command is touched. *)
Theorem login_keeps_device_bindings
    (newId : string) (now : Z) (headers : Headers) (body : Body)
    (w : World) :
  exists extra,
    List.map DeviceRegister.binding
      (devices (fst (POST limit isEmail compare sign toISOString newId now
                       headers body w)))
    = (List.map DeviceRegister.binding (devices w) ++ extra)%list /\
    (List.length extra <= 1)%nat /\
    pushTokens (fst (POST limit isEmail compare sign toISOString newId now
                       headers body w)) = pushTokens w /\
    commands (fst (POST limit isEmail compare sign toISOString newId now
                     headers body w)) = commands w.
Proof.
  assert (Hsame : forall w0 : World,
            devices w0 = devices w -> pushTokens w0 = pushTokens w ->
            commands w0 = commands w ->
            exists extra,
              List.map DeviceRegister.binding (devices w0)
              = (List.map DeviceRegister.binding (devices w) ++ extra)%list /\
              (List.length extra <= 1)%nat /\
              pushTokens w0 = pushTokens w /\ commands w0 = commands w).
  { intros w0 -> -> ->. exists []. rewrite app_nil_r. cbn. auto. }
  destruct (POST limit isEmail compare sign toISOString newId now headers body w)
    as [w' r] eqn:HP.
  cbn [fst]. revert HP. unfold POST.
  destruct (negb (limit (identifier_of headers)));
    [intros [= <- <-]; now apply Hsame|].
  unfold try_catch, POST_body.
  unfold bind at 1.
  destruct body as [j|m]; [|intros [= <- <-]; now apply Hsame].
  cbn [request_json ret].
  unfold bind at 1. unfold lift at 1.
  destruct (EmailLoginSchema isEmail j) as [validated|e];
    [|intros [= <- <-]; now apply Hsame].
  unfold bind at 1. unfold get at 1.
  destruct (List.find _ (users w)) as [user|];
    [|intros [= <- <-]; now apply Hsame].
  destruct (u_passwordHash user) as [passwordHash|];
    [|intros [= <- <-]; now apply Hsame].
  destruct (negb (truthy passwordHash));
    [intros [= <- <-]; now apply Hsame|].
  destruct (negb (compare (v_password validated) passwordHash));
    [intros [= <- <-]; now apply Hsame|].
  unfold bind at 1. unfold modify at 1.
  set (w1 := set_users _ w).
  set (upd := fun d : Device => mkDevice _ _ _ _ _ _ _ _ _).
  set (create := mkDevice _ _ _ _ _ _ _ _ _).
  assert (Hupd : forall d, DeviceRegister.binding (upd d) = DeviceRegister.binding d)
    by reflexivity.
  destruct (device_upsert_keeps (di_deviceId (v_deviceInfo validated))
              upd create w1 Hupd) as (Hpt & _ & _).
  assert (Hdev : exists extra,
            List.map DeviceRegister.binding
              (devices (fst (device_upsert (di_deviceId (v_deviceInfo validated))
                               upd create w1)))
            = (List.map DeviceRegister.binding (devices w) ++ extra)%list /\
            (List.length extra <= 1)%nat).
  { unfold device_upsert. change (devices w1) with (devices w).
    destruct (negb (Platform_value (dev_platform create))).
    { cbn [fst]. change (devices w1) with (devices w).
      exists []. rewrite app_nil_r. split; [reflexivity | cbn; lia]. }
    destruct (List.find _ (devices w)).
    - cbn [fst devices set_devices]. exists []. rewrite app_nil_r.
      split; [|cbn; lia]. change (devices w1) with (devices w).
      now apply map_binding_update.
    - destruct (List.existsb _ (devices w)); cbn [fst devices set_devices].
      + exists []. rewrite app_nil_r. split; [reflexivity | cbn; lia].
      + exists [DeviceRegister.binding create].
        change (devices w1) with (devices w).
        rewrite List.map_app. split; [reflexivity | cbn; lia]. }
  assert (Hcmd : commands (fst (device_upsert (di_deviceId (v_deviceInfo validated))
                                  upd create w1)) = commands w).
  { unfold device_upsert.
    destruct (negb (Platform_value (dev_platform create))); [reflexivity|].
    destruct (List.find _ (devices w1)); [reflexivity|].
    now destruct (List.existsb _ (devices w1)). }
  change (pushTokens w1) with (pushTokens w) in Hpt.
  unfold bind at 1.
  destruct (device_upsert _ upd create w1) as [w2 [device|e]];
    cbn [fst] in Hpt, Hdev, Hcmd.
  2:{ intros [= <- <-]. destruct Hdev as (extra & H1 & H2).
      exists extra. auto. }
  unfold bind at 1. unfold get at 1.
  destruct (List.find _ (subscriptions w2)) as [s|].
  - unfold bind, ret, telemetryLog_create, modify.
    intros [= <- <-]. destruct Hdev as (extra & H1 & H2).
    exists extra. auto.
  - unfold bind, ret, telemetryLog_create, modify.
    intros [= <- <-]. destruct Hdev as (extra & H1 & H2).
    exists extra. auto.
Qed.

(** X11. No login goes through.  The upsert of the device hands the
    platform of the request, [ios] or [android], to a column that holds
    [IOS] or [ANDROID], and the store refuses it: whatever the request and
    the state of the store, the answer has a status other than 200. *)
Theorem login_never_succeeds
    (newId : string) (now : Z) (headers : Headers) (body : Body) (w : World) :
  status (snd (POST limit isEmail compare sign toISOString newId now headers
                 body w)) <> 200.
Proof.
  unfold POST.
  destruct (negb (limit (identifier_of headers))); [discriminate|].
  unfold try_catch, POST_body.
  unfold bind at 1.
  destruct body as [j|m]; [|discriminate].
  cbn [request_json ret].
  unfold bind at 1. unfold lift at 1.
  destruct (EmailLoginSchema isEmail j) as [validated|e];
    [|apply login_error_not_200].
  unfold bind at 1. unfold get at 1.
  destruct (List.find _ (users w)) as [user|]; [|discriminate].
  destruct (u_passwordHash user) as [passwordHash|]; [|discriminate].
  destruct (negb (truthy passwordHash)); [discriminate|].
  destruct (negb (compare (v_password validated) passwordHash));
    [discriminate|].
  unfold bind at 1. unfold modify at 1.
  unfold bind at 1. unfold device_upsert at 1. cbn [dev_platform].
  rewrite platform_text_refused. discriminate.
Qed.

(** X12. A login with the right password ends in a 500: the route stamps
    the account with the time of the login, the store then refuses the
    upsert of the device, and the route answers [Login failed].  The stamp
    stays, as the route opens no transaction; nothing else is written: no
    device, no subscription, no telemetry row. *)
Theorem login_right_password_is_500
    (newId : string) (now : Z) (headers : Headers) (j : Json) (w : World)
    (validated : Validated) (user : User) (passwordHash : string) :
  limit (identifier_of headers) = true ->
  EmailLoginSchema isEmail j = Ok validated ->
  List.find (fun u => String.eqb (u_email u) (v_email validated)) (users w)
    = Some user ->
  u_passwordHash user = Some passwordHash ->
  truthy passwordHash = true ->
  compare (v_password validated) passwordHash = true ->
  POST limit isEmail compare sign toISOString newId now headers (Some j) w =
    (set_users
       (List.map (fun u =>
          if String.eqb (u_id u) (u_id user)
          then mkUser (u_id u) (u_email u) (u_name u) (u_passwordHash u) now
          else u)) w,
     json_error 500 "Login failed").
Proof.
  intros Hlimit Hparse Hu Hhash Htruthy Hcmp.
  unfold POST. rewrite Hlimit. cbn [negb].
  unfold try_catch, POST_body.
  unfold bind at 1. cbn [body_of request_json ret].
  unfold bind at 1. unfold lift at 1. rewrite Hparse.
  unfold bind at 1. unfold get at 1. rewrite Hu, Hhash, Htruthy, Hcmp.
  cbn [negb].
  unfold bind at 1. unfold modify at 1.
  unfold bind at 1. unfold device_upsert at 1. cbn [dev_platform].
  now rewrite platform_text_refused.
Qed.

End EmailLoginMore.

Lemma login_right_password_is_500_witness :
  EmailLogin.POST Examples.let_through Examples.any_email
    MoreExamples.compare0 Examples.sign0 Examples.iso0 "dev-9" 1000
    Examples.no_headers (Some MoreExamples.carol_login_body)
    MoreExamples.world_carol =
  (set_users
     (fun _ => [mkUser (u_id MoreExamples.carol) (u_email MoreExamples.carol)
                  (u_name MoreExamples.carol)
                  (u_passwordHash MoreExamples.carol) 1000])
     MoreExamples.world_carol,
   json_error 500 "Login failed").
Proof.
  rewrite (login_right_password_is_500 Examples.let_through Examples.any_email
             MoreExamples.compare0 Examples.sign0 Examples.iso0 "dev-9" 1000
             Examples.no_headers MoreExamples.carol_login_body
             MoreExamples.world_carol MoreExamples.carol_login
             MoreExamples.carol "hash:hunter2").
  - reflexivity.
  - reflexivity.
  - reflexivity.
  - reflexivity.
  - reflexivity.
  - reflexivity.
  - reflexivity.
Defined.

Lemma before_comma_app (first rest : string) :
  (forall c, In c (list_ascii_of_string first) -> c <> ","%char) ->
  EmailLogin.before_comma (first ++ String "," rest) = first.
Proof.
  induction first as [|a first IH]; intros Hno; [reflexivity|].
  change (String a first ++ String "," rest)
    with (String a (first ++ String "," rest)).
  cbn [EmailLogin.before_comma].
  destruct (Ascii.eqb a ",") eqn:Ha.
  - apply Ascii.eqb_eq in Ha. exfalso. apply (Hno a); [now left | exact Ha].
  - f_equal. apply IH. intros c Hc. apply Hno. now right.
Qed.

(** The login rate limiter is keyed by what the client sends: when
    the [x-forwarded-for] header is a comma-separated list, the identifier
    is its first entry, trimmed, whatever the rest of the list and the
    other two headers say. *)
Theorem login_identifier_first_forwarded_entry
    (first rest : string) (real client : option string) :
  (forall c, In c (list_ascii_of_string first) -> c <> ","%char) ->
  EmailLogin.identifier_of
    (EmailLogin.mkHeaders (Some (first ++ String "," rest)) real client)
  = EmailLogin.trim first.
Proof.
  intros Hno. unfold EmailLogin.identifier_of.
  cbn [EmailLogin.x_forwarded_for EmailLogin.or_else].
  assert (Ht : truthy (first ++ String "," rest) = true)
    by now destruct first.
  rewrite Ht. now rewrite before_comma_app.
Qed.

Lemma login_identifier_first_forwarded_entry_witness :
  EmailLogin.identifier_of
    (EmailLogin.mkHeaders (Some " 203.0.113.7 , 10.0.0.1") (Some "10.0.0.2")
       None)
  = "203.0.113.7".
Proof.
  apply (login_identifier_first_forwarded_entry " 203.0.113.7 " " 10.0.0.1"
           (Some "10.0.0.2") None).
  intros c Hc. cbn in Hc.
  repeat (destruct Hc as [<-|Hc]; [discriminate|]). destruct Hc.
Defined.

Section ScanReportMore.
Import ScanReport.

Variable verify : string -> option AuthUser.
Variable isDatetime : string -> bool.
Variable Date_parse : string -> Z.
Variable randomUUID : nat -> string.

(** X13. A scan report is written as a whole or not at all: a report
    that is not answered with success has left no scan log, no quarantine
    row and no telemetry row behind, also when the store refuses the scan
    log inside the transaction. *)
Theorem scan_report_failure_writes_nothing
    (newId : string) (now : Z) (authHeader : option string)
    (body : Body) (w : World) :
  success (snd (POST verify isDatetime Date_parse randomUUID newId now
                  authHeader body w)) = false ->
  fst (POST verify isDatetime Date_parse randomUUID newId now authHeader
         body w) = w.
Proof.
  destruct (POST verify isDatetime Date_parse randomUUID newId now authHeader
              body w) as [w' r] eqn:HP.
  cbn [fst snd]. revert HP. unfold POST, try_catch, POST_body.
  unfold bind at 1. unfold lift at 1.
  destruct (Auth.verifyAuth verify authHeader) as [user|e];
    [|now intros [= <- <-]].
  unfold bind at 1.
  destruct body as [j|m]; [|now intros [= <- <-]].
  cbn [request_json ret].
  unfold bind at 1. unfold lift at 1.
  destruct (ScanReportSchema isDatetime j) as [validated|e];
    [|now intros [= <- <-]].
  unfold bind at 1. unfold device_findFirst, get at 1.
  destruct (List.find _ (devices w)) as [device|];
    [|now intros [= <- <-]].
  destruct (_ <? _); [now intros [= <- <-]|].
  unfold bind at 1. unfold transaction.
  unfold bind at 1. unfold scanLog_create.
  destruct (List.existsb _ (scanLogs w)); [now intros [= <- <-]|].
  unfold bind, quarantine_createMany, telemetryLog_create, modify, ret.
  destruct (v_threats validated) as [[|t ts]|]; cbn;
    intros [= <- <-]; first [discriminate | reflexivity].
Qed.

(** X14. The scan log of an accepted report is consistent: it is the one
    row added, it has the id the response carries, a completion time and a
    duration are stored exactly when the reported status is [completed],
    and then the duration is not negative and leads from the start to the
    completion time. *)
Theorem scan_log_completion_fields
    (newId : string) (now : Z) (authHeader : option string)
    (body : Body) (w : World) :
  status (snd (POST verify isDatetime Date_parse randomUUID newId now
                 authHeader body w)) = 200 ->
  exists row,
    scanLogs (fst (POST verify isDatetime Date_parse randomUUID newId now
                     authHeader body w)) = (scanLogs w ++ [row])%list /\
    data (snd (POST verify isDatetime Date_parse randomUUID newId now
                 authHeader body w)) = Some (mkReportData (sl_id row)) /\
    match sl_duration row with
    | Some d =>
        sl_status row = "completed" /\ 0 <= d /\
        sl_completedAt row = Some (sl_startedAt row + d)
    | None => sl_status row <> "completed" /\ sl_completedAt row = None
    end.
Proof.
  destruct (POST verify isDatetime Date_parse randomUUID newId now authHeader
              body w) as [w' r] eqn:HP.
  cbn [fst snd]. revert HP. unfold POST, try_catch, POST_body.
  assert (Herr : forall e, status (status_error e) <> 200).
  { intros e. unfold status_error. destruct (isZodError e); discriminate. }
  unfold bind at 1. unfold lift at 1.
  destruct (Auth.verifyAuth verify authHeader) as [user|e];
    [|intros [= <- <-] H; now apply Herr in H].
  unfold bind at 1.
  destruct body as [j|m]; [|intros [= <- <-] H; now apply Herr in H].
  cbn [request_json ret].
  unfold bind at 1. unfold lift at 1.
  destruct (ScanReportSchema isDatetime j) as [validated|e];
    [|intros [= <- <-] H; now apply Herr in H].
  unfold bind at 1. unfold device_findFirst, get at 1.
  destruct (List.find _ (devices w)) as [device|];
    [|intros [= <- <-]; discriminate].
  destruct (Z.ltb_spec (completedAt_of Date_parse now validated)
              (Date_parse (v_startedAt validated))) as [Hlt|Hle];
    [intros [= <- <-]; discriminate|].
  unfold bind at 1. unfold transaction.
  unfold bind at 1. unfold scanLog_create.
  destruct (List.existsb _ (scanLogs w));
    [intros [= <- <-] H; now apply Herr in H|].
  unfold bind, quarantine_createMany, telemetryLog_create, modify, ret.
  assert (Hrow : forall row : ScanLog,
    row = mkScanLog newId (dev_id device)
            (scanType_text (v_scanType validated))
            (status_text (v_status validated))
            (v_filesScanned validated) (v_threatsFound validated)
            (Date_parse (v_startedAt validated))
            (if match v_status validated with completed => true | _ => false end
             then Some (completedAt_of Date_parse now validated) else None)
            (if match v_status validated with completed => true | _ => false end
             then Some (completedAt_of Date_parse now validated
                        - Date_parse (v_startedAt validated)) else None)
            (match v_threats validated with
             | Some ts => Some (JObj [("threats", JArr (List.map threat_json ts))])
             | None => None
             end) ->
    match sl_duration row with
    | Some d =>
        sl_status row = "completed" /\ 0 <= d /\
        sl_completedAt row = Some (sl_startedAt row + d)
    | None => sl_status row <> "completed" /\ sl_completedAt row = None
    end).
  { intros row ->. cbn [sl_duration sl_status sl_completedAt sl_startedAt].
    destruct (v_status validated); cbn [status_text].
    - split; [reflexivity|]. split; [lia|]. f_equal. lia.
    - split; [discriminate | reflexivity].
    - split; [discriminate | reflexivity]. }
  destruct (v_threats validated) as [[|t ts]|] eqn:Hth; cbn;
    intros [= <- <-] Hst; try discriminate Hst;
    cbn [scanLogs set_scanLogs set_quarantines set_telemetry];
    eexists; (split; [reflexivity|]); (split; [reflexivity|]);
    apply Hrow; reflexivity.
Qed.

End ScanReportMore.

Lemma scan_report_failure_writes_nothing_witness :
  fst (ScanReport.POST Examples.verify Examples.any_datetime Examples.date0
         Examples.uuid0 "scan-1" 5000 (Some "Bearer token-b")
         (Some Examples.scan_body) Examples.world1) = Examples.world1.
Proof.
  apply (scan_report_failure_writes_nothing Examples.verify
           Examples.any_datetime Examples.date0 Examples.uuid0 "scan-1" 5000
           (Some "Bearer token-b") (Some Examples.scan_body) Examples.world1).
  vm_compute. reflexivity.
Defined.

Lemma scan_log_completion_fields_witness :
  exists row,
    scanLogs
      (fst (ScanReport.POST Examples.verify Examples.any_datetime
              Examples.date0 Examples.uuid0 "scan-1" 5000
              (Some "Bearer token-a") (Some MoreExamples.clean_scan_body)
              Examples.world1)) = ([] ++ [row])%list /\
    data
      (snd (ScanReport.POST Examples.verify Examples.any_datetime
              Examples.date0 Examples.uuid0 "scan-1" 5000
              (Some "Bearer token-a") (Some MoreExamples.clean_scan_body)
              Examples.world1)) = Some (ScanReport.mkReportData (sl_id row)) /\
    match sl_duration row with
    | Some d =>
        sl_status row = "completed" /\ 0 <= d /\
        sl_completedAt row = Some (sl_startedAt row + d)
    | None => sl_status row <> "completed" /\ sl_completedAt row = None
    end.
Proof.
  apply (scan_log_completion_fields Examples.verify Examples.any_datetime
           Examples.date0 Examples.uuid0 "scan-1" 5000 (Some "Bearer token-a")
           (Some MoreExamples.clean_scan_body) Examples.world1).
  vm_compute. reflexivity.
Defined.

Section UrlClassifyMore.
Import UrlClassify.

Variable verify : string -> option AuthUser.
Variable isUrl : string -> bool.
Variable template : option Json -> string.
Variable coerced_gt_zero : Json -> bool.
Variable apiKey : option string.
Variable fetch : string -> FetchOutcome.

Lemma classify_not_unauthorized url e :
  classifyUrlWithThreatIntel template coerced_gt_zero apiKey fetch url
    = Throw e ->
  includes (message e) "Unauthorized" = false.
Proof.
  unfold classifyUrlWithThreatIntel.
  destruct apiKey as [k|]; [|now intros [= <-]].
  destruct (negb (truthy k)); [now intros [= <-]|].
  now destruct (lookup template coerced_gt_zero fetch url).
Qed.

(** X15. The classify route answers 401 for one kind of request only, and
    not for a token it rejects: the token is accepted and the body is not
    JSON, with [Unauthorized] in the message of the error that
    [request.json()] throws, which quotes the body.  Any other response,
    when there is one, is the 200 with a classification. *)
Theorem url_classify_401_iff_body_quotes_it
    (authHeader : option string) (body : Body) (w : World) :
  (snd (POST verify isUrl template coerced_gt_zero apiKey fetch authHeader
          body w) = Some (json_error 401 "Unauthorized") <->
   exists user m,
     Auth.verifyAuth verify authHeader = Ok user /\
     body = Malformed m /\
     includes m "Unauthorized" = true) /\
  (forall r,
     snd (POST verify isUrl template coerced_gt_zero apiKey fetch authHeader
            body w) = Some r ->
     r = json_error 401 "Unauthorized" \/ exists c, r = json_ok c).
Proof.
  unfold POST, try_catch, POST_body, bind, lift.
  destruct (Auth.verifyAuth verify authHeader) as [user|e] eqn:Hauth.
  - destruct body as [j|m]; cbn [request_json ret throw].
    + destruct (ClassifyUrlSchema isUrl j) as [url|e] eqn:Hparse.
      * destruct (classifyUrlWithThreatIntel template coerced_gt_zero apiKey
                    fetch url) as [c|e] eqn:Hc.
        -- cbn [snd]. split.
           ++ split; [discriminate|].
              intros (u & m & _ & Hb & _). discriminate.
           ++ intros r [= <-]. right. now exists c.
        -- cbn [snd]. unfold on_error.
           rewrite (classify_not_unauthorized url e Hc). split.
           ++ split; [discriminate|].
              intros (u & m & _ & Hb & _). discriminate.
           ++ discriminate.
      * cbn [snd]. unfold on_error.
        rewrite (schema_not_unauthorized isUrl j e Hparse). split.
        -- split; [discriminate|].
           intros (u & m & _ & Hb & _). discriminate.
        -- discriminate.
    + cbn [snd]. unfold on_error. cbn [message].
      destruct (includes m "Unauthorized") eqn:Hinc.
      * split.
        -- split; [intros _; now exists user, m | reflexivity].
        -- intros r [= <-]. now left.
      * split.
        -- split; [discriminate|].
           intros (u & m' & _ & [= <-] & Hm). congruence.
        -- discriminate.
  - cbn [snd]. unfold on_error.
    rewrite (verifyAuth_not_unauthorized verify authHeader e Hauth). split.
    + split; [discriminate|].
      intros (u & m & Hu & _). discriminate.
    + discriminate.
Qed.

(** X16. A URL is reported unsafe only on the word of the vendor: the
    verdict [isSafe: false] is given only when the lookup was answered
    with an ok status and a JSON object whose [matches] has a [length]
    greater than 0 and a first entry other than [null]: a non-empty array,
    a non-empty string, or an object with such entries [length] and [0]. *)
Theorem url_flagged_only_on_vendor_match (url : string) (c : Classification) :
  classifyUrlWithThreatIntel template coerced_gt_zero apiKey fetch url
    = Ok c ->
  isSafe c = false ->
  exists code fields,
    fetch url = Fetched true code (Some (JObj fields)) /\
    ((exists m ms,
        field "matches" fields = Some (JArr (m :: ms)) /\ m <> JNull) \/
     (exists a s, field "matches" fields = Some (JStr (String a s))) \/
     (exists entries n m,
        field "matches" fields = Some (JObj entries) /\
        field "length" entries = Some n /\
        gt_zero coerced_gt_zero n = true /\
        field "0" entries = Some m /\ m <> JNull)).
Proof.
  unfold classifyUrlWithThreatIntel.
  destruct apiKey as [k|]; [|discriminate].
  destruct (negb (truthy k)); [discriminate|].
  unfold lookup.
  destruct (fetch url) as [|ok code [data|]];
    try (intros [= <-]; discriminate).
  destruct ok; cbn [negb]; [|intros [= <-]; discriminate].
  destruct data as [| | | | |fields]; try (intros [= <-]; discriminate).
  unfold matched.
  destruct (field "matches" fields) as [m|] eqn:Hm;
    [|intros [= <-]; discriminate].
  destruct m as [| | |s|items|entries]; try (intros [= <-]; discriminate).
  - destruct s as [|a s]; [intros [= <-]; discriminate|].
    intros _ _. exists code, fields. split; [reflexivity|].
    right. left. now exists a, s.
  - destruct items as [|m ms]; [intros [= <-]; discriminate|].
    destruct m; try (intros [= <-]; discriminate);
      intros _ _; exists code, fields; (split; [reflexivity|]);
      left; eexists; eexists; (split; [exact Hm | discriminate]).
  - destruct (field "length" entries) as [n|] eqn:Hn;
      [|intros [= <-]; discriminate].
    destruct (gt_zero coerced_gt_zero n) eqn:Hgt;
      [|intros [= <-]; discriminate].
    destruct (field "0" entries) as [m|] eqn:H0;
      [|intros [= <-]; discriminate].
    destruct m; try (intros [= <-]; discriminate);
      intros _ _; exists code, fields; (split; [reflexivity|]);
      right; right; exists entries, n; eexists;
      (split; [exact Hm|]); (split; [exact Hn|]);
      (split; [exact Hgt|]); (split; [exact H0 | discriminate]).
Qed.

(** The classification fails open: with the key configured, an
    authenticated request for a valid URL is answered 200 with
    [isSafe: true] whenever the vendor cannot be reached, answers with a
    status that is not ok, or answers with a body that is not JSON. *)
Theorem url_classify_fails_open
    (authHeader : option string) (j : Json) (w : World) (user : AuthUser)
    (url k : string) :
  apiKey = Some k -> truthy k = true ->
  Auth.verifyAuth verify authHeader = Ok user ->
  ClassifyUrlSchema isUrl j = Ok url ->
  (fetch url = FetchFailed \/
   (exists code body, fetch url = Fetched false code body) \/
   (exists ok code, fetch url = Fetched ok code None)) ->
  POST verify isUrl template coerced_gt_zero apiKey fetch authHeader (Some j) w
    = (w, Some (json_ok (mkClassification true None None))).
Proof.
  intros Hk Htruthy Hauth Hparse Hdown.
  unfold POST, try_catch, POST_body, bind, lift.
  rewrite Hauth. cbn [body_of request_json ret]. rewrite Hparse.
  unfold classifyUrlWithThreatIntel. rewrite Hk, Htruthy. cbn [negb].
  unfold lookup.
  destruct Hdown as [-> | [(code & body & ->) | (ok & code & ->)]].
  - reflexivity.
  - destruct body; reflexivity.
  - reflexivity.
Qed.

End UrlClassifyMore.

Lemma url_flagged_only_on_vendor_match_witness :
  exists code fields,
    MoreExamples.vendor_up "http://bad.example/"
      = UrlClassify.Fetched true code (Some (JObj fields)) /\
    ((exists m ms,
        field "matches" fields = Some (JArr (m :: ms)) /\ m <> JNull) \/
     (exists a s, field "matches" fields = Some (JStr (String a s))) \/
     (exists entries n m,
        field "matches" fields = Some (JObj entries) /\
        field "length" entries = Some n /\
        UrlClassify.gt_zero MoreExamples.no_number n = true /\
        field "0" entries = Some m /\ m <> JNull)).
Proof.
  apply (url_flagged_only_on_vendor_match MoreExamples.template0
           MoreExamples.no_number (Some "key")
           MoreExamples.vendor_up "http://bad.example/"
           (UrlClassify.mkClassification false (Some (JStr "MALWARE"))
              (Some "This URL is flagged as MALWARE"))).
  - vm_compute. reflexivity.
  - reflexivity.
Defined.

Lemma url_classify_fails_open_witness :
  UrlClassify.POST Examples.verify MoreExamples.any_url MoreExamples.template0
    MoreExamples.no_number
    (Some "key") MoreExamples.vendor_down (Some "Bearer token-a")
    (Some MoreExamples.bad_url_body) Examples.world1 =
  (Examples.world1,
   Some (json_ok (UrlClassify.mkClassification true None None))).
Proof.
  apply (url_classify_fails_open Examples.verify MoreExamples.any_url
           MoreExamples.template0 MoreExamples.no_number
           (Some "key") MoreExamples.vendor_down
           (Some "Bearer token-a") MoreExamples.bad_url_body Examples.world1
           Examples.alice "http://bad.example/" "key").
  - reflexivity.
  - reflexivity.
  - reflexivity.
  - reflexivity.
  - left. reflexivity.
Defined.

Section PaymentVerifyMore.
Import PaymentVerify.

Variable sharedSecret : option string.
Variable fetch : string -> string -> FetchOutcome.

(** X17. An Apple receipt is accepted only on the vendor's word: the
    result is valid only if the shared secret is configured and the
    endpoint that gave the final answer (production, or the sandbox after
    a 21007 from production) answered with status 0; on the sandbox path
    the list of renewals, when present, must also not be empty. *)
Theorem apple_valid_needs_status_zero (receiptData : string) :
  valid (verifyAppleReceipt sharedSecret fetch receiptData) = true ->
  (exists k, sharedSecret = Some k /\ truthy k = true) /\
  exists data,
    ad_status data = 0 /\
    (fetch productionUrl receiptData = Fetched data \/
     exists redirect,
       fetch productionUrl receiptData = Fetched redirect /\
       ad_status redirect = 21007 /\
       fetch sandboxUrl receiptData = Fetched data /\
       latest_receipt_info data <> Some []).
Proof.
  unfold verifyAppleReceipt, verify_body, fetch_json.
  destruct sharedSecret as [k|]; [|discriminate].
  cbn [or_empty]. destruct (truthy k) eqn:Hk; [|discriminate].
  cbn [negb].
  destruct (fetch productionUrl receiptData) as [|data]; [discriminate|].
  cbn [rbind].
  destruct (Z.eqb_spec (ad_status data) 21007) as [H21007|_].
  - destruct (fetch sandboxUrl receiptData) as [|sandboxData]; [discriminate|].
    cbn [rbind].
    destruct (latest_receipt_info sandboxData) as [[|e entries]|] eqn:Hinfo.
    + cbn. discriminate.
    + cbn [reduce rbind valid]. intros Hv. apply Z.eqb_eq in Hv.
      split; [now exists k|]. exists sandboxData. split; [exact Hv|].
      right. exists data. repeat split; auto. rewrite Hinfo. discriminate.
    + cbn [reduce rbind valid]. intros Hv. apply Z.eqb_eq in Hv.
      split; [now exists k|]. exists sandboxData. split; [exact Hv|].
      right. exists data. repeat split; auto. rewrite Hinfo. discriminate.
  - cbn [valid]. intros Hv. apply Z.eqb_eq in Hv.
    split; [now exists k|]. exists data. split; [exact Hv | now left].
Qed.

(** X18. On the sandbox path the expiry is that of a latest renewal: when
    production answers 21007 and the sandbox lists renewals, the expiry
    returned is read from an entry of the list that no other entry
    exceeds. *)
Theorem apple_sandbox_takes_greatest
    (receiptData k : string) (redirect data : AppleData)
    (entries : list ReceiptInfo) :
  sharedSecret = Some k -> truthy k = true ->
  fetch productionUrl receiptData = Fetched redirect ->
  ad_status redirect = 21007 ->
  fetch sandboxUrl receiptData = Fetched data ->
  latest_receipt_info data = Some entries ->
  entries <> [] ->
  exists r,
    In r entries /\
    (forall e, In e entries -> gt (expiry e) (expiry r) = false) /\
    expiryDate (verifyAppleReceipt sharedSecret fetch receiptData)
      = expiry_of (Some r).
Proof.
  intros Hs Hk Hprod H21007 Hsand Hinfo Hne.
  unfold verifyAppleReceipt, verify_body, fetch_json.
  rewrite Hs. cbn [or_empty]. rewrite Hk, Hprod. cbn [negb rbind].
  rewrite H21007. cbn [Z.eqb Pos.eqb]. rewrite Hsand. cbn [rbind]. rewrite Hinfo.
  destruct (reduce later entries) as [r|e] eqn:Hred.
  - destruct (reduce_later_greatest entries r Hred) as [Hin Hmax].
    exists r. cbn [rbind expiryDate]. auto.
  - destruct entries; [congruence | discriminate].
Qed.

(** The two paths differ on an empty list of renewals: answered by
    production with status 0, the receipt is valid with no expiry; answered
    by the sandbox with the same body, the [reduce] throws and the receipt
    is rejected. *)
Theorem apple_empty_renewals_differ
    (receiptData k : string) (redirect data : AppleData) :
  sharedSecret = Some k -> truthy k = true ->
  ad_status data = 0 ->
  latest_receipt_info data = Some [] ->
  (fetch productionUrl receiptData = Fetched data ->
   verifyAppleReceipt sharedSecret fetch receiptData =
     mkVerificationResult true (or_empty (original_transaction_id data)) None)
  /\
  (fetch productionUrl receiptData = Fetched redirect ->
   ad_status redirect = 21007 ->
   fetch sandboxUrl receiptData = Fetched data ->
   verifyAppleReceipt sharedSecret fetch receiptData =
     mkVerificationResult false "" None).
Proof.
  intros Hs Hk Hst Hinfo. split.
  - intros Hprod. unfold verifyAppleReceipt, verify_body, fetch_json.
    rewrite Hs. cbn [or_empty]. rewrite Hk, Hprod. cbn [negb rbind].
    rewrite Hst, Hinfo. reflexivity.
  - intros Hprod H21007 Hsand.
    unfold verifyAppleReceipt, verify_body, fetch_json.
    rewrite Hs. cbn [or_empty]. rewrite Hk, Hprod. cbn [negb rbind].
    rewrite H21007. cbn [Z.eqb Pos.eqb]. rewrite Hsand. cbn [rbind].
    rewrite Hinfo. reflexivity.
Qed.

End PaymentVerifyMore.

Lemma apple_valid_needs_status_zero_witness :
  (exists k, Some "secret" = Some k /\ truthy k = true) /\
  exists data,
    PaymentVerify.ad_status data = 0 /\
    (Examples.fetch_sandbox PaymentVerify.productionUrl "receipt"
       = PaymentVerify.Fetched data \/
     exists redirect,
       Examples.fetch_sandbox PaymentVerify.productionUrl "receipt"
         = PaymentVerify.Fetched redirect /\
       PaymentVerify.ad_status redirect = 21007 /\
       Examples.fetch_sandbox PaymentVerify.sandboxUrl "receipt"
         = PaymentVerify.Fetched data /\
       PaymentVerify.latest_receipt_info data <> Some []).
Proof.
  apply (apple_valid_needs_status_zero (Some "secret") Examples.fetch_sandbox
           "receipt").
  vm_compute. reflexivity.
Defined.

Lemma apple_sandbox_takes_greatest_witness :
  exists r,
    In r Examples.renewals /\
    (forall e, In e Examples.renewals ->
       PaymentVerify.gt (PaymentVerify.expiry e) (PaymentVerify.expiry r)
         = false) /\
    PaymentVerify.expiryDate
      (PaymentVerify.verifyAppleReceipt (Some "secret") Examples.fetch_sandbox
         "receipt") = PaymentVerify.expiry_of (Some r).
Proof.
  apply (apple_sandbox_takes_greatest (Some "secret") Examples.fetch_sandbox
           "receipt" "secret"
           (PaymentVerify.mkAppleData 21007 None None)
           (PaymentVerify.mkAppleData 0 (Some "tx-1") (Some Examples.renewals))
           Examples.renewals).
  - reflexivity.
  - reflexivity.
  - reflexivity.
  - reflexivity.
  - reflexivity.
  - reflexivity.
  - discriminate.
Defined.

Lemma apple_empty_renewals_differ_witness :
  PaymentVerify.verifyAppleReceipt (Some "secret")
    (fun _ _ => PaymentVerify.Fetched
                  (PaymentVerify.mkAppleData 0 (Some "tx-1") (Some [])))
    "receipt" =
  PaymentVerify.mkVerificationResult true "tx-1" None.
Proof.
  apply (apple_empty_renewals_differ (Some "secret")
           (fun _ _ => PaymentVerify.Fetched
                         (PaymentVerify.mkAppleData 0 (Some "tx-1") (Some [])))
           "receipt" "secret"
           (PaymentVerify.mkAppleData 21007 None None)
           (PaymentVerify.mkAppleData 0 (Some "tx-1") (Some [])));
    reflexivity.
Defined.

Section HashCheckMore.
Import HashCheck.

Variable verify : string -> option AuthUser.
Variable toISOString : Z -> string.

Lemma split_cached_length (hashes : list string) :
  forall cachedResults,
    (List.length (fst (split_cached hashes cachedResults))
     + List.length (snd (split_cached hashes cachedResults)))%nat
    = List.length hashes.
Proof.
  induction hashes as [|h hs IH]; intros cachedResults; [reflexivity|].
  cbn [split_cached]. specialize (IH (List.tl cachedResults)).
  destruct (split_cached hs (List.tl cachedResults)) as [rs us].
  cbn [fst snd] in IH.
  destruct (List.hd None cachedResults); cbn [fst snd List.length]; lia.
Qed.

Lemma resolve_uncached_length redis now uncachedHashes w w' verdicts :
  resolve_uncached redis now uncachedHashes w = (w', Ok verdicts) ->
  List.length verdicts = List.length uncachedHashes.
Proof.
  unfold resolve_uncached. destruct uncachedHashes as [|h hs].
  - now intros [= _ <-].
  - unfold bind, threatSignature_findMany, get, pipeline_exec.
    destruct (up_exec redis); [|discriminate].
    intros [= _ <-]. cbn [List.map List.length]. f_equal.
    apply List.length_map.
Qed.

Lemma z_hashes_bounds j hashes :
  z_hashes j = Ok hashes ->
  (1 <= List.length hashes <= 100)%nat.
Proof.
  unfold z_hashes. destruct j as [[| | | |items|]|]; try discriminate.
  destruct (ScanReport.z_array z_hash items) as [l|e]; [|discriminate].
  cbn [rbind].
  destruct (Nat.ltb_spec (List.length l) 1); [discriminate|].
  destruct (Nat.ltb_spec 100 (List.length l)); [discriminate|].
  intros [= <-]. lia.
Qed.

Lemma filter_length_le {A : Type} (p : A -> bool) (l : list A) :
  (List.length (List.filter p l) <= List.length l)%nat.
Proof.
  induction l as [|x l IH]; [cbn; lia|].
  cbn [List.filter]. destruct (p x); cbn [List.length]; lia.
Qed.

(** X19. The figures of a hash-check response add up: a request answered
    200 carries exactly one verdict per hash of the batch, [scanned] is the
    size of the batch, between 1 and 100, and [threatsFound] is the number
    of verdicts that say [isThreat], so it never exceeds [scanned]. *)
Theorem hash_check_counts
    (redis : RedisCalls) (now : Z) (authHeader : option string) (j : Json)
    (w : World) (validated : Validated) :
  HashCheckSchema j = Ok validated ->
  status (snd (POST verify toISOString redis now authHeader (Some j) w)) = 200 ->
  exists d,
    data (snd (POST verify toISOString redis now authHeader (Some j) w))
      = Some d /\
    List.length (results d) = List.length (v_hashes validated) /\
    scanned d = Z.of_nat (List.length (v_hashes validated)) /\
    threatsFound d = Z.of_nat (List.length (List.filter isThreat (results d))) /\
    threatsFound d <= scanned d /\
    1 <= scanned d <= 100.
Proof.
  intros Hparse.
  assert (Hbounds : (1 <= List.length (v_hashes validated) <= 100)%nat).
  { revert Hparse. unfold HashCheckSchema.
    destruct (z_object j) as [fields|]; [|discriminate]. cbn [rbind].
    destruct (z_hashes (field "hashes" fields)) as [hashes|] eqn:Hh;
      [|discriminate].
    cbn [rbind]. destruct (z_string _); [|discriminate].
    intros [= <-]. cbn [v_hashes]. now apply z_hashes_bounds in Hh. }
  assert (Herr : forall e, status (status_error e) <> 200).
  { intros e. unfold status_error. destruct (isZodError e); discriminate. }
  destruct (POST verify toISOString redis now authHeader (Some j) w)
    as [w' r] eqn:HP.
  cbn [fst snd]. revert HP. unfold POST, try_catch, POST_body.
  unfold bind at 1. unfold lift at 1.
  destruct (Auth.verifyAuth verify authHeader) as [user|e];
    [|intros [= <- <-] H; now apply Herr in H].
  unfold bind at 1. unfold rateLimitM.
  destruct (up_rateLimit redis);
    [|intros [= <- <-] H; now apply Herr in H].
  destruct (RateLimit.rateLimit _ _ _ _ _) as [keys r0].
  destruct (RateLimit.rl_success r0); cbn [negb];
    [|intros [= <- <-]; discriminate].
  unfold bind at 1. cbn [body_of request_json ret].
  unfold bind at 1. unfold lift at 1. rewrite Hparse.
  unfold bind at 1. unfold device_findFirst, get at 1.
  destruct (List.find _ (devices _)) as [device|];
    [|intros [= <- <-]; discriminate].
  set (w0 := set_rateKeys _ w).
  unfold bind at 1. rewrite lookup_cache_spec.
  set (lookedUp := if up_mget redis then _ else _).
  assert (Hsplit : (List.length (fst lookedUp) + List.length (snd lookedUp))%nat
                   = List.length (v_hashes validated)).
  { subst lookedUp. destruct (up_mget redis); [|reflexivity].
    apply split_cached_length. }
  unfold bind at 1.
  destruct (resolve_uncached redis now (snd lookedUp) w0) as [w1 [verdicts|e]]
    eqn:Hres; [|intros [= <- <-] H; now apply Herr in H].
  apply resolve_uncached_length in Hres.
  unfold bind, telemetryLog_create, modify, ret.
  assert (Hlen : List.length (fst lookedUp ++ verdicts)%list
                 = List.length (v_hashes validated))
    by (rewrite List.length_app; lia).
  pose proof (filter_length_le isThreat (fst lookedUp ++ verdicts)%list) as Hle.
  destruct (0 <? _); intros [= <- <-] _; eexists; (split; [reflexivity|]);
    cbn [results scanned threatsFound]; repeat split; try exact Hlen; lia.
Qed.

Lemma threatMap_lookup_in (threats : list ThreatSignature) (k : string)
    (t : ThreatSignature) :
  forall m : gmap string ThreatSignature,
    List.fold_left (fun m t => <[ ts_signature t := t ]> m) threats m !! k
      = Some t ->
    m !! k = Some t \/ (In t threats /\ ts_signature t = k).
Proof.
  induction threats as [|x ts IH]; intros m H; cbn [List.fold_left] in H.
  - now left.
  - destruct (IH _ H) as [Hm|[Hin Hk]].
    + destruct (decide (ts_signature x = k)) as [Heq|Hne].
      * rewrite Heq, lookup_insert_eq in Hm. injection Hm as <-.
        right. split; [now left | exact Heq].
      * rewrite lookup_insert_ne in Hm by exact Hne. now left.
    + right. split; [now right | exact Hk].
Qed.

Lemma resolve_uncached_verdicts redis now uncachedHashes w w' verdicts :
  resolve_uncached redis now uncachedHashes w = (w', Ok verdicts) ->
  verdicts = store_verdicts w uncachedHashes.
Proof.
  unfold resolve_uncached. destruct uncachedHashes as [|h hs].
  - now intros [= _ <-].
  - unfold bind, threatSignature_findMany, get, pipeline_exec.
    destruct (up_exec redis); [|discriminate].
    now intros [= _ <-].
Qed.

(** X20. The store never flags a hash on its own: a verdict resolved from
    the store says [isThreat] only if the store holds an active signature
    of type HASH for that very hash, and it then carries the name, the
    severity and the category of such a signature. *)
Theorem store_flags_only_active_signature
    (redis : RedisCalls) (now : Z) (uncachedHashes : list string)
    (w w' : World) (verdicts : list ThreatResult) (r : ThreatResult) :
  resolve_uncached redis now uncachedHashes w = (w', Ok verdicts) ->
  In r verdicts ->
  isThreat r = true ->
  exists sig,
    In sig (signatures w) /\
    ts_signature sig = tr_hash r /\
    ts_type sig = "HASH" /\
    ts_isActive sig = true /\
    tr_threatName r = ts_threatName sig /\
    tr_severity r = ts_severity sig /\
    tr_category r = ts_category sig.
Proof.
  intros Hres Hin Hthreat.
  apply resolve_uncached_verdicts in Hres. subst verdicts.
  unfold store_verdicts in Hin.
  apply List.in_map_iff in Hin. destruct Hin as (h & <- & Hh).
  revert Hthreat. unfold resolve, threatMap.
  destruct (List.fold_left _ _ ∅ !! h) as [sig|] eqn:Hlook;
    [|discriminate].
  intros _.
  apply threatMap_lookup_in in Hlook.
  destruct Hlook as [Hempty|[Hsig Hk]]; [now rewrite lookup_empty in Hempty|].
  apply List.filter_In in Hsig. destruct Hsig as [Hsig Hp].
  apply andb_true_iff in Hp. destruct Hp as [Hp Hactive].
  apply andb_true_iff in Hp. destruct Hp as [_ Htype].
  apply String.eqb_eq in Htype.
  exists sig. cbn. repeat split; auto.
Qed.

Lemma cacheKey_inj (a b : string) : cacheKey a = cacheKey b -> a = b.
Proof. unfold cacheKey. apply append_inj_prefix. Qed.

(** What the write-back leaves under the key of a hash. *)
Lemma writeback_lookup (f : string -> ThreatResult) (e : Z)
    (uncachedHashes : list string) (h : string) :
  (forall h, tr_hash (f h) = h) ->
  forall c : gmap string (Z * ThreatResult),
    List.fold_left (fun c r => <[ cacheKey (tr_hash r) := (e, r) ]> c)
      (List.map f uncachedHashes) c !! cacheKey h
    = if List.existsb (String.eqb h) uncachedHashes
      then Some (e, f h) else c !! cacheKey h.
Proof.
  intros Hf. induction uncachedHashes as [|u us IH]; intros c; [reflexivity|].
  cbn [List.map List.fold_left List.existsb]. rewrite IH, Hf.
  destruct (String.eqb_spec h u) as [->|Hne].
  - cbn [orb]. rewrite lookup_insert_eq. now destruct (List.existsb _ us).
  - cbn [orb]. rewrite lookup_insert_ne; [reflexivity|].
    intros Heq. apply cacheKey_inj in Heq. congruence.
Qed.

Lemma resolve_hash (tm : gmap string ThreatSignature) (h : string) :
  tr_hash (resolve tm h) = h.
Proof. unfold resolve. now destruct (tm !! h). Qed.

(** The cache after the block under [if (uncachedHashes.length > 0)]. *)
Lemma resolve_uncached_cache redis now uncachedHashes w w' verdicts :
  resolve_uncached redis now uncachedHashes w = (w', Ok verdicts) ->
  exists tm,
    verdicts = List.map (resolve tm) uncachedHashes /\
    threatCache w' =
      List.fold_left (fun c r =>
        <[ cacheKey (tr_hash r) := (now + 3600 * 1000, r) ]> c)
        verdicts (threatCache w).
Proof.
  unfold resolve_uncached. destruct uncachedHashes as [|h hs].
  - intros [= <- <-]. now exists ∅.
  - unfold bind, threatSignature_findMany, get, pipeline_exec.
    destruct (up_exec redis); [|discriminate].
    intros [= <- <-]. eexists. split; reflexivity.
Qed.

Lemma split_cached_snd (f : string -> option ThreatResult)
    (hashes : list string) (h : string) :
  In h (snd (split_cached hashes (List.map f hashes))) -> f h = None.
Proof.
  induction hashes as [|x hs IH]; [contradiction|].
  cbn [List.map split_cached List.hd List.tl].
  destruct (split_cached hs (List.map f hs)) as [rs us].
  cbn [snd] in IH.
  destruct (f x) eqn:Hx; cbn [snd]; [exact IH|].
  intros [<-|Hin]; [exact Hx | now apply IH].
Qed.


End HashCheckMore.

Lemma hash_check_counts_witness :
  exists d,
    data (snd (HashCheck.POST Examples.verify Examples.iso0 Examples.all_up
                 1000 (Some "Bearer token-a") (Some Examples.hash_body)
                 Examples.world_with_trojan)) = Some d /\
    List.length (HashCheck.results d) = 1%nat /\
    HashCheck.scanned d = 1 /\
    HashCheck.threatsFound d
      = Z.of_nat (List.length (List.filter isThreat (HashCheck.results d))) /\
    HashCheck.threatsFound d <= HashCheck.scanned d /\
    1 <= HashCheck.scanned d <= 100.
Proof.
  apply (hash_check_counts Examples.verify Examples.iso0 Examples.all_up 1000
           (Some "Bearer token-a") Examples.hash_body
           Examples.world_with_trojan
           (HashCheck.mkValidated [Examples.hashA] "dev-1")).
  - reflexivity.
  - vm_compute. reflexivity.
Defined.

Lemma store_flags_only_active_signature_witness :
  exists sig,
    In sig (signatures Examples.world_with_trojan) /\
    ts_signature sig = Examples.hashA /\
    ts_type sig = "HASH" /\
    ts_isActive sig = true /\
    Some "Trojan.Android.Generic" = ts_threatName sig /\
    Some "CRITICAL" = ts_severity sig /\
    Some "TROJAN" = ts_category sig.
Proof.
  apply (store_flags_only_active_signature Examples.all_up 1000
           [Examples.hashA] Examples.world_with_trojan
           (fst (HashCheck.resolve_uncached Examples.all_up 1000
                   [Examples.hashA] Examples.world_with_trojan))
           [mkThreatResult Examples.hashA true (Some "Trojan.Android.Generic")
              (Some "CRITICAL") (Some "TROJAN")]
           (mkThreatResult Examples.hashA true (Some "Trojan.Android.Generic")
              (Some "CRITICAL") (Some "TROJAN"))).
  - vm_compute. reflexivity.
  - now left.
  - reflexivity.
Defined.


(** ** The two readings of the hash-check route *)

Section HashCheckReadings.
Import HashCheck.

Variable verify : string -> option AuthUser.
Variable toISOString : Z -> string.

(** The two readings of the route give the same state and the same
    response, but for a request that gets as far as the lookups and
    leaves no hash to resolve: read the second way, the route gives no
    response to it. *)
Lemma late_reading_differs_when_all_cached
    (redis : RedisCalls) (now : Z) (authHeader : option string) (body : Body)
    (w : World) :
  POST_late verify toISOString redis now authHeader body w =
    (fst (POST verify toISOString redis now authHeader body w),
     Some (snd (POST verify toISOString redis now authHeader body w)))
  \/
  (snd (POST_late verify toISOString redis now authHeader body w) = None /\
   exists user j validated device,
     Auth.verifyAuth verify authHeader = Ok user /\
     body = Parsed j /\
     HashCheckSchema j = Ok validated /\
     List.find (fun d => String.eqb (dev_id d) (v_deviceId validated)
                         && String.eqb (dev_userId d) (userId user))
       (devices w) = Some device /\
     up_mget redis = true /\
     snd (split_cached (v_hashes validated)
            (List.map (fun h => cache_get now (threatCache w) (cacheKey h))
               (v_hashes validated))) = []).
Proof.
  unfold POST, POST_late, try_catch, POST_body, POST_body_late, bind, lift,
    rateLimitM, device_findFirst, get.
  destruct (Auth.verifyAuth verify authHeader) as [user|e] eqn:Hauth;
    [|now left].
  destruct (up_rateLimit redis); [|now left].
  destruct (RateLimit.rateLimit _ _ _ _ _) as [keys r].
  destruct (RateLimit.rl_success r); cbn [negb]; [|now left].
  destruct body as [j|m]; cbn [request_json ret throw]; [|now left].
  destruct (HashCheckSchema j) as [validated|e] eqn:Hparse; [|now left].
  cbn [devices set_rateKeys].
  destruct (find _ (devices w)) as [device|] eqn:Hdev; [|now left].
  rewrite lookup_cache_spec. cbn [threatCache set_rateKeys].
  destruct (up_mget redis) eqn:Hmget.
  - destruct (split_cached _ _) as [cached uncached] eqn:Hsplit.
    cbn [fst snd].
    destruct uncached as [|u us].
    + right. split; [reflexivity|].
      exists user, j, validated, device. rewrite Hsplit.
      repeat split; assumption || reflexivity.
    + left.
      destruct (resolve_uncached redis now (u :: us) _) as [w1 [resolved|e]];
        [|reflexivity].
      unfold telemetryLog_create, modify, ret. now destruct (0 <? _).
  - cbn [fst snd]. destruct (v_hashes validated) as [|u us] eqn:Hh.
    + exfalso. revert Hparse. unfold HashCheckSchema, z_object, rbind.
      destruct j; try discriminate.
      destruct (z_hashes _) as [hs|] eqn:Hz; [|discriminate].
      destruct (z_string _); [|discriminate].
      intros [= <-]. cbn [v_hashes] in Hh. subst hs.
      apply z_hashes_bounds in Hz. cbn in Hz. lia.
    + left.
      destruct (resolve_uncached redis now (u :: us) _) as [w1 [resolved|e]];
        [|reflexivity].
      unfold telemetryLog_create, modify, ret. now destruct (0 <? _).
Qed.

(** The outcome of a request that gets as far as the lookups, when the
    write-back to the cache goes through: the response, and the cache
    afterwards. *)
Lemma hash_check_outcome redis now authHeader j w user validated device :
  Auth.verifyAuth verify authHeader = Ok user ->
  up_rateLimit redis = true ->
  RateLimit.rl_success
    (snd (RateLimit.rateLimit (rateKeys w) ("hash_check:" ++ userId user)
            50 60 now)) = true ->
  HashCheckSchema j = Ok validated ->
  List.find (fun d => String.eqb (dev_id d) (v_deviceId validated)
                      && String.eqb (dev_userId d) (userId user))
    (devices w) = Some device ->
  up_exec redis = true ->
  forall lookedUp,
    lookedUp =
      (if up_mget redis
       then split_cached (v_hashes validated)
              (List.map (fun h => cache_get now (threatCache w) (cacheKey h))
                 (v_hashes validated))
       else ([], v_hashes validated)) ->
    let rs := (fst lookedUp ++ store_verdicts w (snd lookedUp))%list in
    exists w',
      POST verify toISOString redis now authHeader (Some j) w =
        (w', json_ok (mkCheckData rs
                        (Z.of_nat (List.length (v_hashes validated)))
                        (Z.of_nat (List.length (List.filter isThreat rs))))) /\
      threatCache w' =
        List.fold_left (fun c r =>
          <[ cacheKey (tr_hash r) := (now + 3600 * 1000, r) ]> c)
          (store_verdicts w (snd lookedUp)) (threatCache w).
Proof.
  intros Hauth Hrl1 Hrl Hparse Hdev Hexec lookedUp Hlooked rs. subst rs.
  unfold POST, try_catch, POST_body.
  unfold bind at 1. unfold lift at 1. rewrite Hauth.
  unfold bind at 1. unfold rateLimitM. rewrite Hrl1.
  destruct (RateLimit.rateLimit _ _ _ _ _) as [keys r]. simpl in Hrl.
  rewrite Hrl. cbn [negb].
  unfold bind at 1. cbn [body_of request_json ret].
  unfold bind at 1. unfold lift at 1. rewrite Hparse.
  unfold bind at 1. unfold device_findFirst, get at 1.
  cbn [devices set_rateKeys]. rewrite Hdev.
  set (w0 := set_rateKeys _ w).
  unfold bind at 1. rewrite lookup_cache_spec.
  change (threatCache w0) with (threatCache w). rewrite <- Hlooked.
  unfold bind at 1.
  pose proof (resolve_uncached_ok redis now (snd lookedUp) w0 Hexec) as Hres.
  change (store_verdicts w0 (snd lookedUp))
    with (store_verdicts w (snd lookedUp)) in Hres.
  destruct (resolve_uncached redis now (snd lookedUp) w0) as [w1 res] eqn:Hrun.
  cbn [snd] in Hres. subst res.
  destruct (resolve_uncached_cache _ _ _ _ _ _ Hrun) as (tm & _ & Hcache).
  change (threatCache w0) with (threatCache w) in Hcache.
  unfold bind, telemetryLog_create, modify, ret.
  destruct (0 <? _); eexists; (split; [reflexivity|]); exact Hcache.
Qed.

(** C2, amended. In a hash-check request that gets as far as the lookups,
    whose write-back to the cache goes through and which leaves a hash to
    resolve, both readings of the route give the same response, and in it:
    a hash resolved from the store (not in the cache, expired there, or
    the cache lookup failed) is reported with [isThreat: true] when the
    store holds an active HASH signature for it, and its verdict, be it
    positive or negative, is written to the cache, to expire one hour
    after the request; a hash with a verdict in the cache that has not
    expired is reported with that verdict as it is, whatever the store
    holds. *)
Theorem hash_check_reports_store_threats
    (redis : RedisCalls) (now : Z) (authHeader : option string) (j : Json)
    (w : World) (user : AuthUser) (validated : Validated) (device : Device) :
  Auth.verifyAuth verify authHeader = Ok user ->
  up_rateLimit redis = true ->
  RateLimit.rl_success
    (snd (RateLimit.rateLimit (rateKeys w) ("hash_check:" ++ userId user)
            50 60 now)) = true ->
  HashCheckSchema j = Ok validated ->
  List.find (fun d => String.eqb (dev_id d) (v_deviceId validated)
                      && String.eqb (dev_userId d) (userId user))
    (devices w) = Some device ->
  up_exec redis = true ->
  (exists h,
     In h (v_hashes validated) /\
     (up_mget redis = false \/
      cache_get now (threatCache w) (cacheKey h) = None)) ->
  exists d,
    snd (POST verify toISOString redis now authHeader (Some j) w) = json_ok d /\
    POST_late verify toISOString redis now authHeader (Some j) w =
      (fst (POST verify toISOString redis now authHeader (Some j) w),
       Some (json_ok d)) /\
    (forall h,
       In h (v_hashes validated) ->
       up_mget redis = false \/
       cache_get now (threatCache w) (cacheKey h) = None ->
       exists r,
         In r (results d) /\
         tr_hash r = h /\
         threatCache
           (fst (POST verify toISOString redis now authHeader (Some j) w))
           !! cacheKey h = Some (now + 3600 * 1000, r) /\
         (forall sig,
            In sig (signatures w) ->
            ts_signature sig = h -> ts_type sig = "HASH" ->
            ts_isActive sig = true ->
            isThreat r = true)) /\
    (forall h r,
       In h (v_hashes validated) ->
       up_mget redis = true ->
       cache_get now (threatCache w) (cacheKey h) = Some r ->
       In r (results d)).
Proof.
  intros Hauth Hrl1 Hrl Hparse Hdev Hexec (h0 & Hh0 & Hcold0).
  destruct (hash_check_outcome redis now authHeader j w user validated device
              Hauth Hrl1 Hrl Hparse Hdev Hexec _ eq_refl)
    as (w' & HP & Hcache).
  set (lookedUp := if up_mget redis then _ else _) in *.
  cbn zeta in HP.
  (* a hash resolved from the store is one of those left by the lookup *)
  assert (Hleft : forall h,
            In h (v_hashes validated) ->
            up_mget redis = false \/
            cache_get now (threatCache w) (cacheKey h) = None ->
            In h (snd lookedUp)).
  { intros h Hh Hcold. subst lookedUp.
    destruct (up_mget redis) eqn:Hmget; [|exact Hh].
    destruct Hcold as [Hdown|Hmiss]; [discriminate|].
    pose proof (split_cached_spec
      (fun h => cache_get now (threatCache w) (cacheKey h))
      (v_hashes validated) h Hh) as Hsplit.
    cbv beta in Hsplit. now rewrite Hmiss in Hsplit. }
  eexists. rewrite HP. cbn [fst snd]. split; [reflexivity|]. split; [|split].
  - destruct (late_reading_differs_when_all_cached redis now authHeader
                (Some j) w) as [Hsame|(_ & u & j' & v & d & _ & Hj & Hv & _ & Hm & Hnone)].
    + now rewrite Hsame, HP.
    + exfalso. injection Hj as <-. assert (v = validated) by congruence.
      subst v. specialize (Hleft h0 Hh0 Hcold0). subst lookedUp.
      rewrite Hm, Hnone in Hleft. exact Hleft.
  - intros h Hh Hcold. specialize (Hleft h Hh Hcold).
    cbn [results]. unfold store_verdicts in *.
    set (tm := threatMap _) in *.
    exists (resolve tm h). split; [|split; [|split]].
    + apply in_or_app. right. now apply in_map.
    + apply resolve_hash.
    + rewrite Hcache.
      rewrite (writeback_lookup (resolve tm) (now + 3600 * 1000)
                 (snd lookedUp) h (resolve_hash tm)).
      replace (existsb (String.eqb h) (snd lookedUp)) with true; [reflexivity|].
      symmetry. apply existsb_exists. exists h.
      split; [exact Hleft | apply String.eqb_refl].
    + intros sig Hsig Hs Ht Ha.
      now destruct (resolve_store_threat w (snd lookedUp) h sig Hleft Hsig Hs
                      Ht Ha _ eq_refl).
  - intros h r Hh Hmget Hhit. cbn [results]. apply in_or_app. left.
    subst lookedUp. rewrite Hmget.
    pose proof (split_cached_spec
      (fun h => cache_get now (threatCache w) (cacheKey h))
      (v_hashes validated) h Hh) as Hsplit.
    cbv beta in Hsplit. now rewrite Hhit in Hsplit.
Qed.

End HashCheckReadings.

Lemma hash_check_reports_store_threats_witness :
  exists d,
    snd (HashCheck.POST Examples.verify Examples.iso0 Examples.all_up 1000
           (Some "Bearer token-a") (Some Examples.hash_body)
           Examples.world_with_trojan) = json_ok d /\
    HashCheck.POST_late Examples.verify Examples.iso0 Examples.all_up 1000
      (Some "Bearer token-a") (Some Examples.hash_body)
      Examples.world_with_trojan =
      (fst (HashCheck.POST Examples.verify Examples.iso0 Examples.all_up 1000
              (Some "Bearer token-a") (Some Examples.hash_body)
              Examples.world_with_trojan),
       Some (json_ok d)) /\
    exists r,
      In r (HashCheck.results d) /\ tr_hash r = Examples.hashA /\
      isThreat r = true.
Proof.
  destruct (hash_check_reports_store_threats Examples.verify Examples.iso0
              Examples.all_up 1000 (Some "Bearer token-a") Examples.hash_body
              Examples.world_with_trojan Examples.alice
              (HashCheck.mkValidated [Examples.hashA] "dev-1") Examples.phone)
    as (d & H1 & H2 & Hstore & _).
  - reflexivity.
  - reflexivity.
  - vm_compute. reflexivity.
  - reflexivity.
  - reflexivity.
  - reflexivity.
  - exists Examples.hashA. split; [now left | right; reflexivity].
  - exists d. split; [exact H1|]. split; [exact H2|].
    destruct (Hstore Examples.hashA) as (r & Hin & Hhash & _ & Hthreat).
    + now left.
    + right. reflexivity.
    + exists r. split; [exact Hin|]. split; [exact Hhash|].
      apply (Hthreat Examples.trojan); [now left | reflexivity..].
Defined.

Section EmailRegisterMore.
Import EmailRegister.

Variable isEmail : string -> bool.
Variable hash : string -> string.
Variable sign : string -> string -> string.
Variable toISOString : Z -> string.

Lemma email_register_error_not_201 (e : Exn) : status (status_error e) <> 201.
Proof. destruct e; discriminate. Qed.

(** X22. An account is created as a whole or not at all: a registration
    that is not answered 201 leaves the store as it was, also when the
    transaction fails half way because the device is already registered. *)
Theorem email_register_all_or_nothing
    (newUserId newDeviceId : string) (now : Z) (body : Body) (w : World) :
  status (snd (POST isEmail hash sign toISOString newUserId newDeviceId now
                 body w)) <> 201 ->
  fst (POST isEmail hash sign toISOString newUserId newDeviceId now body w) = w.
Proof.
  destruct (POST isEmail hash sign toISOString newUserId newDeviceId now body w)
    as [w' r] eqn:HP.
  cbn [fst snd]. revert HP. unfold POST, try_catch, POST_body.
  unfold bind at 1.
  destruct body as [j|m]; [|now intros [= <- <-]].
  cbn [request_json ret].
  unfold bind at 1. unfold lift at 1.
  destruct (EmailRegisterSchema isEmail j) as [validated|e];
    [|now intros [= <- <-]].
  unfold bind at 1. unfold get at 1.
  destruct (List.find _ (users w)); [now intros [= <- <-]|].
  unfold bind at 1. unfold transaction.
  unfold bind at 1. unfold user_create. cbn [u_id u_email].
  destruct (List.existsb _ (users w)); [now intros [= <- <-]|].
  destruct (List.existsb _ (users w)); [now intros [= <- <-]|].
  unfold bind at 1. unfold device_create. cbn [dev_platform].
  rewrite platform_text_refused. cbn [negb].
  now intros [= <- <-].
Qed.

(** X23. No registration by email goes through.  The device is created
    with the platform of the request, [ios] or [android], in a column that
    holds [IOS] or [ANDROID]; the store refuses it and the transaction
    takes the user back: whatever the request and the state of the store,
    the answer is not the 201, and the store is left as it was. *)
Theorem email_register_never_succeeds
    (newUserId newDeviceId : string) (now : Z) (body : Body) (w : World) :
  status (snd (POST isEmail hash sign toISOString newUserId newDeviceId now
                 body w)) <> 201 /\
  fst (POST isEmail hash sign toISOString newUserId newDeviceId now body w) = w.
Proof.
  destruct (POST isEmail hash sign toISOString newUserId newDeviceId now body w)
    as [w' r] eqn:HP.
  cbn [fst snd]. revert HP. unfold POST, try_catch, POST_body.
  unfold bind at 1.
  destruct body as [j|m];
    [|intros [= <- <-]; split; [discriminate | reflexivity]].
  cbn [request_json ret].
  unfold bind at 1. unfold lift at 1.
  destruct (EmailRegisterSchema isEmail j) as [validated|e];
    [|intros [= <- <-];
      split; [apply email_register_error_not_201 | reflexivity]].
  unfold bind at 1. unfold get at 1.
  destruct (List.find _ (users w));
    [intros [= <- <-]; split; [discriminate | reflexivity]|].
  unfold bind at 1. unfold transaction.
  unfold bind at 1. unfold user_create. cbn [u_id u_email].
  destruct (List.existsb _ (users w));
    [intros [= <- <-]; split; [discriminate | reflexivity]|].
  destruct (List.existsb _ (users w));
    [intros [= <- <-]; split; [discriminate | reflexivity]|].
  unfold bind at 1. unfold device_create. cbn [dev_platform].
  rewrite platform_text_refused. cbn [negb].
  intros [= <- <-]. split; [discriminate | reflexivity].
Qed.

(** X24. A registration with an email that is not yet registered ends in
    a 500: the request passes the schema and the lookup of the email, the
    transaction fails, and the route answers [Registration failed]. *)
Theorem email_register_new_email_is_500
    (newUserId newDeviceId : string) (now : Z) (j : Json) (w : World)
    (validated : Validated) :
  EmailRegisterSchema isEmail j = Ok validated ->
  List.find (fun u => String.eqb (u_email u) (v_email validated)) (users w)
    = None ->
  POST isEmail hash sign toISOString newUserId newDeviceId now (Some j) w =
    (w, json_error 500 "Registration failed").
Proof.
  intros Hparse Hfresh.
  unfold POST, try_catch, POST_body.
  unfold bind at 1. cbn [body_of request_json ret].
  unfold bind at 1. unfold lift at 1. rewrite Hparse.
  unfold bind at 1. unfold get at 1. rewrite Hfresh.
  unfold bind at 1. unfold transaction.
  unfold bind at 1. unfold user_create. cbn [u_id u_email].
  destruct (List.existsb _ (users w)); [reflexivity|].
  destruct (List.existsb _ (users w)); [reflexivity|].
  unfold bind at 1. unfold device_create. cbn [dev_platform].
  now rewrite platform_text_refused.
Qed.

End EmailRegisterMore.

Lemma email_register_all_or_nothing_witness :
  fst (EmailRegister.POST Examples.any_email MoreExamples.hash0 Examples.sign0
         Examples.iso0 "user-e" "dev-5" 1000
         (Some MoreExamples.erin_register_body) Examples.world1)
  = Examples.world1.
Proof.
  apply (email_register_all_or_nothing Examples.any_email MoreExamples.hash0
           Examples.sign0 Examples.iso0 "user-e" "dev-5" 1000
           (Some MoreExamples.erin_register_body) Examples.world1).
  vm_compute. discriminate.
Defined.

Lemma email_register_new_email_is_500_witness :
  EmailRegister.POST Examples.any_email MoreExamples.hash0 Examples.sign0
    Examples.iso0 "user-d" "dev-7" 1000 (Some MoreExamples.dave_register_body)
    Examples.world1
  = (Examples.world1, json_error 500 "Registration failed").
Proof.
  apply (email_register_new_email_is_500 Examples.any_email MoreExamples.hash0
           Examples.sign0 Examples.iso0 "user-d" "dev-7" 1000
           MoreExamples.dave_register_body Examples.world1
           MoreExamples.dave_register).
  - reflexivity.
  - reflexivity.
Defined.

Section PaymentMore.
Import Billing.

Variable verify : string -> option AuthUser.
Variable sharedSecret : option string.
Variable fetch : string -> string -> PaymentVerify.FetchOutcome.
Variable verifyGoogleReceipt : string -> PaymentVerify.VerificationResult.

Lemma nth_error_map_if {A : Type} (p : A -> bool) (f : A -> A) (l : list A)
    (i : nat) (x : A) :
  nth_error l i = Some x ->
  nth_error (List.map (fun y => if p y then f y else y) l) i
    = Some (if p x then f x else x).
Proof. intros H. now rewrite nth_error_map, H. Qed.

(** What the transaction of the payment route does to the table. *)
Lemma activate_rows newId now periodEnd user validated sid s s1 subscription :
  platformSubId_unique (rows s) ->
  activate newId now periodEnd user validated sid s = (s1, Ok subscription) ->
  sr_userId subscription = userId user /\
  sr_tier subscription = "premium" /\
  sr_status subscription = "active" /\
  sr_currentPeriodEnd subscription = Some periodEnd /\
  sr_platformSubId subscription = Some sid /\
  In subscription (rows s1) /\
  events s1 = events s /\
  forall i r,
    nth_error (rows s) i = Some r ->
    nth_error (rows s1) i = Some r \/ sr_userId r = userId user.
Proof.
  intros Huniq. unfold activate.
  destruct (List.find (has_platformSubId sid) (rows s)) as [existing|] eqn:Hfind.
  - destruct (String.eqb_spec (sr_userId existing) (userId user)) as [Hown|];
      [|discriminate].
    cbn [negb]. destruct (valid_date periodEnd); [|discriminate].
    cbn [negb]. intros [= <- <-].
    apply List.find_some in Hfind. destruct Hfind as [Hin Hsid].
    cbn [sr_userId sr_tier sr_status sr_currentPeriodEnd sr_platformSubId rows
         events].
    repeat split; auto.
    + revert Hsid. unfold has_platformSubId.
      destruct (sr_platformSubId existing) as [sid'|]; [|discriminate].
      intros H. apply String.eqb_eq in H. now subst.
    + apply List.in_map_iff. exists existing. now rewrite Hsid.
    + intros i r Hr.
      rewrite (nth_error_map_if _ _ _ _ _ Hr).
      destruct (has_platformSubId sid r) eqn:Hr_sid; [|now left].
      right. apply nth_error_In in Hr.
      now rewrite (Huniq sid r existing Hr Hin Hr_sid Hsid).
  - destruct (valid_date periodEnd); [|discriminate].
    cbn [negb]. unfold create. cbn [sr_id sr_platformSubId].
    destruct (List.existsb _ (rows s)); [discriminate|].
    destruct (List.existsb _ (rows s)); [discriminate|].
    intros [= <- <-].
    cbn [sr_userId sr_tier sr_status sr_currentPeriodEnd sr_platformSubId rows
         events].
    repeat split; auto.
    + apply List.in_or_app. right. now left.
    + intros i r Hr. left. rewrite nth_error_app1; [exact Hr|].
      apply nth_error_Some. congruence.
Qed.

(** X25. A payment never changes the subscription of someone else: whatever
    the request and the answers of the vendors, every row of the table
    either stays as it is, at its place, or belongs to the authenticated
    caller. *)
Theorem payment_keeps_foreign_rows
    (newId : string) (now : Z) (authHeader : option string)
    (body : Body) (s : Store) (i : nat) (r : SubscriptionRow) :
  platformSubId_unique (rows s) ->
  nth_error (rows s) i = Some r ->
  nth_error
    (rows (fst (POST verify sharedSecret fetch verifyGoogleReceipt newId now
                  authHeader body s))) i = Some r
  \/ exists user,
       Auth.verifyAuth verify authHeader = Ok user /\
       sr_userId r = userId user.
Proof.
  intros Huniq Hr. unfold POST, POST_body.
  destruct (Auth.verifyAuth verify authHeader) as [user|e]; [|now left].
  destruct body as [j|]; [|now left].
  destruct (PaymentVerifySchema j) as [validated|e]; [|now left].
  destruct (negb (PaymentVerify.valid _)); [now left|].
  destruct (expiry_ms _) as [periodEnd|]; [|now left].
  destruct (activate _ _ _ _ _ _ s) as [s1 [subscription|e]] eqn:Hact;
    [|now left].
  destruct (activate_rows _ _ _ _ _ _ _ _ _ Huniq Hact)
    as (Hown & _ & _ & _ & _ & _ & _ & Hrows).
  rewrite Hown, String.eqb_refl. cbn [negb fst rows].
  destruct (Hrows i r Hr) as [Hsame|Hmine]; [now left|].
  right. now exists user.
Qed.


End PaymentMore.

Lemma billing1_unique : Billing.platformSubId_unique (Billing.rows MoreExamples.billing1).
Proof.
  intros sid r1 r2 [<-|[<-|[]]] [<-|[<-|[]]]; cbn; try reflexivity;
    discriminate.
Defined.

Lemma payment_keeps_foreign_rows_witness :
  nth_error
    (Billing.rows
       (fst (Billing.POST Examples.verify None MoreExamples.no_fetch
               MoreExamples.google_ok "sub-3" 1000 (Some "Bearer token-b")
               (Some MoreExamples.android_payment_body) MoreExamples.billing1)))
    0 = Some MoreExamples.alice_premium
  \/ exists user,
       Auth.verifyAuth Examples.verify (Some "Bearer token-b") = Ok user /\
       Billing.sr_userId MoreExamples.alice_premium = userId user.
Proof.
  apply (payment_keeps_foreign_rows Examples.verify None MoreExamples.no_fetch
           MoreExamples.google_ok "sub-3" 1000 (Some "Bearer token-b")
           (Some MoreExamples.android_payment_body) MoreExamples.billing1 0
           MoreExamples.alice_premium).
  - exact billing1_unique.
  - reflexivity.
Defined.


Section SubscriptionCurrentMore.
Import Billing.

Variable verify : string -> option AuthUser.

Lemma ceil_days_bounds (x : Z) :
  (ceil_days x - 1) * day < x <= ceil_days x * day.
Proof.
  unfold ceil_days.
  assert (Hday : 0 < day) by reflexivity.
  pose proof (Z.mul_div_le (- x) day Hday).
  pose proof (Z.mul_succ_div_gt (- x) day Hday).
  lia.
Qed.

(** X27. A trial that the subscription route reports was running when the
    route looked: when the response carries the status [trial], the trial
    ends after the first reading of the clock and [isTrialActive] is set.
    [trialDaysRemaining] is counted from the next reading: it is the
    number of days that covers the time left then, at least 1 while the
    trial still runs at that reading, and 0 or less for a trial that ended
    between the two readings. *)
Theorem subscription_reported_trial_is_running
    (newId : string) (now later last : Z) (authHeader : option string)
    (s : Store) (v : SubscriptionView) :
  data (snd (GET verify newId now later last authHeader s)) = Some v ->
  sv_status v = "trial" ->
  exists trialEnd n,
    sv_trialEndsAt v = Some trialEnd /\
    now < trialEnd /\
    sv_isTrialActive v = true /\
    sv_trialDaysRemaining v = Some (Some n) /\
    (n - 1) * day < trialEnd - later <= n * day /\
    (later < trialEnd -> 1 <= n) /\
    (trialEnd <= later -> n <= 0).
Proof.
  unfold GET, GET_body.
  destruct (Auth.verifyAuth verify authHeader) as [user|e].
  2:{ cbn [snd]. unfold current_error. now destruct (includes _ _). }
  destruct (findFirst_latest _ (rows s)) as [subscription|].
  - destruct (String.eqb (sr_status subscription) "trial"
              && negb (isTrialActive now (sr_status subscription)
                         (sr_trialEndsAt subscription))) eqn:Hlapsed.
    + cbn [snd data]. intros [= <-]. discriminate.
    + cbn [snd data]. intros [= <-].
      cbn [sv_status sv_trialEndsAt sv_isTrialActive sv_trialDaysRemaining].
      intros Htrial. rewrite Htrial in Hlapsed. cbn [String.eqb andb] in Hlapsed.
      change (("trial" =? "trial")%string) with true in Hlapsed.
      cbn [andb] in Hlapsed. apply negb_false_iff in Hlapsed.
      revert Hlapsed. unfold isTrialActive. rewrite Htrial.
      destruct (sr_trialEndsAt subscription) as [trialEnd|]; [|discriminate].
      change (("trial" =? "trial")%string) with true. cbn iota.
      intros Hrun. apply Z.ltb_lt in Hrun.
      exists trialEnd, (ceil_days (trialEnd - later)).
      pose proof (ceil_days_bounds (trialEnd - later)) as Hb.
      assert (Hday : 0 < day) by reflexivity.
      repeat split; try reflexivity; try lia; intros; nia.
  - unfold create. cbn [sr_id sr_platformSubId].
    destruct (List.existsb _ (rows s)).
    + cbn [snd]. unfold current_error. now destruct (includes _ _).
    + cbn [snd data]. intros [= <-]. discriminate.
Qed.

(** X28. The subscription route answers 401 for a token that does not
    verify, and for nothing else: a request without a bearer token is
    answered 500, like any other failure. *)
Theorem subscription_get_401_iff_bad_token
    (newId : string) (now later last : Z) (authHeader : option string)
    (s : Store) :
  status (snd (GET verify newId now later last authHeader s)) = 401 <->
  Auth.verifyAuth verify authHeader = Throw (Error "Invalid or expired token").
Proof.
  unfold GET, GET_body.
  destruct (Auth.verifyAuth verify authHeader) as [user|e] eqn:Hauth.
  - split; [|discriminate].
    destruct (findFirst_latest _ (rows s)) as [subscription|].
    + destruct (_ && _); discriminate.
    + unfold create. cbn [sr_id sr_platformSubId].
      destruct (List.existsb _ (rows s)); [|discriminate].
      cbn. discriminate.
  - revert Hauth. unfold Auth.verifyAuth.
    destruct authHeader as [h|].
    + destruct (_ || _).
      * intros [= <-]. split; [cbn; discriminate | discriminate].
      * destruct (verify _); [discriminate|].
        intros [= <-]. split; [reflexivity | intros _; reflexivity].
    + intros [= <-]. split; [cbn; discriminate | discriminate].
Qed.

End SubscriptionCurrentMore.

Lemma subscription_reported_trial_is_running_witness :
  exists trialEnd n,
    Some 5000 = Some trialEnd /\
    1000 < trialEnd /\
    true = true /\
    Some (Some 0) = Some (Some n) /\
    (n - 1) * Billing.day < trialEnd - 6000 <= n * Billing.day /\
    (6000 < trialEnd -> 1 <= n) /\
    (trialEnd <= 6000 -> n <= 0).
Proof.
  apply (subscription_reported_trial_is_running Examples.verify "sub-3" 1000
           6000 6000 (Some "Bearer token-b") MoreExamples.billing1
           (Billing.mkView "sub-2" "free" "trial" "ios" (Some 5000) (Some 0)
              (Some 5000) (Some false) false true (Some (Some 0)))).
  - vm_compute. reflexivity.
  - reflexivity.
Defined.

Section ThreatUploadMore.
Import ThreatUpload.

Variable verify : string -> option AuthUser.
Variable ADMIN_EMAILS : option string.
Variable role : User -> string.
Variable checksum : list Threat -> string.


(** X29. Only an administrator changes the signatures: a request that
    changes the store or adds to the audit log comes with a token that
    verifies, of a user who has the role [admin] or whose email is listed
    in [ADMIN_EMAILS]. *)
Theorem upload_needs_admin
    (headers : EmailLogin.Headers) (authHeader : option string)
    (body : Body) (w : World) (audit : list AdminAuditLog) :
  fst (POST verify ADMIN_EMAILS role checksum headers authHeader body w audit)
    <> (w, audit) ->
  exists user,
    Auth.verifyAuth verify authHeader = Ok user /\
    checkAdminStatus ADMIN_EMAILS role w (userId user) = true.
Proof.
  unfold POST.
  destruct (Auth.verifyAuth verify authHeader) as [user|e];
    [|intros H; exfalso; now apply H].
  destruct (checkAdminStatus ADMIN_EMAILS role w (userId user)) eqn:Hadmin;
    [|intros H; exfalso; now apply H].
  intros _. now exists user.
Qed.




Variable toISOString : Z -> string.


End ThreatUploadMore.

Lemma upload_needs_admin_witness :
  exists user,
    Auth.verifyAuth Examples.verify (Some "Bearer token-a") = Ok user /\
    ThreatUpload.checkAdminStatus (Some " Alice@Example.com ,ops@example.com")
      MoreExamples.role0 MoreExamples.world_admin (userId user) = true.
Proof.
  apply (upload_needs_admin Examples.verify
           (Some " Alice@Example.com ,ops@example.com") MoreExamples.role0
           MoreExamples.checksum0 Examples.no_headers (Some "Bearer token-a")
           (Some MoreExamples.upload_body) MoreExamples.world_admin []).
  vm_compute. discriminate.
Defined.

